(** * Four Histories three-parallel corpus: parser, hierarchy builder, search

    A shallow embedding of the core of [app.py] and [build_static.py]:
    the three-parallel parser, the directory scan that builds the corpus,
    and the search engine, followed by the properties of the specification
    that were checked against them. *)

From Stdlib Require Import ZArith Lia.
From stdpp Require Import gmap strings list sorting.

Local Open Scope Z_scope.
Local Open Scope nat_scope.

(** ** Python strings

    A Python [str] is a sequence of Unicode code points; [len], slicing and
    [find] count code points.  A character is therefore a code point in [N]
    and a string a list of them. *)

Abbreviation char := N (only parsing).
Abbreviation str := (list N) (only parsing).

(** ASCII literals: [py "abc"] is the Python literal ['abc']. *)
Definition py (s : string) : str :=
  map (λ a, N.of_nat (Ascii.nat_of_ascii a)) (String.list_ascii_of_string s).

Definition NL : char := 10%N.

(** [str.isspace] for one code point: the characters [str.strip()] removes. *)
Definition is_space (c : char) : bool :=
  ((9 <=? c) && (c <=? 13) || (28 <=? c) && (c <=? 32)
   || (c =? 133) || (c =? 160) || (c =? 5760)
   || (8192 <=? c) && (c <=? 8202)
   || (c =? 8232) || (c =? 8233) || (c =? 8239) || (c =? 8287)
   || (c =? 12288))%N.

Fixpoint lstrip (s : str) : str :=
  match s with
  | c :: s' => if is_space c then lstrip s' else s
  | [] => []
  end.

Definition rstrip (s : str) : str := reverse (lstrip (reverse s)).

(** [s.strip()] *)
Definition strip (s : str) : str := rstrip (lstrip s).

Definition str_eqb (a b : str) : bool := bool_decide (a = b).

(** [s.startswith(p)] *)
Fixpoint startswith (p s : str) : bool :=
  match p, s with
  | [], _ => true
  | c :: p', d :: s' => (c =? d)%N && startswith p' s'
  | _ :: _, [] => false
  end.

(** [s.endswith(p)] *)
Definition endswith (p s : str) : bool := startswith (reverse p) (reverse s).

(** [c in s] for a one-character literal [c]. *)
Definition char_in (c : char) (s : str) : bool := existsb (N.eqb c) s.

(** [needle in hay] *)
Fixpoint str_in (needle hay : str) : bool :=
  startswith needle hay ||
  match hay with
  | [] => false
  | _ :: hay' => str_in needle hay'
  end.

(** [hay.find(needle)]: index of the first occurrence, [-1] when there is
    none. *)
Fixpoint find_from (needle hay : str) (i : Z) : Z :=
  if startswith needle hay then i
  else match hay with
       | [] => (-1)%Z
       | _ :: hay' => find_from needle hay' (i + 1)%Z
       end.

Definition find (hay needle : str) : Z := find_from needle hay 0%Z.

(** [len(s)] *)
Definition len {A} (l : list A) : Z := Z.of_nat (length l).

(** Slice bounds are clamped as Python does: a negative bound counts from
    the end, and both bounds are clipped to [0, len]. *)
Definition clamp (n i : Z) : Z :=
  if (i <? 0)%Z then Z.max 0 (n + i) else Z.min i n.

(** [s[a:b]] *)
Definition slice {A} (s : list A) (a b : Z) : list A :=
  let a' := clamp (len s) a in
  let b' := clamp (len s) b in
  take (Z.to_nat (b' - a')) (drop (Z.to_nat a') s).

(** [s[a:]] *)
Definition slice_from {A} (s : list A) (a : Z) : list A := slice s a (len s).

(** [s[:b]] *)
Definition slice_to {A} (s : list A) (b : Z) : list A := slice s 0 b.

(** [sep.join(parts)] *)
Fixpoint join (sep : str) (parts : list str) : str :=
  match parts with
  | [] => []
  | [p] => p
  | p :: ps => p ++ sep ++ join sep ps
  end.

(** [s.split(sep, maxsplit)] for a non-empty separator (the source only
    passes the literals ['\n\n'], ['\n'] and ['_']).  The scan goes left
    to right; [skip] counts the characters of a separator that has just
    been matched and [budget] the cuts still allowed ([None]: no limit). *)
Fixpoint split_go (sep : str) (budget : option nat) (skip : nat)
    (cur : str) (s : str) : list str :=
  match s with
  | [] => [reverse cur]
  | c :: s' =>
    match skip with
    | S k => split_go sep budget k cur s'
    | O =>
      match budget with
      | Some O => split_go sep budget 0 (c :: cur) s'
      | _ =>
        if startswith sep s
        then reverse cur :: split_go sep (pred <$> budget) (length sep - 1) [] s'
        else split_go sep budget 0 (c :: cur) s'
      end
    end
  end.

Definition split (sep : str) (s : str) : list str := split_go sep None 0 [] s.
Definition split_max (sep : str) (maxsplit : nat) (s : str) : list str :=
  split_go sep (Some maxsplit) 0 [] s.

(** [s.splitlines()]: the line boundaries are LF, CR, CR LF, VT, FF, FS, GS,
    RS, NEL, LS and PS; a final boundary opens no empty last line. *)
Definition is_linebreak (c : char) : bool :=
  ((10 <=? c) && (c <=? 13) || (28 <=? c) && (c <=? 30)
   || (c =? 133) || (c =? 8232) || (c =? 8233))%N.

Fixpoint splitlines_go (cur : str) (s : str) : list str :=
  match s with
  | [] => match cur with [] => [] | _ => [reverse cur] end
  | c :: s' =>
    if (c =? 13)%N then
      match s' with
      | d :: s'' => if (d =? 10)%N then reverse cur :: splitlines_go [] s''
                    else reverse cur :: splitlines_go [] s'
      | [] => [reverse cur]
      end
    else if is_linebreak c then reverse cur :: splitlines_go [] s'
    else splitlines_go (c :: cur) s'
  end.

Definition splitlines (s : str) : list str := splitlines_go [] s.

(** Decimal rendering of a non-negative integer, as [str(n)] and f-strings
    produce it. *)
Fixpoint digits_of_uint (d : Decimal.uint) : str :=
  match d with
  | Decimal.Nil => []
  | Decimal.D0 d => 48%N :: digits_of_uint d
  | Decimal.D1 d => 49%N :: digits_of_uint d
  | Decimal.D2 d => 50%N :: digits_of_uint d
  | Decimal.D3 d => 51%N :: digits_of_uint d
  | Decimal.D4 d => 52%N :: digits_of_uint d
  | Decimal.D5 d => 53%N :: digits_of_uint d
  | Decimal.D6 d => 54%N :: digits_of_uint d
  | Decimal.D7 d => 55%N :: digits_of_uint d
  | Decimal.D8 d => 56%N :: digits_of_uint d
  | Decimal.D9 d => 57%N :: digits_of_uint d
  end.

Definition str_of_nat (n : nat) : str := digits_of_uint (Nat.to_uint n).

(** [a or b] on strings: the first one that is not empty. *)
Definition str_or (a b : str) : str :=
  match a with [] => b | _ => a end.

(** The separators of the three-parallel format: ['\n'] and ['\n\n']. *)
Definition newline : str := [NL].
Definition blank_line : str := [NL; NL].

(** ** Exceptions

    The exceptions this code can meet, and the monad that threads them:
    [Raise e] leaves every enclosing loop unless a [try] names [e]. *)

Inductive exn :=
  | KeyError (key : string)
  | IndexError
  | FileNotFoundError
  | IsADirectoryError
  | NotADirectoryError
  | PermissionError.

Inductive result (A : Type) :=
  | Ok (a : A)
  | Raise (e : exn).
Arguments Ok {A} a.
Arguments Raise {A} e.

#[global] Instance result_ret : MRet result := λ A a, Ok a.
#[global] Instance result_bind : MBind result := λ A B f m,
  match m with
  | Ok a => f a
  | Raise e => Raise e
  end.
#[global] Instance result_fmap : FMap result := λ A B f m,
  match m with
  | Ok a => Ok (f a)
  | Raise e => Raise e
  end.

(** A [for] loop whose body may raise: the state is threaded from left to
    right and the first exception ends the loop. *)
Fixpoint for_each {A S} (body : S → A → result S) (s : S) (l : list A)
    : result S :=
  match l with
  | [] => Ok s
  | x :: l' => s' ← body s x; for_each body s' l'
  end.

(** [l[i]] *)
Definition getitem {A} (l : list A) (i : nat) : result A :=
  match l !! i with
  | Some x => Ok x
  | None => Raise IndexError
  end.

(** [enumerate(l)] *)
Fixpoint enumerate_from {A} (n : nat) (l : list A) : list (nat * A) :=
  match l with
  | [] => []
  | x :: l' => (n, x) :: enumerate_from (S n) l'
  end.
Definition enumerate {A} (l : list A) : list (nat * A) := enumerate_from 0 l.

(** [sorted] and [list.sort] are stable.  [sort_by before] keeps an element
    in front of every later element it may stand [before]. *)
Fixpoint insert_by {A} (before : A → A → bool) (x : A) (l : list A) : list A :=
  match l with
  | [] => [x]
  | y :: l' => if before x y then x :: l else y :: insert_by before x l'
  end.

Definition sort_by {A} (before : A → A → bool) (l : list A) : list A :=
  foldr (insert_by before) [] l.

(** Python compares strings lexicographically by code point. *)
Fixpoint str_leb (a b : str) : bool :=
  match a, b with
  | [], _ => true
  | _ :: _, [] => false
  | c :: a', d :: b' => (c <? d)%N || (c =? d)%N && str_leb a' b'
  end.

(** [sorted(names)] *)
Definition sorted (names : list str) : list str := sort_by str_leb names.

(** [l.sort(key=key, reverse=True)]: descending keys, equal keys in their
    original order. *)
Definition sort_reverse {A} (key : A → nat) (l : list A) : list A :=
  sort_by (λ x y, key y <=? key x) l.

(** ** Case handling

    [str.lower] and the case-insensitive comparison of the [re] module are
    Unicode tables of the Python runtime; the development is parametric in
    them.  [ascii_casing] is what they do on ASCII text. *)

Class Casing := {
  lower : str → str;
  ieq : char → char → bool
}.

Definition ascii_lower_char (c : char) : char :=
  if ((65 <=? c) && (c <=? 90))%N then (c + 32)%N else c.

Definition ascii_casing : Casing := {|
  lower := map ascii_lower_char;
  ieq := λ c d, (ascii_lower_char c =? ascii_lower_char d)%N
|}.

(** ** Data model *)

(** A paragraph is the dict [{'wenyan': .., 'zh': .., 'en': ..}]. *)
Abbreviation paragraph := (gmap string (list N)) (only parsing).

Definition mk_paragraph (wenyan zh en : str) : paragraph :=
  {[ "wenyan"%string := wenyan; "zh"%string := zh; "en"%string := en ]}.

(** [d.get(key, dflt)] *)
Definition dict_get (d : paragraph) (key : string) (dflt : str) : str :=
  default dflt (d !! key).

(** The dict a parser returns.  Its ['paragraphs'] key is set by the parser
    of [app.py] and not by the one of [build_static.py]: [None] is the
    absent key. *)
Record parsed := {
  p_wenyan : str;
  p_zh : str;
  p_en : str;
  p_paragraphs : option (list paragraph)
}.

(** [content['paragraphs']] *)
Definition parsed_paragraphs (content : parsed) : result (list paragraph) :=
  match p_paragraphs content with
  | Some ps => Ok ps
  | None => Raise (KeyError "paragraphs")
  end.

(** A chapter dict.  The old-format branch of [build_static.py] builds
    chapters without a ['paragraphs'] key. *)
Record chapter := {
  ch_id : nat;
  ch_title : str;
  ch_wenyan : str;
  ch_zh : str;
  ch_en : str;
  ch_paragraphs : option (list paragraph)
}.

Record category := {
  cat_id : str;
  cat_title : str;
  cat_chapters : list chapter
}.

Record book := {
  book_id : str;
  book_title : str;
  book_categories : list category
}.

(** ** The directory tree under [data/raw]

    A snapshot of what the scan reads.  A file holds its decoded text; a
    directory holds its entries in the order [os.listdir] reports them and
    may deny listing.  Paths are relative to [RAW_DIR], one component per
    element; the snapshot is [None] when [RAW_DIR] does not exist.  A path
    that runs through a file is an error of its own, as the system calls
    report it. *)

#[warnings="-register-all"]
Inductive node :=
  | File (content : str)
  | Dir (readable : bool) (entries : list (list N * node)).

Abbreviation path := (list (list N)) (only parsing).

Fixpoint entry (name : str) (entries : list (list N * node)) : option node :=
  match entries with
  | [] => None
  | (n, x) :: rest => if str_eqb n name then Some x else entry name rest
  end.

Fixpoint resolve (n : node) (p : path) : result node :=
  match p with
  | [] => Ok n
  | name :: p' =>
    match n with
    | Dir _ entries =>
      match entry name entries with
      | Some x => resolve x p'
      | None => Raise FileNotFoundError
      end
    | File _ => Raise NotADirectoryError
    end
  end.

Definition at_path (fs : option node) (p : path) : result node :=
  match fs with
  | Some n => resolve n p
  | None => Raise FileNotFoundError
  end.

Definition RAW_DIR : path := [].

(** [os.path.join(dir, name)] *)
Definition path_join (dir : path) (name : str) : path := dir ++ [name].

(** [os.path.isdir(p)] *)
Definition isdir (fs : option node) (p : path) : bool :=
  match at_path fs p with
  | Ok (Dir _ _) => true
  | _ => false
  end.

(** [os.listdir(p)] *)
Definition listdir (fs : option node) (p : path) : result (list (list N)) :=
  match at_path fs p with
  | Ok (Dir true entries) => Ok (fst <$> entries)
  | Ok (Dir false _) => Raise PermissionError
  | Ok (File _) => Raise NotADirectoryError
  | Raise e => Raise e
  end.

(** [open(p, 'r', encoding='utf-8').read()] *)
Definition read_text (fs : option node) (p : path) : result (list N) :=
  match at_path fs p with
  | Ok (File content) => Ok content
  | Ok (Dir _ _) => Raise IsADirectoryError
  | Raise e => Raise e
  end.

(** ** The title table of the four histories *)

Record book_config := {
  cfg_name : str;
  cfg_categories : gmap (list N) (list N)
}.

Definition book_configs : gmap (list N) book_config :=
  {[ py "shiji" :=
       {| cfg_name := [21490; 35760]%N;
          cfg_categories := {[ py "benji" := [26412; 32426]%N;
                           py "shijia" := [19990; 23478]%N;
                           py "liezhuan" := [21015; 20256]%N;
                           py "shu" := [20070]%N;
                           py "biao" := [34920]%N ]} |};
     py "hanshu" :=
       {| cfg_name := [27721; 20070]%N;
          cfg_categories := {[ py "benji" := [26412; 32426]%N;
                           py "biao" := [34920]%N;
                           py "zhi" := [24535]%N;
                           py "liezhuan" := [21015; 20256]%N ]} |};
     py "houhanshu" :=
       {| cfg_name := [21518; 27721; 20070]%N;
          cfg_categories := {[ py "liezhuan" := [21015; 20256]%N;
                           py "diji" := [24093; 32426]%N;
                           py "shu" := [20070]%N ]} |};
     py "sanguozhi" :=
       {| cfg_name := [19977; 22269; 24535]%N;
          cfg_categories := {[ py "wei" := [39759; 20070]%N;
                           py "shu" := [34560; 20070]%N;
                           py "wu" := [21556; 20070]%N ]} |} ]}.

(** [book_configs.get(book_id, {"name": book_id, "categories": {}})] *)
Definition config_of (book_id : str) : book_config :=
  default {| cfg_name := book_id; cfg_categories := ∅ |} (book_configs !! book_id).

(** The lines of one paragraph group:
    [[line.strip() for line in group.split('\n') if line.strip()]]. *)
Definition group_lines (group : str) : list (list N) :=
  strip <$> filter (λ line, strip line ≠ []) (split newline group).

(** The chapter title of a file name: the extension goes, and so does a
    prefix up to the first underscore. *)
Definition title_of_filename (filename : str) : result (list N) :=
  let chapter_title := slice_to filename (-4) in
  if char_in 95%N chapter_title
  then getitem (split_max (py "_") 1 chapter_title) 1
  else Ok chapter_title.

(** * app.py *)

Module App.

(** The four lists the parser's loop appends to. *)
Record parts := {
  wenyan_parts : list (list N);
  zh_parts : list (list N);
  en_parts : list (list N);
  paragraphs : list paragraph
}.

Definition add_group (st : parts) (wenyan zh en : str) : parts :=
  {| wenyan_parts := wenyan_parts st ++ [wenyan];
     zh_parts := zh_parts st ++ [zh];
     en_parts := en_parts st ++ [en];
     paragraphs := paragraphs st ++ [mk_paragraph wenyan zh en] |}.

Definition parse_three_parallel_file (fs : option node) (file_path : path)
    : result parsed :=
  let empty := {| p_wenyan := []; p_zh := []; p_en := [];
                  p_paragraphs := Some [] |} in
  match read_text fs file_path with
  | Raise FileNotFoundError => Ok empty
  | Raise e => Raise e
  | Ok raw =>
    let content := strip raw in
    match content with
    | [] => Ok empty
    | _ =>
      let paragraph_groups := split blank_line content in
      st ← for_each (λ st group,
              let lines := group_lines group in
              if 3 <=? length lines then
                wenyan ← getitem lines 0;
                zh ← getitem lines 1;
                en ← getitem lines 2;
                Ok (add_group st wenyan zh en)
              else if length lines =? 2 then
                wenyan ← getitem lines 0;
                zh ← getitem lines 1;
                Ok (add_group st wenyan zh [])
              else if length lines =? 1 then
                wenyan ← getitem lines 0;
                Ok (add_group st wenyan [] [])
              else Ok st)
            {| wenyan_parts := []; zh_parts := []; en_parts := [];
               paragraphs := [] |}
            paragraph_groups;
      Ok {| p_wenyan := join blank_line (wenyan_parts st);
            p_zh := join blank_line (zh_parts st);
            p_en := join blank_line (en_parts st);
            p_paragraphs := Some (paragraphs st) |}
    end
  end.

(** The chapters of one category directory. *)
Definition load_chapters (fs : option node) (cat_path : path)
    : result (list chapter) :=
  files ← listdir fs cat_path;
  let chapter_files := filter (λ f, endswith (py ".txt") f = true) files in
  for_each (λ chapters '(i, filename),
      let file_path := path_join cat_path filename in
      chapter_title ← title_of_filename filename;
      content ← parse_three_parallel_file fs file_path;
      paragraphs ← parsed_paragraphs content;
      Ok (chapters ++ [{| ch_id := i + 1;
                          ch_title := chapter_title;
                          ch_wenyan := p_wenyan content;
                          ch_zh := p_zh content;
                          ch_en := p_en content;
                          ch_paragraphs := Some paragraphs |}]))
    [] (enumerate (sorted chapter_files)).

(** The categories of one book directory. *)
Definition load_categories (fs : option node) (book_path : path)
    (book_config : book_config) : result (list category) :=
  cat_dirs ← listdir fs book_path;
  for_each (λ categories cat_dir,
      let cat_path := path_join book_path cat_dir in
      if negb (isdir fs cat_path) then Ok categories
      else
        let cat_title := default cat_dir (cfg_categories book_config !! cat_dir) in
        chapters ← load_chapters fs cat_path;
        match chapters with
        | [] => Ok categories
        | _ => Ok (categories ++ [{| cat_id := cat_dir;
                                     cat_title := cat_title;
                                     cat_chapters := chapters |}])
        end)
    [] (sorted cat_dirs).

Definition load_books_from_raw (fs : option node) : result (list book) :=
  let books := [] in
  if negb (isdir fs RAW_DIR) then Ok books
  else
    book_ids ← listdir fs RAW_DIR;
    for_each (λ books book_id,
        let book_path := path_join RAW_DIR book_id in
        if negb (isdir fs book_path) then Ok books
        else
          let book_config := config_of book_id in
          let book_title := cfg_name book_config in
          categories ← load_categories fs book_path book_config;
          match categories with
          | [] => Ok books
          | _ => Ok (books ++ [{| book_id := book_id;
                                  book_title := book_title;
                                  book_categories := categories |}])
          end)
      books (sorted book_ids).

(** ** Search *)

Inductive language := wenyan | baihua | english.

(** A match record; its ['type'] key is the constructor. *)
Inductive match_record :=
  | TitleMatch (content highlight : str)
  | ContentMatch (lang : language) (paragraph_id : nat)
      (content highlight : str) (full_paragraph : paragraph).

Record search_result := {
  r_book : book;
  r_category : category;
  r_chapter : chapter;
  r_matches : list match_record;
  relevance_score : nat
}.

Definition mark_open : str := py "<mark>".
Definition mark_close : str := py "</mark>".

Section Search.
Context {casing : Casing}.

(** The escaped query matches at the head of [s], ignoring case. *)
Fixpoint imatch (q s : str) : bool :=
  match q, s with
  | [], _ => true
  | c :: q', d :: s' => ieq c d && imatch q' s'
  | _ :: _, [] => false
  end.

(** [re.sub('(q)', '<mark>\1</mark>', s, flags=re.IGNORECASE)] for a
    non-empty literal [q]: the leftmost occurrences are wrapped, without
    overlap.  [inside] counts the characters of the current occurrence that
    are still to be copied. *)
Fixpoint sub_go (q : str) (inside : nat) (s : str) : str :=
  match s with
  | [] => []
  | c :: s' =>
    let copy (left : nat) :=
      c :: match left with
           | O => mark_close ++ sub_go q 0 s'
           | S _ => sub_go q left s'
           end in
    match inside with
    | S k => copy k
    | O => if imatch q s then mark_open ++ copy (length q - 1)
           else c :: sub_go q 0 s'
    end
  end.

Definition highlight_text (text query : str) : str :=
  match query, text with
  | [], _ | _, [] => text
  | _, _ => sub_go query 0 text
  end.

(** [scope in ('a', 'b')] *)
Definition scope_in (scope : str) (options : list str) : bool :=
  existsb (str_eqb scope) options.

(** The body of the chapter loop: the match records of one chapter. *)
Definition chapter_matches (query search_scope : str) (chapter : chapter)
    : list match_record :=
  let query_lower := strip (lower query) in
  let matches := [] in
  let matches :=
    if scope_in search_scope [py "all"; py "title"] then
      if str_in query_lower (lower (ch_title chapter)) then
        matches ++ [TitleMatch (ch_title chapter)
                      (highlight_text (ch_title chapter) query)]
      else matches
    else matches in
  if scope_in search_scope [py "all"; py "content"] then
    foldl (λ matches '(idx, paragraph),
      foldl (λ matches '(lang, text),
        if str_in query_lower (lower text) then
          let context_start := Z.max 0 (find (lower text) query_lower - 50) in
          let context_end :=
            Z.min (len text) (find (lower text) query_lower + len query + 50) in
          let context := slice text context_start context_end in
          matches ++ [ContentMatch lang (idx + 1) context
                        (highlight_text context query) paragraph]
        else matches)
      matches
      [(wenyan, dict_get paragraph "wenyan" []);
       (baihua, dict_get paragraph "zh" []);
       (english, dict_get paragraph "en" [])])
    matches (enumerate (default [] (ch_paragraphs chapter)))
  else matches.

(** [book_filter and book['id'] != book_filter] *)
Definition filtered_out (book_filter : option str) (book : book) : bool :=
  match book_filter with
  | None | Some [] => false
  | Some f => negb (str_eqb (book_id book) f)
  end.

(** The three nested loops, before the final sort. *)
Definition search_walk (BOOKS : list book) (query search_scope : str)
    (book_filter : option str) : list search_result :=
  foldl (λ results book,
    if filtered_out book_filter book then results
    else
      foldl (λ results category,
        foldl (λ results chapter,
          let matches := chapter_matches query search_scope chapter in
          match matches with
          | [] => results
          | _ => results ++ [{| r_book := book; r_category := category;
                                r_chapter := chapter; r_matches := matches;
                                relevance_score := length matches |}]
          end)
        results (cat_chapters category))
      results (book_categories book))
    [] BOOKS.

Definition search_in_books (BOOKS : list book) (query search_scope : str)
    (book_filter : option str) : list search_result :=
  let query_lower := strip (lower query) in
  match query_lower with
  | [] => []
  | _ => sort_reverse relevance_score
           (search_walk BOOKS query search_scope book_filter)
  end.

End Search.

(** ** Statistics *)

(** One entry of ['books_detail']. *)
Record book_stats := {
  bs_id : str;
  bs_title : str;
  bs_categories : nat;
  bs_chapters : nat;
  bs_paragraphs : nat
}.

Record statistics := {
  total_books : nat;
  total_categories : nat;
  total_chapters : nat;
  total_paragraphs : nat;
  books_detail : list book_stats
}.

(** [book_stats['chapters'] += n] and [book_stats['paragraphs'] += n] *)
Definition add_chapters (bs : book_stats) (n : nat) : book_stats :=
  {| bs_id := bs_id bs; bs_title := bs_title bs;
     bs_categories := bs_categories bs; bs_chapters := bs_chapters bs + n;
     bs_paragraphs := bs_paragraphs bs |}.

Definition add_paragraphs (bs : book_stats) (n : nat) : book_stats :=
  {| bs_id := bs_id bs; bs_title := bs_title bs;
     bs_categories := bs_categories bs; bs_chapters := bs_chapters bs;
     bs_paragraphs := bs_paragraphs bs + n |}.

Definition get_statistics (BOOKS : list book) : statistics :=
  let stats := {| total_books := 0; total_categories := 0; total_chapters := 0;
                  total_paragraphs := 0; books_detail := [] |} in
  let stats :=
    foldl (λ stats book,
      let book_stats :=
        {| bs_id := book_id book; bs_title := book_title book;
           bs_categories := length (book_categories book);
           bs_chapters := 0; bs_paragraphs := 0 |} in
      let book_stats :=
        foldl (λ book_stats category,
          let book_stats :=
            add_chapters book_stats (length (cat_chapters category)) in
          foldl (λ book_stats chapter,
            add_paragraphs book_stats
              (length (default [] (ch_paragraphs chapter))))
            book_stats (cat_chapters category))
          book_stats (book_categories book) in
      {| total_books := total_books stats;
         total_categories := total_categories stats + bs_categories book_stats;
         total_chapters := total_chapters stats + bs_chapters book_stats;
         total_paragraphs := total_paragraphs stats + bs_paragraphs book_stats;
         books_detail := books_detail stats ++ [book_stats] |})
      stats BOOKS in
  {| total_books := length BOOKS;
     total_categories := total_categories stats;
     total_chapters := total_chapters stats;
     total_paragraphs := total_paragraphs stats;
     books_detail := books_detail stats |}.

(** ** Routes

    What a view function hands back: the arguments it renders a template
    with, an [abort(code)], or an exception of its own body. *)

Inductive response (A : Type) :=
  | Rendered (a : A)
  | Aborted (code : nat)
  | Failed (exception : string).
Arguments Rendered {A} a.
Arguments Aborted {A} code.
Arguments Failed {A} exception.

(** A loop whose body may [return]: the first value returned. *)
Fixpoint first_return {A B} (body : A → option B) (l : list A) : option B :=
  match l with
  | [] => None
  | x :: l' =>
    match body x with
    | Some y => Some y
    | None => first_return body l'
    end
  end.

(** The chapter as the template gets it. *)
Record chapter_display := {
  d_id : nat;
  d_title : str;
  d_wenyan : str;
  d_z : str;
  d_en : str;
  d_paragraphs : list paragraph
}.

Record chapter_view := {
  v_book : book;
  v_category : category;
  v_chapter : chapter_display;
  prev_url : option (list N);
  next_url : option (list N)
}.

(** [f"/book/{book_id}/{category_id}/chapter/{id}/"] *)
Definition chapter_url (book_id' category_id' : str) (id : nat) : str :=
  py "/book/" ++ book_id' ++ py "/" ++ category_id' ++ py "/chapter/"
  ++ str_of_nat id ++ py "/".

Definition chapter_page (BOOKS : list book) (book_id' category_id' : str)
    (chapter_id : nat) : response chapter_view :=
  let found :=
    first_return (λ book,
      if str_eqb (book_id book) book_id' then
        first_return (λ category,
          if str_eqb (cat_id category) category_id' then
            first_return (λ chapter,
              if ch_id chapter =? chapter_id then
                let chapters := cat_chapters category in
                match list_find (λ ch, ch_id ch = chapter_id) chapters with
                | None => Some (Failed "StopIteration")
                | Some (chapter_idx, _) =>
                  let prev :=
                    if 0 <? chapter_idx then
                      match chapters !! (chapter_idx - 1) with
                      | Some prev_ch =>
                          Ok (Some (chapter_url book_id' category_id' (ch_id prev_ch)))
                      | None => Raise IndexError
                      end
                    else Ok None in
                  let next :=
                    if chapter_idx <? length chapters - 1 then
                      match chapters !! (chapter_idx + 1) with
                      | Some next_ch =>
                          Ok (Some (chapter_url book_id' category_id' (ch_id next_ch)))
                      | None => Raise IndexError
                      end
                    else Ok None in
                  match prev, next with
                  | Ok prev_url, Ok next_url =>
                    Some (Rendered
                      {| v_book := book; v_category := category;
                         v_chapter :=
                           {| d_id := ch_id chapter;
                              d_title := ch_title chapter;
                              d_wenyan := ch_wenyan chapter;
                              d_z := ch_zh chapter;
                              d_en := ch_en chapter;
                              d_paragraphs := default [] (ch_paragraphs chapter) |};
                         prev_url := prev_url; next_url := next_url |})
                  | _, _ => Some (Failed "IndexError")
                  end
                end
              else None)
              (cat_chapters category)
          else None)
          (book_categories book)
      else None)
      BOOKS in
  match found with
  | Some r => r
  | None => Aborted 404
  end.

(** The page of a book: the first book with the id, else [abort(404)]. *)
Definition book_page (BOOKS : list book) (book_id' : str) : response book :=
  let found :=
    first_return (λ book,
      if str_eqb (book_id book) book_id' then Some (Rendered book) else None)
      BOOKS in
  match found with
  | Some r => r
  | None => Aborted 404
  end.

(** The page of a category: the first category with the id in a book with
    the id, else [abort(404)]. *)
Definition category_page (BOOKS : list book) (book_id' category_id' : str)
    : response (book * category) :=
  let found :=
    first_return (λ book,
      if str_eqb (book_id book) book_id' then
        first_return (λ category,
          if str_eqb (cat_id category) category_id'
          then Some (Rendered (book, category)) else None)
          (book_categories book)
      else None)
      BOOKS in
  match found with
  | Some r => r
  | None => Aborted 404
  end.

(** The JSON object of [/api/search]. *)
Record api_response := {
  api_results : list search_result;
  api_total : nat;
  api_query : str
}.

Section Api.
Context {casing : Casing}.

(** The arguments are those of the request: [None] is an absent one. *)
Definition api_search (BOOKS : list book) (q scope book : option str)
    : api_response :=
  let query := strip (default [] q) in
  let scope := default (py "all") scope in
  let book_filter := book in
  let results := [] in
  let results :=
    match query with
    | [] => results
    | _ => search_in_books BOOKS query scope book_filter
    end in
  {| api_results := slice_to results 20;
     api_total := length results;
     api_query := query |}.

End Api.

End App.

(** * build_static.py *)

Module BuildStatic.

(** The three lists the parser's loop appends to. *)
Record parts := {
  wenyan_parts : list (list N);
  zh_parts : list (list N);
  en_parts : list (list N)
}.

Definition add_group (st : parts) (wenyan zh en : str) : parts :=
  {| wenyan_parts := wenyan_parts st ++ [wenyan];
     zh_parts := zh_parts st ++ [zh];
     en_parts := en_parts st ++ [en] |}.

Definition parse_three_parallel_file (fs : option node) (file_path : path)
    : result parsed :=
  let empty := {| p_wenyan := []; p_zh := []; p_en := [];
                  p_paragraphs := None |} in
  match read_text fs file_path with
  | Raise FileNotFoundError => Ok empty
  | Raise e => Raise e
  | Ok raw =>
    let content := strip raw in
    match content with
    | [] => Ok empty
    | _ =>
      let paragraph_groups := split blank_line content in
      st ← for_each (λ st group,
              let lines := group_lines group in
              if 3 <=? length lines then
                wenyan ← getitem lines 0;
                zh ← getitem lines 1;
                en ← getitem lines 2;
                Ok (add_group st wenyan zh en)
              else if length lines =? 2 then
                wenyan ← getitem lines 0;
                zh ← getitem lines 1;
                Ok (add_group st wenyan zh [])
              else if length lines =? 1 then
                wenyan ← getitem lines 0;
                Ok (add_group st wenyan [] [])
              else Ok st)
            {| wenyan_parts := []; zh_parts := []; en_parts := [] |}
            paragraph_groups;
      Ok {| p_wenyan := join blank_line (wenyan_parts st);
            p_zh := join blank_line (zh_parts st);
            p_en := join blank_line (en_parts st);
            p_paragraphs := None |}
    end
  end.

(** *** The old format: [wenyan.txt], [zh.txt], [en.txt] per book *)

(** [{'title': .., 'content': ..}] *)
Record section := {
  title : str;
  content : str
}.

(** The state of the loop of [parse]. *)
Record cursor := {
  chapters : list section;
  cur_title : str;
  cur_lines : list (list N)
}.

(** [cur_lines or cur_title] *)
Definition pending (st : cursor) : bool :=
  match cur_lines st, cur_title st with
  | [], [] => false
  | _, _ => true
  end.

Definition flush (st : cursor) : list section :=
  if pending st
  then chapters st ++ [{| title := strip (cur_title st);
                          content := strip (join newline (cur_lines st)) |}]
  else chapters st.

(** Chapters are opened by lines that start with ['## ']. *)
Definition parse (text : str) : list section :=
  let lines := splitlines text in
  let st :=
    foldl (λ st line,
      if startswith (py "## ") line
      then {| chapters := flush st;
              cur_title := strip (slice_from line 3);
              cur_lines := [] |}
      else {| chapters := chapters st;
              cur_title := cur_title st;
              cur_lines := cur_lines st ++ [line] |})
      {| chapters := []; cur_title := []; cur_lines := [] |} lines in
  match flush st with
  | [] => [{| title := []; content := strip text |}]
  | chapters => chapters
  end.

(** [open(p).read()] under [except FileNotFoundError: ''] *)
Definition read_or_empty (fs : option node) (p : path) : result (list N) :=
  match read_text fs p with
  | Raise FileNotFoundError => Ok []
  | r => r
  end.

(** [l[i][key] if i < len(l) else ''] *)
Definition field_at (key : section → list N) (l : list section) (i : nat) : str :=
  match l !! i with
  | Some x => key x
  | None => []
  end.

Definition load_old_format (fs : option node) (book_path : path)
    : result (list chapter) :=
  wenyan ← read_or_empty fs (path_join book_path (py "wenyan.txt"));
  zh ← read_or_empty fs (path_join book_path (py "zh.txt"));
  en ← read_or_empty fs (path_join book_path (py "en.txt"));
  let ch_w := parse wenyan in
  let ch_z := parse zh in
  let ch_e := parse en in
  let n :=
    match ch_w, ch_z, ch_e with
    | _ :: _, _ :: _, _ :: _ =>
        length ch_w `min` (length ch_z `min` length ch_e)
    | _, _, _ => length ch_w `max` (length ch_z `max` length ch_e)
    end in
  Ok (foldl (λ chapters i,
        let w := field_at content ch_w i in
        let z := field_at content ch_z i in
        let e := field_at content ch_e i in
        let title :=
          str_or (field_at title ch_w i)
            (str_or (field_at title ch_z i)
               (str_or (field_at title ch_e i)
                  ([31532%N] ++ str_of_nat (i + 1) ++ [31456%N]))) in
        chapters ++ [{| ch_id := i + 1; ch_title := title; ch_wenyan := w;
                        ch_zh := z; ch_en := e; ch_paragraphs := None |}])
      [] (seq 0 n)).

(** *** The three-level layout *)

Definition load_chapters (fs : option node) (cat_path : path)
    : result (list chapter) :=
  files ← listdir fs cat_path;
  let chapter_files := filter (λ f, endswith (py ".txt") f = true) files in
  for_each (λ chapters '(i, filename),
      let file_path := path_join cat_path filename in
      chapter_title ← title_of_filename filename;
      content ← parse_three_parallel_file fs file_path;
      paragraphs ← parsed_paragraphs content;
      Ok (chapters ++ [{| ch_id := i + 1;
                          ch_title := chapter_title;
                          ch_wenyan := p_wenyan content;
                          ch_zh := p_zh content;
                          ch_en := p_en content;
                          ch_paragraphs := Some paragraphs |}]))
    [] (enumerate (sorted chapter_files)).

Definition load_categories (fs : option node) (book_path : path)
    (book_config : book_config) : result (list category) :=
  cat_dirs ← listdir fs book_path;
  for_each (λ categories cat_dir,
      let cat_path := path_join book_path cat_dir in
      if negb (isdir fs cat_path) then Ok categories
      else
        let cat_title := default cat_dir (cfg_categories book_config !! cat_dir) in
        chapters ← load_chapters fs cat_path;
        match chapters with
        | [] => Ok categories
        | _ => Ok (categories ++ [{| cat_id := cat_dir;
                                     cat_title := cat_title;
                                     cat_chapters := chapters |}])
        end)
    [] (sorted cat_dirs).

(** [any(isdir(join(book_path, item)) for item in listdir(book_path)
        if not item.endswith('.txt'))] *)
Definition has_categories (fs : option node) (book_path : path) : result bool :=
  items ← listdir fs book_path;
  Ok (existsb (λ item, isdir fs (path_join book_path item))
        (filter (λ item, endswith (py ".txt") item = false) items)).

Definition load_books_from_raw (fs : option node) : result (list book) :=
  let books := [] in
  if negb (isdir fs RAW_DIR) then Ok books
  else
    book_ids ← listdir fs RAW_DIR;
    for_each (λ books book_id,
        let book_path := path_join RAW_DIR book_id in
        if negb (isdir fs book_path) then Ok books
        else
          new_layout ← has_categories fs book_path;
          if (new_layout : bool) then
            let book_config := config_of book_id in
            let book_title := cfg_name book_config in
            categories ← load_categories fs book_path book_config;
            match categories with
            | [] => Ok books
            | _ => Ok (books ++ [{| book_id := book_id;
                                    book_title := book_title;
                                    book_categories := categories |}])
            end
          else
            chapters ← load_old_format fs book_path;
            Ok (books ++ [{| book_id := book_id;
                             book_title := book_id;
                             book_categories :=
                               [{| cat_id := py "default";
                                   cat_title := [31456; 33410]%N;
                                   cat_chapters := chapters |}] |}]))
      books (sorted book_ids).

End BuildStatic.

(** * batch_import.py *)

(** The word characters of the regular expression class [\w].  Python
    takes them from the Unicode database; the development is parametric in
    them. *)
Class WordChars := { is_word : char → bool }.

(** Letters, digits and the underscore of ASCII. *)
Definition ascii_word (c : char) : bool :=
  ((48 <=? c) && (c <=? 57) || (65 <=? c) && (c <=? 90)
   || (97 <=? c) && (c <=? 122) || (c =? 95))%N.

Definition ascii_words : WordChars := {| is_word := ascii_word |}.

Module BatchImport.

(** The range [\u4e00-\u9fff] of the pattern. *)
Definition cjk (c : char) : bool := ((19968 <=? c) && (c <=? 40959))%N.

(** [re.sub(r'[^\w\u4e00-\u9fff]', '_', text)[:max_length]] *)
Definition safe_filename {words : WordChars} (text : str) (max_length : Z) : str :=
  let safe := (λ c, if is_word c || cjk c then c else 95%N) <$> text in
  slice_to safe max_length.

(** The truth value of an argument that is [None] or a string. *)
Definition truthy (x : option str) : bool :=
  match x with
  | Some (_ :: _) => true
  | _ => false
  end.

(** [[p.strip() for p in (text or "").split('\n\n') if p.strip()]] *)
Definition text_paragraphs (text : option str) : list str :=
  strip <$> filter (λ p, strip p ≠ []) (split blank_line (default [] text)).

(** [l[i] if i < len(l) else ""] *)
Definition item_or_empty (l : list str) (i : nat) : str := default [] (l !! i).

(** [if x: lines.append(x)] on an empty list of lines. *)
Definition present (x : str) : list str :=
  match x with
  | [] => []
  | _ => [x]
  end.

(** The lines of the group of index [i]. *)
Definition lines_at (w_paragraphs z_paragraphs e_paragraphs : list str)
    (i : nat) : list str :=
  let w := item_or_empty w_paragraphs i in
  let z := item_or_empty z_paragraphs i in
  let e := item_or_empty e_paragraphs i in
  present w ++ present z ++ present e.

(** One round of the loop over [range(max_paras)]. *)
Definition add_group (w_paragraphs z_paragraphs e_paragraphs : list str)
    (parallel_groups : list str) (i : nat) : list str :=
  match lines_at w_paragraphs z_paragraphs e_paragraphs i with
  | [] => parallel_groups
  | lines => parallel_groups ++ [join newline lines]
  end.

Definition create_three_parallel_content (wenyan zh en : option str) : str :=
  if negb (truthy wenyan || truthy zh || truthy en) then []
  else
    let w_paragraphs := text_paragraphs wenyan in
    let z_paragraphs := text_paragraphs zh in
    let e_paragraphs := text_paragraphs en in
    let max_paras :=
      length w_paragraphs `max` (length z_paragraphs `max` length e_paragraphs) in
    join blank_line
      (foldl (add_group w_paragraphs z_paragraphs e_paragraphs) []
         (seq 0 max_paras)).

(** The format [{s:0>2}]: [s] right-aligned in two columns, filled with
    ['0']. *)
Definition zero_padded (s : str) : str := replicate (2 - length s) 48%N ++ s.

(** The name [import_from_csv] gives the chapter file of a row. *)
Definition chapter_filename {words : WordChars} (chapter_num title : str) : str :=
  match chapter_num with
  | [] => safe_filename title 50 ++ py ".txt"
  | _ => zero_padded chapter_num ++ py "_" ++ safe_filename title 50 ++ py ".txt"
  end.

End BatchImport.

(** * Definitions for the statements *)

Import App.

(** ** Search *)

Section SearchSpec.
Context {casing : Casing}.

(** The chapters the search loop reaches, in corpus order: the books the
    filter lets through, their categories, their chapters. *)
Definition traversal (BOOKS : list book) (book_filter : option (list N))
    : list (book * category * chapter) :=
  b ← BOOKS;
  if filtered_out book_filter b then []
  else c ← book_categories b; ch ← cat_chapters c; [(b, c, ch)].

(** The chapters for which the loop body runs: none when the trimmed query
    is empty. *)
Definition visited (BOOKS : list book) (query : str)
    (book_filter : option (list N)) : list (book * category * chapter) :=
  match strip (lower query) with
  | [] => []
  | _ => traversal BOOKS book_filter
  end.

(** The result record of a chapter that produced match records. *)
Definition hit (query search_scope : str) (v : book * category * chapter)
    : list search_result :=
  let matches := chapter_matches query search_scope v.2 in
  match matches with
  | [] => []
  | _ => [{| r_book := v.1.1; r_category := v.1.2; r_chapter := v.2;
             r_matches := matches; relevance_score := length matches |}]
  end.

(** The match records of one chapter, by where they come from. *)
Definition context_of (query text : str) : str :=
  let query_lower := strip (lower query) in
  slice text (Z.max 0 (find (lower text) query_lower - 50))
    (Z.min (len text) (find (lower text) query_lower + len query + 50)).

Definition field_records (query : str) (idx : nat) (p : paragraph)
    : list match_record :=
  lt ← [(wenyan, dict_get p "wenyan" []); (baihua, dict_get p "zh" []);
        (english, dict_get p "en" [])];
  if str_in (strip (lower query)) (lower lt.2)
  then [ContentMatch lt.1 (idx + 1) (context_of query lt.2)
          (highlight_text (context_of query lt.2) query) p]
  else [].

Definition title_records (query scope : str) (ch : chapter) : list match_record :=
  if scope_in scope [py "all"; py "title"]
     && str_in (strip (lower query)) (lower (ch_title ch))
  then [TitleMatch (ch_title ch) (highlight_text (ch_title ch) query)]
  else [].

Definition content_records (query scope : str) (ch : chapter)
    : list match_record :=
  if scope_in scope [py "all"; py "content"]
  then ip ← enumerate (default [] (ch_paragraphs ch));
       field_records query ip.1 ip.2
  else [].

End SearchSpec.

(** [descending key]: the order [l.sort(key=key, reverse=True)] leaves. *)
Definition descending {A} (key : A → nat) (x y : A) : Prop := key y ≤ key x.

(** The fields of a paragraph the content search looks at, in its order. *)
Definition field (lang : language) (p : paragraph) : str :=
  match lang with
  | wenyan => dict_get p "wenyan" []
  | baihua => dict_get p "zh" []
  | english => dict_get p "en" []
  end.

(** [m] is the content-match record of field [lang] of paragraph [pid]. *)
Definition record_of (lang : language) (pid : nat) (m : match_record) : Prop :=
  match m with
  | ContentMatch l i _ _ _ => l = lang ∧ i = pid
  | TitleMatch _ _ => False
  end.

#[global] Instance language_eq_dec : EqDecision language.
Proof. solve_decision. Defined.

#[global] Instance record_of_dec lang pid m : Decision (record_of lang pid m).
Proof. destruct m; simpl; apply _. Defined.

(** [needle] occurs in [hay] at index [i], and nowhere before. *)
Definition occurs_at (needle hay : str) (i : nat) : Prop :=
  take (length needle) (drop i hay) = needle.

Definition first_occurrence (needle hay : str) (i : nat) : Prop :=
  occurs_at needle hay i ∧ ∀ j, j < i → ¬ occurs_at needle hay j.

(** ** The parser, in the words of the specification *)

(** The alignment policy for the trimmed non-empty lines of one group. *)
Definition group_paragraph (lines : list (list N)) : list paragraph :=
  match lines with
  | [] => []
  | [l1] => [{[ "wenyan"%string := l1; "zh"%string := []; "en"%string := [] ]}]
  | [l1; l2] => [{[ "wenyan"%string := l1; "zh"%string := l2; "en"%string := [] ]}]
  | l1 :: l2 :: l3 :: _ =>
      [{[ "wenyan"%string := l1; "zh"%string := l2; "en"%string := l3 ]}]
  end.

(** The paragraph groups of a raw file content. *)
Definition paragraph_groups (raw : str) : list (list N) :=
  split blank_line (strip raw).


(** The three full-text strings of a parser result. *)
Definition full_texts (r : parsed) : list N * list N * list N :=
  (p_wenyan r, p_zh r, p_en r).

(** One turn of the parser loop of [app.py], which cannot raise. *)
Definition app_step (st : App.parts) (group : str) : App.parts :=
  match group_lines group with
  | [] => st
  | [l1] => App.add_group st l1 [] []
  | [l1; l2] => App.add_group st l1 l2 []
  | l1 :: l2 :: l3 :: _ => App.add_group st l1 l2 l3
  end.

(** One turn of the parser loop of [build_static.py]. *)
Definition static_step (st : BuildStatic.parts) (group : str) : BuildStatic.parts :=
  match group_lines group with
  | [] => st
  | [l1] => BuildStatic.add_group st l1 [] []
  | [l1; l2] => BuildStatic.add_group st l1 l2 []
  | l1 :: l2 :: l3 :: _ => BuildStatic.add_group st l1 l2 l3
  end.

(** The loop keeps the three lists of parts in step with the paragraphs. *)
Definition aligned (st : App.parts) : Prop :=
  App.wenyan_parts st = field wenyan <$> App.paragraphs st
  ∧ App.zh_parts st = field baihua <$> App.paragraphs st
  ∧ App.en_parts st = field english <$> App.paragraphs st.

(** The two parser loops hold the same parts. *)
Definition same_parts (sa : App.parts) (ss : BuildStatic.parts) : Prop :=
  App.wenyan_parts sa = BuildStatic.wenyan_parts ss
  ∧ App.zh_parts sa = BuildStatic.zh_parts ss
  ∧ App.en_parts sa = BuildStatic.en_parts ss.

(** A chapter of the corpus whose full texts are the joins of its
    paragraphs' fields. *)
Definition chapter_joined (ch : chapter) : Prop :=
  ∃ ps, ch_paragraphs ch = Some ps
    ∧ ch_wenyan ch = join blank_line (field wenyan <$> ps)
    ∧ ch_zh ch = join blank_line (field baihua <$> ps)
    ∧ ch_en ch = join blank_line (field english <$> ps).

(** ** The hierarchy builder *)

(** A category directory that holds at least one chapter file. *)
Definition has_chapter_files (fs : option node) (cat_path : path) : Prop :=
  ∃ files f, listdir fs cat_path = Ok files
             ∧ f ∈ files ∧ endswith (py ".txt") f = true.

(** A category as the corpus may hold it: with chapters, and from a
    directory of [book_path] with chapter files. *)
Definition category_kept (fs : option node) (book_path : path) (c : category)
    : Prop :=
  cat_chapters c ≠ [] ∧ has_chapter_files fs (path_join book_path (cat_id c)).

Definition book_kept (fs : option node) (b : book) : Prop :=
  book_categories b ≠ []
  ∧ Forall (category_kept fs (path_join RAW_DIR (book_id b))) (book_categories b).

(** ** A small corpus

    One known book with one category and two chapter files, a category
    without chapter files and a stray file. *)

Definition demo_fs : option node :=
  Some (Dir true
    [(py "shiji", Dir true
       [(py "benji", Dir true
          [(py "02_Xia.txt",
            File (py "Yu the Great" ++ [NL] ++ py "Yu tamed the flood" ++ [NL]
                  ++ py "Xia annals" ++ [NL; NL]
                  ++ py "Qi" ++ [NL] ++ py "the son of Yu" ++ [NL]));
           (py "01_Five Emperors.txt",
            File (py "Huangdi" ++ [NL] ++ py "the Yellow Emperor" ++ [NL]
                  ++ py "The first of the five emperors" ++ [NL]));
           (py "notes.md", File (py "draft"))]);
        (py "shu", Dir true [])]);
     (py "README", File (py "corpus"))]).

Definition demo_five_emperors : chapter :=
  {| ch_id := 1; ch_title := py "Five Emperors";
     ch_wenyan := py "Huangdi"; ch_zh := py "the Yellow Emperor";
     ch_en := py "The first of the five emperors";
     ch_paragraphs :=
       Some [mk_paragraph (py "Huangdi") (py "the Yellow Emperor")
               (py "The first of the five emperors")] |}.

Definition demo_xia : chapter :=
  {| ch_id := 2; ch_title := py "Xia";
     ch_wenyan := py "Yu the Great" ++ blank_line ++ py "Qi";
     ch_zh := py "Yu tamed the flood" ++ blank_line ++ py "the son of Yu";
     ch_en := py "Xia annals" ++ blank_line;
     ch_paragraphs :=
       Some [mk_paragraph (py "Yu the Great") (py "Yu tamed the flood")
               (py "Xia annals");
             mk_paragraph (py "Qi") (py "the son of Yu") []] |}.

Definition demo_benji : category :=
  {| cat_id := py "benji"; cat_title := [26412; 32426]%N;
     cat_chapters := [demo_five_emperors; demo_xia] |}.

Definition demo_shiji : book :=
  {| book_id := py "shiji"; book_title := [21490; 35760]%N;
     book_categories := [demo_benji] |}.

Definition demo_books : list book := [demo_shiji].

(** The path of the second chapter file of the demo tree, and its text. *)
Definition demo_xia_path : path := [py "shiji"; py "benji"; py "02_Xia.txt"].

(** Trees on which a scan raises: a root that cannot be listed, and a
    directory named like a chapter file. *)
Definition locked_root : option node := Some (Dir false []).

Definition txt_directory : option node :=
  Some (Dir true
    [(py "shiji", Dir true
       [(py "benji", Dir true [(py "01_Xia.txt", Dir true [])])])]).

(** A field with more than 50 characters after its first ['yu']. *)
Definition long_field : str := py "yu" ++ replicate 60 120%N.

Definition long_chapter : chapter :=
  {| ch_id := 1; ch_title := py "Long"; ch_wenyan := long_field;
     ch_zh := []; ch_en := [];
     ch_paragraphs := Some [mk_paragraph long_field [] []] |}.

(** ** Match records and their chapter *)

(** [chapter.get('paragraphs', [])] *)
Definition paragraphs_of (ch : chapter) : list paragraph :=
  default [] (ch_paragraphs ch).

Section MatchSpec.
Context {casing : Casing}.

(** What a match record says about the chapter it was found in. *)
Definition match_sound (query : str) (ch : chapter) (m : match_record) : Prop :=
  match m with
  | TitleMatch content highlight =>
      content = ch_title ch ∧ highlight = highlight_text content query
  | ContentMatch lang pid content highlight p =>
      1 ≤ pid ∧ paragraphs_of ch !! (pid - 1) = Some p
      ∧ (∃ before after, field lang p = before ++ content ++ after)
      ∧ length content ≤ length query + 100
      ∧ highlight = highlight_text content query
  end.

End MatchSpec.

(** ** Statistics, as sums *)

Definition chapters_in (b : book) : nat :=
  sum_list_with (λ c, length (cat_chapters c)) (book_categories b).

Definition paragraphs_in (b : book) : nat :=
  sum_list_with
    (λ c, sum_list_with (λ ch, length (paragraphs_of ch)) (cat_chapters c))
    (book_categories b).

Definition detail_of (b : book) : book_stats :=
  {| bs_id := book_id b; bs_title := book_title b;
     bs_categories := length (book_categories b);
     bs_chapters := chapters_in b; bs_paragraphs := paragraphs_in b |}.

(** The result list [/api/search] cuts its answer from. *)
Definition api_full_results {casing : Casing} (BOOKS : list book)
    (q scope book : option (list N)) : list search_result :=
  match strip (default [] q) with
  | [] => []
  | query => search_in_books BOOKS query (default (py "all") scope) book
  end.

(** ** Where the chapters of the corpus come from *)

(** The chapter built from the file [filename] of the directory [cat_path]. *)
Definition chapter_from (fs : option node) (cat_path : path) (ch : chapter)
    (filename : str) : Prop :=
  title_of_filename filename = Ok (ch_title ch)
  ∧ ∃ content,
      App.parse_three_parallel_file fs (path_join cat_path filename) = Ok content
      ∧ ch_wenyan ch = p_wenyan content ∧ ch_zh ch = p_zh content
      ∧ ch_en ch = p_en content ∧ ch_paragraphs ch = p_paragraphs content.

(** The chapter files of a listing, in the order the scan takes them. *)
Definition chapter_files (files : list (list N)) : list (list N) :=
  sorted (filter (λ f, endswith (py ".txt") f = true) files).

(** The chapters of category [c] of book [b] mirror the chapter files of
    its directory: as many, in that order, numbered from 1. *)
Definition category_mirrors_files (fs : option node) (b : book) (c : category)
    : Prop :=
  ∃ files,
    listdir fs (path_join (path_join RAW_DIR (book_id b)) (cat_id c)) = Ok files
    ∧ Forall2 (chapter_from fs (path_join (path_join RAW_DIR (book_id b)) (cat_id c)))
        (cat_chapters c) (chapter_files files)
    ∧ ch_id <$> cat_chapters c = seq 1 (length (chapter_files files)).

(** Code-point order on strings, as a relation. *)
Definition str_le (a b : str) : Prop := str_leb a b = true.

(** A category of the corpus, as the scan of [book_path] builds it. *)
Definition category_loaded (fs : option node) (book_path : path)
    (cfg : book_config) (c : category) : Prop :=
  isdir fs (path_join book_path (cat_id c)) = true
  ∧ cat_title c = default (cat_id c) (cfg_categories cfg !! cat_id c)
  ∧ App.load_chapters fs (path_join book_path (cat_id c)) = Ok (cat_chapters c).

(** A book of the corpus, as the scan of the root builds it. *)
Definition book_loaded (fs : option node) (b : book) : Prop :=
  isdir fs (path_join RAW_DIR (book_id b)) = true
  ∧ book_title b = cfg_name (config_of (book_id b))
  ∧ ∃ cat_dirs,
      listdir fs (path_join RAW_DIR (book_id b)) = Ok cat_dirs
      ∧ (cat_id <$> book_categories b) `sublist_of` sorted cat_dirs
      ∧ Forall (category_loaded fs (path_join RAW_DIR (book_id b))
                  (config_of (book_id b))) (book_categories b).

(** ** The chapter page *)

(** The chapter as the page shows it. *)
Definition display (ch : chapter) : chapter_display :=
  {| d_id := ch_id ch; d_title := ch_title ch; d_wenyan := ch_wenyan ch;
     d_z := ch_zh ch; d_en := ch_en ch;
     d_paragraphs := default [] (ch_paragraphs ch) |}.

(** The link to the chapter at position [i] of a category, if there is one. *)
Definition link_to (bid cid : str) (chapters : list chapter) (i : nat)
    : option (list N) :=
  (λ ch, chapter_url bid cid (ch_id ch)) <$> chapters !! i.

(** The page of the chapter at position [idx] of category [c]. *)
Definition page_view (b : book) (c : category) (ch : chapter)
    (bid cid : str) (idx : nat) : chapter_view :=
  {| v_book := b; v_category := c; v_chapter := display ch;
     prev_url := if 0 <? idx then link_to bid cid (cat_chapters c) (idx - 1)
                 else None;
     next_url := if idx <? length (cat_chapters c) - 1
                 then link_to bid cid (cat_chapters c) (idx + 1) else None |}.

(** The chapters with the ids asked for. *)
Definition chapter_at (BOOKS : list book) (bid cid : str) (k : nat)
    (b : book) (c : category) (ch : chapter) : Prop :=
  b ∈ BOOKS ∧ book_id b = bid ∧ c ∈ book_categories b ∧ cat_id c = cid
  ∧ ch ∈ cat_chapters c ∧ ch_id ch = k.

(** ** Trees the scan gets through *)



(** What [strip] leaves is empty or begins and ends with a character that
    is not white space. *)
Definition trimmed (s : list N) : Prop :=
  match s with
  | [] => True
  | c :: _ => is_space c = false
  end
  ∧ match reverse s with
    | [] => True
    | c :: _ => is_space c = false
    end.

(** Every newline of [s] is followed by a character that is not a
    newline: [s] holds no blank line and does not end in a newline. *)
Fixpoint no_blank_line (s : list N) : bool :=
  match s with
  | [] => true
  | c :: s' =>
    (if (c =? NL)%N
     then match s' with [] => false | d :: _ => negb (d =? NL)%N end
     else true)
    && no_blank_line s'
  end.

(** What the parser makes of a field: trimmed, on one line. *)
Definition one_line (s : list N) : Prop := strip s = s ∧ NL ∉ s.

(** A paragraph as the parser builds it. *)
Definition paragraph_shaped (p : paragraph) : Prop :=
  field wenyan p ≠ []
  ∧ (field english p ≠ [] → field baihua p ≠ [])
  ∧ one_line (field wenyan p) ∧ one_line (field baihua p)
  ∧ one_line (field english p).

(** The paragraph the import lays out at index [i]: a text that has run
    out of paragraphs gives the empty string. *)
Definition imported_paragraph (ws zs es : list (list N)) (i : nat) : paragraph :=
  mk_paragraph (BatchImport.item_or_empty ws i) (BatchImport.item_or_empty zs i)
    (BatchImport.item_or_empty es i).

(** A row to import: two original paragraphs, one translation, no English. *)
Definition demo_row_wenyan : option (list N) :=
  Some (py "Yu the Great" ++ blank_line ++ py "Qi").
Definition demo_row_zh : option (list N) := Some (py "Yu tamed the flood").
Definition demo_row_en : option (list N) := None.

(** A tree whose one chapter file holds the import of that row. *)
Definition imported_fs : option node :=
  Some (Dir true
    [(py "shiji", Dir true
       [(py "benji", Dir true
          [(py "02_Xia.txt",
            File (BatchImport.create_three_parallel_content
                    demo_row_wenyan demo_row_zh demo_row_en))])])]).

(** One round of the loop of [parse] in the old-layout loader. *)
Definition parse_step (st : BuildStatic.cursor) (line : list N)
    : BuildStatic.cursor :=
  if startswith (py "## ") line
  then {| BuildStatic.chapters := BuildStatic.flush st;
          BuildStatic.cur_title := strip (slice_from line 3);
          BuildStatic.cur_lines := [] |}
  else {| BuildStatic.chapters := BuildStatic.chapters st;
          BuildStatic.cur_title := BuildStatic.cur_title st;
          BuildStatic.cur_lines := BuildStatic.cur_lines st ++ [line] |}.

(** The lines of a text that open a section. *)
Definition marker_lines (text : list N) : list (list N) :=
  filter (λ line, startswith (py "## ") line = true) (splitlines text).

(** A book in the old layout: two sections of original text, one of
    translation, no English file. *)
Definition old_format_fs : option node :=
  Some (Dir true
    [(py "shiji", Dir true
       [(py "wenyan.txt",
         File (py "## Xia" ++ [NL] ++ py "Yu the Great" ++ [NL]
               ++ py "## Yin" ++ [NL] ++ py "Tang"));
        (py "zh.txt",
         File (py "## Xia" ++ [NL] ++ py "Yu tamed the flood"))])]).

Definition old_format_chapter : chapter :=
  {| ch_id := 1; ch_title := py "Xia"; ch_wenyan := py "Yu the Great";
     ch_zh := py "Yu tamed the flood"; ch_en := []; ch_paragraphs := None |}.

Definition old_format_books : list book :=
  [{| book_id := py "shiji"; book_title := py "shiji";
      book_categories :=
        [{| cat_id := py "default"; cat_title := [31456; 33410]%N;
            cat_chapters := [old_format_chapter] |}] |}].


(** * Properties *)

(** ** The string operations on small inputs *)

Example split_blank_lines :
  split blank_line (py "a" ++ [NL; NL; NL] ++ py "b") = [py "a"; NL :: py "b"].
Proof. vm_compute. reflexivity. Qed.

Example split_four_newlines :
  split blank_line (py "a" ++ [NL; NL; NL; NL] ++ py "b") = [py "a"; []; py "b"].
Proof. vm_compute. reflexivity. Qed.

Example split_empty : split blank_line [] = [[]].
Proof. reflexivity. Qed.

Example split_max_title : split_max (py "_") 1 (py "01_a_b") = [py "01"; py "a_b"].
Proof. vm_compute. reflexivity. Qed.

Example slice_negative : slice_to (py "01_a.txt") (-4) = py "01_a".
Proof. vm_compute. reflexivity. Qed.

Example strip_ideographic_space :
  strip ([12288; 32]%N ++ py "a b" ++ [9; 10]%N) = py "a b".
Proof. vm_compute. reflexivity. Qed.

Example splitlines_keeps_inner_blank :
  splitlines (py "a" ++ [13; 10; 10]%N ++ py "b" ++ [NL]) = [py "a"; []; py "b"].
Proof. vm_compute. reflexivity. Qed.

Example highlight_ignores_case :
  highlight_text (casing := ascii_casing) (py "abcaBcb") (py "bc")
  = py "a<mark>bc</mark>a<mark>Bc</mark>b".
Proof. vm_compute. reflexivity. Qed.

Example highlight_leftmost_first :
  highlight_text (casing := ascii_casing) (py "aaa") (py "aa")
  = py "<mark>aa</mark>a".
Proof. vm_compute. reflexivity. Qed.

Example title_without_prefix :
  title_of_filename (py "01_Five Emperors.txt") = Ok (py "Five Emperors")
  ∧ title_of_filename (py "Xia.txt") = Ok (py "Xia").
Proof. split; vm_compute; reflexivity. Qed.

Example sorted_by_code_point :
  sorted [py "b"; py "a10"; py "a2"; py "B"] = [py "B"; py "a10"; py "a2"; py "b"].
Proof. vm_compute. reflexivity. Qed.

Example old_format_sections :
  BuildStatic.parse (py "intro" ++ [NL] ++ py "## One" ++ [NL] ++ py "text" ++ [NL])
  = [{| BuildStatic.title := []; BuildStatic.content := py "intro" |};
     {| BuildStatic.title := py "One"; BuildStatic.content := py "text" |}].
Proof. vm_compute. reflexivity. Qed.

(** ** Loops that append *)

Lemma foldl_append {A B} (body : list B → A → list B) (g : A → list B) :
  (∀ acc x, body acc x = acc ++ g x) →
  ∀ l acc, foldl body acc l = acc ++ (l ≫= g).
Proof.
  intros Hbody l. induction l as [|x l IH]; intros acc; simpl.
  - by rewrite app_nil_r.
  - rewrite Hbody, IH. by rewrite <-app_assoc.
Qed.

(** ** The stable sort *)

Section Sort.
Context {A : Type} (key : A → nat).

Lemma insert_by_perm (before : A → A → bool) x l :
  insert_by before x l ≡ₚ x :: l.
Proof.
  induction l as [|y l IH]; simpl; [done|].
  destruct (before x y); [done|]. rewrite IH. apply Permutation_swap.
Qed.

Lemma sort_by_perm (before : A → A → bool) l : sort_by before l ≡ₚ l.
Proof.
  induction l as [|x l IH]; simpl; [done|].
  unfold sort_by in *. simpl. rewrite insert_by_perm. by rewrite IH.
Qed.

Lemma insert_reverse_sorted x l :
  StronglySorted (descending key) l →
  StronglySorted (descending key) (insert_by (λ x y, key y <=? key x) x l).
Proof.
  induction 1 as [|y l Hs IH Hy]; simpl.
  - repeat constructor.
  - destruct (Nat.leb_spec (key y) (key x)) as [Hle|Hlt].
    + constructor; [by constructor|].
      constructor; [done|].
      eapply Forall_impl; [exact Hy|]. unfold descending. simpl. lia.
    + constructor; [done|].
      rewrite insert_by_perm. constructor; [unfold descending; lia|done].
Qed.

Lemma sort_reverse_sorted l : StronglySorted (descending key) (sort_reverse key l).
Proof.
  induction l as [|x l IH]; [constructor|].
  apply insert_reverse_sorted, IH.
Qed.

Lemma insert_reverse_stable s x l :
  filter (λ r, key r = s) (insert_by (λ x y, key y <=? key x) x l)
  = filter (λ r, key r = s) (x :: l).
Proof.
  induction l as [|y l IH]; simpl; [done|].
  destruct (Nat.leb_spec (key y) (key x)) as [Hle|Hlt]; [done|].
  rewrite filter_cons, IH, !filter_cons.
  repeat case_decide; try done; lia.
Qed.

Lemma sort_reverse_stable s l :
  filter (λ r, key r = s) (sort_reverse key l) = filter (λ r, key r = s) l.
Proof.
  induction l as [|x l IH]; [done|].
  unfold sort_reverse, sort_by in *. simpl.
  rewrite insert_reverse_stable, !filter_cons, IH. done.
Qed.

End Sort.

(** ** The search loop *)

Lemma list_bind_assoc {A B C} (f : A → list B) (g : B → list C) (l : list A) :
  (l ≫= f) ≫= g = l ≫= (λ x, f x ≫= g).
Proof.
  induction l as [|x l IH]; [done|].
  by rewrite !bind_cons, bind_app, IH.
Qed.

Section SearchProps.
Context {casing : Casing}.

Lemma search_walk_spec BOOKS query scope book_filter :
  search_walk BOOKS query scope book_filter
  = traversal BOOKS book_filter ≫= hit query scope.
Proof.
  unfold search_walk, traversal.
  rewrite (foldl_append _ (λ b,
    if filtered_out book_filter b then []
    else c ← book_categories b; ch ← cat_chapters c; hit query scope (b, c, ch))).
  - simpl. rewrite list_bind_assoc. apply list_bind_ext; [|done].
    intros b. destruct (filtered_out book_filter b); [done|].
    rewrite list_bind_assoc. apply list_bind_ext; [|done].
    intros c. rewrite list_bind_assoc. apply list_bind_ext; [|done].
    intros ch. by rewrite bind_singleton.
  - intros acc b. destruct (filtered_out book_filter b); [by rewrite app_nil_r|].
    apply (foldl_append _ (λ c, ch ← cat_chapters c; hit query scope (b, c, ch))).
    intros acc' c.
    apply (foldl_append _ (λ ch, hit query scope (b, c, ch))).
    intros acc'' ch. unfold hit. simpl.
    destruct (chapter_matches query scope ch); [by rewrite app_nil_r|done].
Qed.

Lemma search_in_books_spec BOOKS query scope book_filter :
  search_in_books BOOKS query scope book_filter
  = sort_reverse relevance_score
      (visited BOOKS query book_filter ≫= hit query scope).
Proof.
  unfold search_in_books, visited.
  destruct (strip (lower query)); [done|].
  by rewrite search_walk_spec.
Qed.

Lemma elem_of_traversal BOOKS book_filter b c ch :
  (b, c, ch) ∈ traversal BOOKS book_filter ↔
  b ∈ BOOKS ∧ filtered_out book_filter b = false
  ∧ c ∈ book_categories b ∧ ch ∈ cat_chapters c.
Proof.
  unfold traversal. rewrite list_elem_of_bind. split.
  - intros (b' & Hin & Hb). destruct (filtered_out book_filter b') eqn:Hf.
    { by apply not_elem_of_nil in Hin. }
    apply list_elem_of_bind in Hin as (c' & Hin & Hc).
    apply list_elem_of_bind in Hin as (ch' & Hin & Hch).
    apply list_elem_of_singleton in Hin. by simplify_eq.
  - intros (Hb & Hf & Hc & Hch). exists b. split; [|done]. rewrite Hf.
    apply list_elem_of_bind. exists c. split; [|done].
    apply list_elem_of_bind. exists ch. split; [|done].
    by apply list_elem_of_singleton.
Qed.

Lemma elem_of_hit query scope v r :
  r ∈ hit query scope v ↔
  chapter_matches query scope v.2 ≠ []
  ∧ r = {| r_book := v.1.1; r_category := v.1.2; r_chapter := v.2;
           r_matches := chapter_matches query scope v.2;
           relevance_score := length (chapter_matches query scope v.2) |}.
Proof.
  unfold hit. destruct (chapter_matches query scope v.2) eqn:Hm.
  - split; [intros Hr; by apply not_elem_of_nil in Hr|by intros [? _]].
  - rewrite list_elem_of_singleton. split; [by intros ->|by intros [_ ->]].
Qed.

Lemma result_iff_matches_elem BOOKS query scope book_filter r :
  r ∈ search_in_books BOOKS query scope book_filter ↔
  ∃ b c ch,
    strip (lower query) ≠ [] ∧ b ∈ BOOKS
    ∧ filtered_out book_filter b = false
    ∧ c ∈ book_categories b ∧ ch ∈ cat_chapters c
    ∧ chapter_matches query scope ch ≠ []
    ∧ r = {| r_book := b; r_category := c; r_chapter := ch;
             r_matches := chapter_matches query scope ch;
             relevance_score := length (chapter_matches query scope ch) |}.
Proof.
  rewrite search_in_books_spec.
  unfold sort_reverse. rewrite sort_by_perm, list_elem_of_bind.
  unfold visited. split.
  - intros ([[b c] ch] & Hr & Hv). apply elem_of_hit in Hr as [Hm ->].
    destruct (strip (lower query)) eqn:Hq; [by apply not_elem_of_nil in Hv|].
    apply elem_of_traversal in Hv as (? & ? & ? & ?).
    exists b, c, ch. by repeat split.
  - intros (b & c & ch & Hq & Hb & Hf & Hc & Hch & Hm & ->).
    exists (b, c, ch). split; [by apply elem_of_hit|].
    destruct (strip (lower query)); [done|]. by apply elem_of_traversal.
Qed.

End SearchProps.

(** The loader builds [demo_books] from [demo_fs]. *)
Example demo_books_loaded : App.load_books_from_raw demo_fs = Ok demo_books.
Proof. vm_compute. reflexivity. Qed.

(** ** Results and match records *)

(** C5. A result record is in the list exactly when it is the record of a
    chapter the loop reached (non-empty trimmed query, book let through by
    the filter) whose match list is not empty; that record carries the match
    list and, as its relevance score, the number of records in it.  The
    result list holds these records and nothing else, each as often as the
    chapter is reached. *)
Theorem result_iff_matches {casing : Casing} (BOOKS : list book)
    (query scope : list N) (book_filter : option (list N)) :
  search_in_books BOOKS query scope book_filter
    ≡ₚ visited BOOKS query book_filter ≫= hit query scope
  ∧ ∀ r, r ∈ search_in_books BOOKS query scope book_filter ↔
      ∃ b c ch,
        strip (lower query) ≠ [] ∧ b ∈ BOOKS
        ∧ filtered_out book_filter b = false
        ∧ c ∈ book_categories b ∧ ch ∈ cat_chapters c
        ∧ chapter_matches query scope ch ≠ []
        ∧ r = {| r_book := b; r_category := c; r_chapter := ch;
                 r_matches := chapter_matches query scope ch;
                 relevance_score := length (chapter_matches query scope ch) |}.
Proof.
  split.
  - rewrite search_in_books_spec. apply sort_by_perm.
  - intros r. apply result_iff_matches_elem.
Qed.

(** C4. The result list is in descending order of relevance score, and the
    results of any one score stand in the order in which the corpus walk
    (books, then categories, then chapters) produced them. *)
Theorem results_ranked_stably {casing : Casing} (BOOKS : list book)
    (query scope : list N) (book_filter : option (list N)) :
  StronglySorted (descending relevance_score)
    (search_in_books BOOKS query scope book_filter)
  ∧ ∀ score,
      filter (λ r, relevance_score r = score)
        (search_in_books BOOKS query scope book_filter)
      = filter (λ r, relevance_score r = score)
          (visited BOOKS query book_filter ≫= hit query scope).
Proof.
  rewrite search_in_books_spec. split.
  - apply sort_reverse_sorted.
  - intros score. apply sort_reverse_stable.
Qed.

(** C10. With a scope other than ['all'], ['title'] and ['content'] the
    search returns the empty list, whatever the corpus, query and filter. *)
Theorem unknown_scope_finds_nothing {casing : Casing} (BOOKS : list book)
    (query scope : list N) (book_filter : option (list N)) :
  scope ≠ py "all" → scope ≠ py "title" → scope ≠ py "content" →
  search_in_books BOOKS query scope book_filter = [].
Proof.
  intros Hall Htitle Hcontent. rewrite search_in_books_spec.
  assert (Hnone : ∀ v, hit query scope v = []).
  { intros v. unfold hit, chapter_matches, scope_in, str_eqb. simpl.
    rewrite !bool_decide_eq_false_2 by done. done. }
  rewrite (list_bind_ext _ (λ _, [])) with (l2 := visited BOOKS query book_filter)
    by done.
  by induction (visited BOOKS query book_filter).
Qed.

Lemma unknown_scope_witness :
  (py "body" ≠ py "all" ∧ py "body" ≠ py "title" ∧ py "body" ≠ py "content")
  ∧ search_in_books (casing := ascii_casing) demo_books (py "yu") (py "body") None = [].
Proof.
  assert (H1 : py "body" ≠ py "all") by (vm_compute; discriminate).
  assert (H2 : py "body" ≠ py "title") by (vm_compute; discriminate).
  assert (H3 : py "body" ≠ py "content") by (vm_compute; discriminate).
  split; [done|].
  exact (unknown_scope_finds_nothing demo_books (py "yu") (py "body") None H1 H2 H3).
Defined.

(** ** The book filter *)

Lemma traversal_no_book (BOOKS : list book) (f : list N) :
  f ≠ [] → (∀ b, b ∈ BOOKS → book_id b ≠ f) → traversal BOOKS (Some f) = [].
Proof.
  intros Hf Hno. unfold traversal.
  induction BOOKS as [|b BOOKS IH]; [done|].
  rewrite bind_cons, IH by (intros b' Hb'; apply Hno; by right).
  assert (Hout : filtered_out (Some f) b = true).
  { unfold filtered_out, str_eqb. destruct f; [done|].
    rewrite bool_decide_eq_false_2; [done|]. apply Hno. by left. }
  by rewrite Hout.
Qed.

(** C6, as the code has it.  A non-empty filter keeps the results to books
    with that id, and when no book has that id the result is empty.  The
    empty string as filter is no filter. *)
Theorem book_filter_selects {casing : Casing} (BOOKS : list book)
    (query scope f : list N) :
  f ≠ [] →
  (∀ r, r ∈ search_in_books BOOKS query scope (Some f) → book_id (r_book r) = f)
  ∧ ((∀ b, b ∈ BOOKS → book_id b ≠ f) →
     search_in_books BOOKS query scope (Some f) = [])
  ∧ search_in_books BOOKS query scope (Some [])
    = search_in_books BOOKS query scope None.
Proof.
  intros Hf. split_and!.
  - intros r Hr.
    apply (result_iff_matches_elem BOOKS query scope (Some f)) in Hr
      as (b & c & ch & _ & _ & Hout & _ & _ & _ & ->).
    simpl. unfold filtered_out, str_eqb in Hout. destruct f; [done|].
    apply negb_false_iff, bool_decide_eq_true in Hout. done.
  - intros Hno. rewrite search_in_books_spec. unfold visited.
    rewrite traversal_no_book by done. by destruct (strip (lower query)).
  - done.
Qed.

Lemma book_filter_witness :
  py "hanshu" ≠ []
  ∧ (∀ r, r ∈ search_in_books (casing := ascii_casing) demo_books (py "yu")
            (py "all") (Some (py "hanshu")) →
          book_id (r_book r) = py "hanshu")
  ∧ ((∀ b, b ∈ demo_books → book_id b ≠ py "hanshu") →
     search_in_books (casing := ascii_casing) demo_books (py "yu") (py "all")
       (Some (py "hanshu")) = [])
  ∧ search_in_books (casing := ascii_casing) demo_books (py "yu") (py "all")
      (Some [])
    = search_in_books (casing := ascii_casing) demo_books (py "yu") (py "all")
        None.
Proof.
  assert (Hf : py "hanshu" ≠ []) by (vm_compute; discriminate).
  split; [exact Hf|].
  exact (book_filter_selects demo_books (py "yu") (py "all") (py "hanshu") Hf).
Defined.

(** C6 as stated fails for the empty string as filter: no book of the demo
    corpus has the id [''], and the search still returns a chapter. *)
Lemma empty_filter_searches_every_book :
  Forall (λ b, book_id b ≠ []) demo_books
  ∧ r_chapter <$> search_in_books (casing := ascii_casing) demo_books (py "yu")
                    (py "all") (Some []) = [demo_xia].
Proof.
  split.
  - repeat constructor. vm_compute. discriminate.
  - vm_compute. reflexivity.
Qed.

(** ** Substrings and slices *)

Lemma startswith_take (p s : list N) :
  startswith p s = true ↔ take (length p) s = p.
Proof.
  revert s. induction p as [|c p IH]; intros [|d s]; simpl; try done.
  rewrite andb_true_iff, N.eqb_eq, IH. split.
  - by intros [-> ->].
  - intros [= -> Hp]. by rewrite Hp.
Qed.

Lemma str_in_find (needle hay : list N) (k : Z) :
  str_in needle hay = true →
  ∃ i : nat, find_from needle hay k = (k + Z.of_nat i)%Z
             ∧ first_occurrence needle hay i.
Proof.
  revert k. induction hay as [|c hay IH]; intros k; simpl.
  - rewrite orb_false_r. intros Hp. rewrite Hp. exists 0. split; [lia|].
    split; [by apply startswith_take|lia].
  - destruct (startswith needle (c :: hay)) eqn:Hp.
    + intros _. exists 0. split; [lia|]. split; [by apply startswith_take|lia].
    + simpl. intros Hin. destruct (IH (k + 1)%Z Hin) as (i & Hi & Hocc & Hfirst).
      exists (S i). split; [lia|]. split; [done|].
      intros [|j] Hj.
      * unfold occurs_at. simpl. rewrite <-startswith_take. by rewrite Hp.
      * apply (Hfirst j). lia.
Qed.


(** ** Match records of a chapter *)

Section MatchRecords.
Context {casing : Casing}.

Lemma chapter_matches_spec query scope ch :
  chapter_matches query scope ch
  = title_records query scope ch ++ content_records query scope ch.
Proof.
  unfold chapter_matches, title_records, content_records.
  set (title_part := if scope_in scope [py "all"; py "title"] then _ else _).
  assert (Htitle : title_part =
    if scope_in scope [py "all"; py "title"]
       && str_in (strip (lower query)) (lower (ch_title ch))
    then [TitleMatch (ch_title ch) (highlight_text (ch_title ch) query)]
    else []).
  { unfold title_part. destruct (scope_in scope [py "all"; py "title"]); [|done].
    by destruct (str_in _ _). }
  rewrite <-Htitle. clearbody title_part.
  destruct (scope_in scope [py "all"; py "content"]); [|by rewrite app_nil_r].
  apply (foldl_append _ (λ ip, field_records query ip.1 ip.2)).
  intros acc [idx p]. unfold field_records, context_of. simpl.
  repeat destruct (str_in _ _); simpl; rewrite <-?app_assoc, ?app_nil_r; done.
Qed.




End MatchRecords.




(** With white space around the query the context runs [len(query)] past
    the occurrence of the trimmed query: 51 characters follow ['yu'] here,
    and 50 for the query without the space. *)
Example padded_query_window :
  chapter_matches (casing := ascii_casing) (py "yu ") (py "content") long_chapter
  = [ContentMatch wenyan 1 (py "yu" ++ replicate 51 120%N)
       (py "yu" ++ replicate 51 120%N) (mk_paragraph long_field [] [])]
  ∧ chapter_matches (casing := ascii_casing) (py "yu") (py "content") long_chapter
    = [ContentMatch wenyan 1 (py "yu" ++ replicate 50 120%N)
         (py "<mark>yu</mark>" ++ replicate 50 120%N)
         (mk_paragraph long_field [] [])].
Proof. split; vm_compute; reflexivity. Qed.

(** ** The parser *)

Lemma for_each_pure {A S} (body : S → A → result S) (f : S → A → S) :
  (∀ s x, body s x = Ok (f s x)) →
  ∀ l s, for_each body s l = Ok (foldl f s l).
Proof.
  intros Hbody l. induction l as [|x l IH]; intros s; simpl; [done|].
  rewrite Hbody. simpl. apply IH.
Qed.

Lemma mk_paragraph_fields (w z e : list N) :
  field wenyan (mk_paragraph w z e) = w
  ∧ field baihua (mk_paragraph w z e) = z
  ∧ field english (mk_paragraph w z e) = e.
Proof.
  split_and!; reflexivity.
Qed.



Lemma app_paragraphs_foldl groups : ∀ st,
  App.paragraphs (foldl app_step st groups)
  = App.paragraphs st ++ (groups ≫= λ g, group_paragraph (group_lines g)).
Proof.
  induction groups as [|g groups IH]; intros st; cbn [foldl].
  - by rewrite app_nil_r.
  - rewrite IH, bind_cons, app_assoc. f_equal.
    unfold app_step. destruct (group_lines g) as [|l1 [|l2 [|l3 rest]]]; simpl;
      by rewrite ?app_nil_r.
Qed.

Lemma add_group_aligned st w z e :
  aligned st → aligned (App.add_group st w z e).
Proof.
  intros (Hw & Hz & He). unfold aligned, App.add_group.
  cbn [App.wenyan_parts App.zh_parts App.en_parts App.paragraphs].
  rewrite !fmap_app, Hw, Hz, He. split_and!; reflexivity.
Qed.

Lemma app_step_aligned groups : ∀ st,
  aligned st → aligned (foldl app_step st groups).
Proof.
  induction groups as [|g groups IH]; intros st Hst; simpl; [done|].
  apply IH. unfold app_step.
  destruct (group_lines g) as [|l1 [|l2 [|l3 rest]]]; try done;
    by apply add_group_aligned.
Qed.

Lemma app_body_pure (st : App.parts) (group : list N) :
  (let lines := group_lines group in
   if 3 <=? length lines then
     wenyan ← getitem lines 0; zh ← getitem lines 1; en ← getitem lines 2;
     Ok (App.add_group st wenyan zh en)
   else if length lines =? 2 then
     wenyan ← getitem lines 0; zh ← getitem lines 1;
     Ok (App.add_group st wenyan zh [])
   else if length lines =? 1 then
     wenyan ← getitem lines 0; Ok (App.add_group st wenyan [] [])
   else Ok st)
  = Ok (app_step st group).
Proof.
  unfold app_step. by destruct (group_lines group) as [|l1 [|l2 [|l3 rest]]].
Qed.

Lemma static_body_pure (st : BuildStatic.parts) (group : list N) :
  (let lines := group_lines group in
   if 3 <=? length lines then
     wenyan ← getitem lines 0; zh ← getitem lines 1; en ← getitem lines 2;
     Ok (BuildStatic.add_group st wenyan zh en)
   else if length lines =? 2 then
     wenyan ← getitem lines 0; zh ← getitem lines 1;
     Ok (BuildStatic.add_group st wenyan zh [])
   else if length lines =? 1 then
     wenyan ← getitem lines 0; Ok (BuildStatic.add_group st wenyan [] [])
   else Ok st)
  = Ok (static_step st group).
Proof.
  unfold static_step. by destruct (group_lines group) as [|l1 [|l2 [|l3 rest]]].
Qed.

(** What [app.py]'s parser returns for a file that can be read. *)
Lemma app_parse_read fs file_path raw :
  read_text fs file_path = Ok raw →
  App.parse_three_parallel_file fs file_path
  = let st := foldl app_step
                {| App.wenyan_parts := []; App.zh_parts := [];
                   App.en_parts := []; App.paragraphs := [] |}
                (paragraph_groups raw) in
    Ok {| p_wenyan := join blank_line (App.wenyan_parts st);
          p_zh := join blank_line (App.zh_parts st);
          p_en := join blank_line (App.en_parts st);
          p_paragraphs := Some (App.paragraphs st) |}.
Proof.
  intros Hread. unfold App.parse_three_parallel_file, paragraph_groups.
  rewrite Hread. destruct (strip raw) as [|c content] eqn:Hcontent; [done|].
  rewrite (for_each_pure _ app_step) by (intros; apply app_body_pure).
  done.
Qed.

Lemma static_parse_read fs file_path raw :
  read_text fs file_path = Ok raw →
  BuildStatic.parse_three_parallel_file fs file_path
  = let st := foldl static_step
                {| BuildStatic.wenyan_parts := []; BuildStatic.zh_parts := [];
                   BuildStatic.en_parts := [] |}
                (paragraph_groups raw) in
    Ok {| p_wenyan := join blank_line (BuildStatic.wenyan_parts st);
          p_zh := join blank_line (BuildStatic.zh_parts st);
          p_en := join blank_line (BuildStatic.en_parts st);
          p_paragraphs := None |}.
Proof.
  intros Hread. unfold BuildStatic.parse_three_parallel_file, paragraph_groups.
  rewrite Hread. destruct (strip raw) as [|c content] eqn:Hcontent; [done|].
  rewrite (for_each_pure _ static_step) by (intros; apply static_body_pure).
  done.
Qed.

Lemma steps_agree groups : ∀ sa ss,
  same_parts sa ss →
  same_parts (foldl app_step sa groups) (foldl static_step ss groups).
Proof.
  induction groups as [|g groups IH]; intros sa ss Hsame; simpl; [done|].
  apply IH. unfold app_step, static_step.
  destruct Hsame as (Hw & Hz & He).
  destruct (group_lines g) as [|l1 [|l2 [|l3 rest]]]; try done;
    unfold same_parts; simpl; by rewrite Hw, Hz, He.
Qed.



Lemma full_text_chapter fs file_path res :
  App.parse_three_parallel_file fs file_path = Ok res →
  ∃ ps, p_paragraphs res = Some ps
    ∧ p_wenyan res = join blank_line (field wenyan <$> ps)
    ∧ p_zh res = join blank_line (field baihua <$> ps)
    ∧ p_en res = join blank_line (field english <$> ps).
Proof.
  destruct (read_text fs file_path) as [raw|e] eqn:Hread.
  - rewrite (app_parse_read _ _ _ Hread). cbn zeta. intros [= <-].
    eexists. split; [done|]. cbn [p_wenyan p_zh p_en].
    destruct (app_step_aligned (paragraph_groups raw)
      {| App.wenyan_parts := []; App.zh_parts := []; App.en_parts := [];
         App.paragraphs := [] |}) as (Hw & Hz & He); [by repeat split|].
    by rewrite Hw, Hz, He.
  - unfold App.parse_three_parallel_file. rewrite Hread.
    destruct e; try done. intros [= <-]. by exists [].
Qed.

(** C7. In every result of the parser, each full-text string is the join,
    with a blank line as separator, of that field of the paragraphs in
    order; an empty field is a segment of the join like any other. *)
Theorem full_text_is_join (fs : option node) (file_path : list (list N))
    (res : parsed) :
  App.parse_three_parallel_file fs file_path = Ok res →
  ∃ ps, p_paragraphs res = Some ps
    ∧ p_wenyan res = join blank_line (field wenyan <$> ps)
    ∧ p_zh res = join blank_line (field baihua <$> ps)
    ∧ p_en res = join blank_line (field english <$> ps).
Proof. apply full_text_chapter. Qed.

Lemma full_text_is_join_witness :
  ∃ ps, Some [mk_paragraph (py "Yu the Great") (py "Yu tamed the flood")
                (py "Xia annals");
              mk_paragraph (py "Qi") (py "the son of Yu") []] = Some ps
    ∧ py "Yu the Great" ++ blank_line ++ py "Qi"
      = join blank_line (field wenyan <$> ps)
    ∧ py "Yu tamed the flood" ++ blank_line ++ py "the son of Yu"
      = join blank_line (field baihua <$> ps)
    ∧ py "Xia annals" ++ blank_line = join blank_line (field english <$> ps).
Proof.
  apply (full_text_is_join demo_fs demo_xia_path
    {| p_wenyan := py "Yu the Great" ++ blank_line ++ py "Qi";
       p_zh := py "Yu tamed the flood" ++ blank_line ++ py "the son of Yu";
       p_en := py "Xia annals" ++ blank_line;
       p_paragraphs :=
         Some [mk_paragraph (py "Yu the Great") (py "Yu tamed the flood")
                 (py "Xia annals");
               mk_paragraph (py "Qi") (py "the son of Yu") []] |}).
  vm_compute. reflexivity.
Defined.

(** C9. On every file the parser of [app.py] and the parser of
    [build_static.py] return the same three full-text strings, or raise the
    same exception. *)
Theorem parsers_agree (fs : option node) (file_path : list (list N)) :
  full_texts <$> App.parse_three_parallel_file fs file_path
  = full_texts <$> BuildStatic.parse_three_parallel_file fs file_path.
Proof.
  destruct (read_text fs file_path) as [raw|e] eqn:Hread.
  - rewrite (app_parse_read _ _ _ Hread), (static_parse_read _ _ _ Hread).
    cbn zeta. unfold fmap, result_fmap, full_texts. cbn [p_wenyan p_zh p_en].
    destruct (steps_agree (paragraph_groups raw)
      {| App.wenyan_parts := []; App.zh_parts := []; App.en_parts := [];
         App.paragraphs := [] |}
      {| BuildStatic.wenyan_parts := []; BuildStatic.zh_parts := [];
         BuildStatic.en_parts := [] |}) as (Hw & Hz & He); [by repeat split|].
    by rewrite Hw, Hz, He.
  - unfold App.parse_three_parallel_file, BuildStatic.parse_three_parallel_file.
    rewrite Hread. by destruct e.
Qed.

(** ** The hierarchy builder *)

Lemma for_each_invariant {A S} (P : S → Prop) (body : S → A → result S) :
  (∀ s x s', P s → body s x = Ok s' → P s') →
  ∀ l s s', P s → for_each body s l = Ok s' → P s'.
Proof.
  intros Hbody l. induction l as [|x l IH]; intros s s' Hs; simpl.
  - by intros [= <-].
  - destruct (body s x) as [s1|e] eqn:Hx; [|done]. simpl.
    apply IH. by eapply Hbody.
Qed.

Lemma app_load_chapters_nonempty fs cat_path chapters :
  App.load_chapters fs cat_path = Ok chapters → chapters ≠ [] →
  has_chapter_files fs cat_path.
Proof.
  unfold App.load_chapters, has_chapter_files.
  destruct (listdir fs cat_path) as [files|e]; [|done]. simpl.
  destruct (filter (λ f, endswith (py ".txt") f = true) files) as [|f rest] eqn:Hfiles.
  - intros [= <-]. done.
  - intros _ _. exists files, f. split; [done|].
    assert (Hf : f ∈ filter (λ f, endswith (py ".txt") f = true) files)
      by (rewrite Hfiles; left).
    apply list_elem_of_filter in Hf as [? ?]. done.
Qed.

Lemma app_load_categories_kept fs book_path book_config categories :
  App.load_categories fs book_path book_config = Ok categories →
  Forall (category_kept fs book_path) categories.
Proof.
  unfold App.load_categories.
  destruct (listdir fs book_path) as [cat_dirs|e]; [|done]. simpl.
  apply for_each_invariant; [|done].
  intros cats cat_dir cats' Hcats.
  destruct (isdir fs (path_join book_path cat_dir)); simpl;
    [|by intros [= <-]].
  destruct (App.load_chapters fs (path_join book_path cat_dir))
    as [chapters|e] eqn:Hload; [|done]. simpl.
  destruct chapters as [|ch chapters]; intros [= <-]; [done|].
  apply Forall_app. split; [done|]. apply Forall_singleton. split; [done|].
  simpl. by eapply app_load_chapters_nonempty.
Qed.

(** C8. The corpus [app.py] builds holds no book without categories and no
    category without chapters; every category in it comes from a directory
    that holds at least one chapter file. *)
Theorem no_empty_category_or_book (fs : option node) (books : list book) :
  App.load_books_from_raw fs = Ok books →
  Forall (λ b, book_categories b ≠ []
               ∧ Forall (λ c, cat_chapters c ≠ []) (book_categories b)) books
  ∧ Forall (book_kept fs) books.
Proof.
  intros Hload.
  assert (Hkept : Forall (book_kept fs) books).
  { revert Hload. unfold App.load_books_from_raw.
    destruct (isdir fs RAW_DIR); simpl; [|by intros [= <-]].
    destruct (listdir fs RAW_DIR) as [book_ids|e]; [|done]. simpl.
    apply for_each_invariant; [|done].
    intros bs book_id bs' Hbs.
    destruct (isdir fs (path_join RAW_DIR book_id)); simpl;
      [|by intros [= <-]].
    destruct (App.load_categories fs (path_join RAW_DIR book_id) (config_of book_id))
      as [categories|e] eqn:Hcats; [|done]. simpl.
    apply app_load_categories_kept in Hcats.
    destruct categories as [|c categories]; intros [= <-]; [done|].
    apply Forall_app. split; [done|]. by apply Forall_singleton. }
  split; [|done].
  eapply Forall_impl; [exact Hkept|]. intros b [Hne Hcs]. split; [done|].
  eapply Forall_impl; [exact Hcs|]. by intros c [? _].
Qed.

Lemma no_empty_category_or_book_witness :
  App.load_books_from_raw demo_fs = Ok demo_books
  ∧ Forall (λ b, book_categories b ≠ []
                 ∧ Forall (λ c, cat_chapters c ≠ []) (book_categories b)) demo_books
  ∧ Forall (book_kept demo_fs) demo_books.
Proof.
  assert (Hload : App.load_books_from_raw demo_fs = Ok demo_books)
    by (vm_compute; reflexivity).
  split; [exact Hload|].
  exact (no_empty_category_or_book demo_fs demo_books Hload).
Defined.

(** The directory [shu] of the demo tree holds no chapter file and is not a
    category of the corpus. *)
Example empty_directory_dropped :
  isdir demo_fs [py "shiji"; py "shu"] = true
  ∧ (cat_id <$> book_categories demo_shiji) = [py "benji"].
Proof. split; vm_compute; reflexivity. Qed.

(** ** Exceptions of the scan *)

(** A missing root gives the empty corpus, in both builders. *)
Example missing_root_is_empty :
  App.load_books_from_raw None = Ok []
  ∧ BuildStatic.load_books_from_raw None = Ok [].
Proof. split; reflexivity. Qed.



(** C2 fails on the static builder: on the demo tree, which [app.py] loads,
    [build_static.py] raises [KeyError: 'paragraphs']. *)
Theorem static_builder_raises :
  BuildStatic.load_books_from_raw demo_fs = Raise (KeyError "paragraphs")
  ∧ App.load_books_from_raw demo_fs = Ok demo_books.
Proof. split; vm_compute; reflexivity. Qed.

(** A root directory that cannot be listed is a directory all the same, and
    the scan of [app.py] raises on it. *)
Example locked_root_raises :
  App.load_books_from_raw locked_root = Raise PermissionError
  ∧ BuildStatic.load_books_from_raw locked_root = Raise PermissionError.
Proof. split; reflexivity. Qed.

(** A directory whose name ends in [.txt] is taken for a chapter file. *)
Example txt_directory_raises :
  App.load_books_from_raw txt_directory = Raise IsADirectoryError.
Proof. vm_compute. reflexivity. Qed.

(** ** Chapters of the corpus *)

Lemma app_load_chapters_joined fs cat_path chapters :
  App.load_chapters fs cat_path = Ok chapters → Forall chapter_joined chapters.
Proof.
  unfold App.load_chapters.
  destruct (listdir fs cat_path) as [files|e]; [|done]. simpl.
  apply for_each_invariant; [|done].
  intros chs [i filename] chs' Hchs.
  destruct (title_of_filename filename) as [t|e]; [|done]. simpl.
  destruct (App.parse_three_parallel_file fs (path_join cat_path filename))
    as [content|e] eqn:Hparse; [|done]. simpl.
  destruct (full_text_chapter _ _ _ Hparse) as (ps & Hps & Hw & Hz & He).
  unfold parsed_paragraphs. rewrite Hps. simpl. intros [= <-].
  apply Forall_app. split; [done|]. apply Forall_singleton.
  exists ps. by repeat split.
Qed.

(** Every chapter of the corpus [app.py] builds has its three full texts
    equal to the joins of its paragraphs' fields. *)
Lemma corpus_chapters_joined fs books :
  App.load_books_from_raw fs = Ok books →
  Forall (λ b, Forall (λ c, Forall chapter_joined (cat_chapters c))
                 (book_categories b)) books.
Proof.
  unfold App.load_books_from_raw.
  destruct (isdir fs RAW_DIR); simpl; [|by intros [= <-]].
  destruct (listdir fs RAW_DIR) as [book_ids|e]; [|done]. simpl.
  apply for_each_invariant; [|done].
  intros bs book_id bs' Hbs.
  destruct (isdir fs (path_join RAW_DIR book_id)); simpl; [|by intros [= <-]].
  destruct (App.load_categories fs (path_join RAW_DIR book_id) (config_of book_id))
    as [categories|e] eqn:Hcats; [|done]. simpl.
  assert (Hjoined : Forall (λ c, Forall chapter_joined (cat_chapters c)) categories).
  { revert Hcats. unfold App.load_categories.
    destruct (listdir fs (path_join RAW_DIR book_id)) as [cat_dirs|e]; [|done].
    simpl. apply for_each_invariant; [|done].
    intros cats cat_dir cats' Hcats.
    destruct (isdir fs (path_join (path_join RAW_DIR book_id) cat_dir)); simpl;
      [|by intros [= <-]].
    destruct (App.load_chapters fs (path_join (path_join RAW_DIR book_id) cat_dir))
      as [chapters|e] eqn:Hload; [|done]. simpl.
    apply app_load_chapters_joined in Hload.
    destruct chapters as [|ch chapters]; intros [= <-]; [done|].
    apply Forall_app. split; [done|]. by apply Forall_singleton. }
  destruct categories as [|c categories]; intros [= <-]; [done|].
  apply Forall_app. split; [done|]. by apply Forall_singleton.
Qed.

(** ** The corpus of the static builder *)

Lemma static_parse_nonempty text : BuildStatic.parse text ≠ [].
Proof. unfold BuildStatic.parse. by destruct (BuildStatic.flush _). Qed.

Lemma static_old_format_nonempty fs book_path chapters :
  BuildStatic.load_old_format fs book_path = Ok chapters → chapters ≠ [].
Proof.
  unfold BuildStatic.load_old_format.
  destruct (BuildStatic.read_or_empty fs (path_join book_path (py "wenyan.txt")))
    as [w|e]; simpl; [|done].
  destruct (BuildStatic.read_or_empty fs (path_join book_path (py "zh.txt")))
    as [z|e]; simpl; [|done].
  destruct (BuildStatic.read_or_empty fs (path_join book_path (py "en.txt")))
    as [e|e']; simpl; [|done].
  pose proof (static_parse_nonempty w) as Hw.
  pose proof (static_parse_nonempty z) as Hz.
  pose proof (static_parse_nonempty e) as He.
  destruct (BuildStatic.parse w) as [|sw lw]; [done|].
  destruct (BuildStatic.parse z) as [|sz lz]; [done|].
  destruct (BuildStatic.parse e) as [|se le]; [done|].
  intros [= <-]. cbn [length Nat.min seq foldl].
  rewrite (foldl_append _ (λ i, [ {|
    ch_id := i + 1;
    ch_title :=
      str_or (BuildStatic.field_at BuildStatic.title (sw :: lw) i)
        (str_or (BuildStatic.field_at BuildStatic.title (sz :: lz) i)
           (str_or (BuildStatic.field_at BuildStatic.title (se :: le) i)
              ([31532%N] ++ str_of_nat (i + 1) ++ [31456%N])));
    ch_wenyan := BuildStatic.field_at BuildStatic.content (sw :: lw) i;
    ch_zh := BuildStatic.field_at BuildStatic.content (sz :: lz) i;
    ch_en := BuildStatic.field_at BuildStatic.content (se :: le) i;
    ch_paragraphs := None |} ])) by done.
  discriminate.
Qed.

(** The invariant of C8 holds for the corpus of [build_static.py] as well,
    whenever that builder returns one. *)
Lemma static_no_empty_category_or_book fs books :
  BuildStatic.load_books_from_raw fs = Ok books →
  Forall (λ b, book_categories b ≠ []
               ∧ Forall (λ c, cat_chapters c ≠ []) (book_categories b)) books.
Proof.
  unfold BuildStatic.load_books_from_raw.
  destruct (isdir fs RAW_DIR); simpl; [|by intros [= <-]].
  destruct (listdir fs RAW_DIR) as [book_ids|e]; [|done]. simpl.
  apply for_each_invariant; [|done].
  intros bs book_id bs' Hbs.
  destruct (isdir fs (path_join RAW_DIR book_id)); simpl; [|by intros [= <-]].
  destruct (BuildStatic.has_categories fs (path_join RAW_DIR book_id))
    as [[|]|e]; [| |done]; simpl.
  - destruct (BuildStatic.load_categories fs (path_join RAW_DIR book_id)
                (config_of book_id)) as [categories|e] eqn:Hcats; [|done]. simpl.
    assert (Hkept : Forall (λ c, cat_chapters c ≠ []) categories).
    { revert Hcats. unfold BuildStatic.load_categories.
      destruct (listdir fs (path_join RAW_DIR book_id)) as [cat_dirs|e]; [|done].
      simpl. apply for_each_invariant; [|done].
      intros cats cat_dir cats' Hcats.
      destruct (isdir fs _); simpl; [|by intros [= <-]].
      destruct (BuildStatic.load_chapters fs _) as [chapters|e]; [|done]. simpl.
      destruct chapters as [|ch chapters]; intros [= <-]; [done|].
      apply Forall_app. split; [done|]. by apply Forall_singleton. }
    destruct categories as [|c categories]; intros [= <-]; [done|].
    apply Forall_app. split; [done|]. by apply Forall_singleton.
  - destruct (BuildStatic.load_old_format fs (path_join RAW_DIR book_id))
      as [chapters|e] eqn:Hold; [|done]. simpl. intros [= <-].
    apply Forall_app. split; [done|]. apply Forall_singleton. simpl.
    split; [done|]. apply Forall_singleton. simpl.
    by eapply static_old_format_nonempty.
Qed.

(** * Further properties of the code *)

(** ** Search: what a result holds *)

Lemma slice_infix {A} (s : list A) (a b : Z) :
  ∃ before after, s = before ++ slice s a b ++ after.
Proof.
  unfold slice.
  exists (take (Z.to_nat (clamp (len s) a)) s),
    (drop (Z.to_nat (clamp (len s) b - clamp (len s) a))
       (drop (Z.to_nat (clamp (len s) a)) s)).
  by rewrite take_drop, take_drop.
Qed.

Lemma slice_length {A} (s : list A) (a b : Z) :
  (0 ≤ a)%Z → (0 ≤ b)%Z →
  (Z.of_nat (length (slice s a b)) ≤ Z.max 0 (b - a))%Z.
Proof.
  intros Ha Hb. unfold slice, clamp, len. rewrite length_take, length_drop.
  destruct (Z.ltb_spec a 0); [lia|].
  destruct (Z.ltb_spec b 0); lia.
Qed.

Section MatchProps.
Context {casing : Casing}.

Lemma find_nonneg (hay needle : list N) :
  str_in needle hay = true → (0 ≤ find hay needle)%Z.
Proof.
  intros Hin. destruct (str_in_find _ _ 0%Z Hin) as (i & Hi & _).
  unfold find. lia.
Qed.

Lemma context_of_bound query text :
  str_in (strip (lower query)) (lower text) = true →
  length (context_of query text) ≤ length query + 100.
Proof.
  intros Hin. pose proof (find_nonneg _ _ Hin) as Hpos.
  unfold context_of.
  pose proof (slice_length text
    (Z.max 0 (find (lower text) (strip (lower query)) - 50))
    (Z.min (len text)
       (find (lower text) (strip (lower query)) + len query + 50))) as Hlen.
  unfold len in *. lia.
Qed.

Lemma field_records_sound query ch idx p :
  paragraphs_of ch !! idx = Some p →
  Forall (match_sound query ch) (field_records query idx p).
Proof.
  intros Hp.
  assert (Hone : ∀ lang,
    Forall (match_sound query ch)
      (if str_in (strip (lower query)) (lower (field lang p))
       then [ContentMatch lang (idx + 1) (context_of query (field lang p))
               (highlight_text (context_of query (field lang p)) query) p]
       else [])).
  { intros lang. destruct (str_in _ _) eqn:Hin; [|constructor].
    apply Forall_singleton. simpl. split_and!.
    - lia.
    - by replace (idx + 1 - 1) with idx by lia.
    - apply slice_infix.
    - by apply context_of_bound.
    - done. }
  unfold field_records. rewrite Forall_bind.
  apply Forall_cons_2; [apply (Hone wenyan)|].
  apply Forall_cons_2; [apply (Hone baihua)|].
  apply Forall_cons_2; [apply (Hone english)|]. constructor.
Qed.

Lemma enumerate_lookup {A} (l : list A) : ∀ n,
  Forall (λ ip, l !! (ip.1 - n) = Some ip.2 ∧ n ≤ ip.1) (enumerate_from n l).
Proof.
  induction l as [|x l IH]; intros n; cbn [enumerate_from]; [constructor|].
  constructor.
  - simpl. by rewrite Nat.sub_diag.
  - eapply Forall_impl; [apply (IH (S n))|]. intros [i y] [Hy Hi]. simpl in *.
    split; [|lia]. by replace (i - n) with (S (i - S n)) by lia.
Qed.

Lemma chapter_matches_sound query scope ch :
  Forall (match_sound query ch) (chapter_matches query scope ch).
Proof.
  rewrite chapter_matches_spec. apply Forall_app. split.
  - unfold title_records. destruct (_ && _); [|constructor].
    by apply Forall_singleton.
  - unfold content_records. destruct (scope_in _ _); [|constructor].
    rewrite Forall_bind. fold (paragraphs_of ch). unfold enumerate.
    eapply Forall_impl; [apply (enumerate_lookup (paragraphs_of ch) 0)|].
    intros [i p] [Hi _]. simpl in *. apply field_records_sound.
    by rewrite Nat.sub_0_r in Hi.
Qed.

Lemma chapter_field_records query idx p :
  Forall (λ m, match m with ContentMatch _ _ _ _ _ => True | _ => False end)
    (field_records query idx p).
Proof.
  unfold field_records. simpl. repeat destruct (str_in _ _); simpl;
    repeat first [apply Forall_nil_2 | apply Forall_cons_2; [done|]].
Qed.

Lemma field_records_length query idx p : length (field_records query idx p) ≤ 3.
Proof.
  unfold field_records. simpl. repeat destruct (str_in _ _); simpl; lia.
Qed.

Lemma content_records_length query scope ch :
  length (content_records query scope ch) ≤ 3 * length (paragraphs_of ch).
Proof.
  unfold content_records. destruct (scope_in _ _); [|simpl; lia].
  fold (paragraphs_of ch). unfold enumerate.
  assert (Hfrom : ∀ (ps : list (gmap string (list N))) n,
    length (enumerate_from n ps ≫= λ ip, field_records query ip.1 ip.2)
    ≤ 3 * length ps); [|apply Hfrom].
  induction ps as [|p ps IH]; intros n; [simpl; lia|].
  cbn [enumerate_from]. rewrite bind_cons, length_app. cbn [fst snd length].
  pose proof (field_records_length query n p). specialize (IH (S n)). lia.
Qed.

Lemma title_records_length query scope ch :
  length (title_records query scope ch) ≤ 1.
Proof. unfold title_records. destruct (_ && _); simpl; lia. Qed.

Lemma results_Forall (P : search_result → Prop) BOOKS query scope book_filter :
  (∀ b c ch, chapter_matches query scope ch ≠ [] →
     P {| r_book := b; r_category := c; r_chapter := ch;
          r_matches := chapter_matches query scope ch;
          relevance_score := length (chapter_matches query scope ch) |}) →
  Forall P (search_in_books BOOKS query scope book_filter).
Proof.
  intros HP. apply Forall_forall. intros r Hr.
  apply result_iff_matches_elem in Hr
    as (b & c & ch & _ & _ & _ & _ & _ & Hm & ->).
  by apply HP.
Qed.

End MatchProps.

(** X1. Every match record of every result is true of the chapter of that
    result: a title match carries the title; a content match carries a
    paragraph position that exists in the chapter (counted from 1), the
    paragraph at that position, a context that is a contiguous part of the
    field of its language and has at most [len(query) + 100] characters; the
    highlight is the highlighted content. *)
Theorem match_records_sound {casing : Casing} (BOOKS : list book)
    (query scope : list N) (book_filter : option (list N)) :
  Forall (λ r, Forall (match_sound query (r_chapter r)) (r_matches r))
    (search_in_books BOOKS query scope book_filter).
Proof.
  apply results_Forall. intros b c ch _. simpl. apply chapter_matches_sound.
Qed.

(** X2. The relevance score of a result is at least 1 and at most one title
    match plus three content matches per paragraph of its chapter. *)
Theorem relevance_score_bounds {casing : Casing} (BOOKS : list book)
    (query scope : list N) (book_filter : option (list N)) :
  Forall (λ r, 1 ≤ relevance_score r
               ≤ 1 + 3 * length (paragraphs_of (r_chapter r)))
    (search_in_books BOOKS query scope book_filter).
Proof.
  apply results_Forall. intros b c ch Hm. simpl. split.
  - destruct (chapter_matches query scope ch); [done|simpl; lia].
  - rewrite chapter_matches_spec, length_app.
    pose proof (title_records_length query scope ch).
    pose proof (content_records_length query scope ch). lia.
Qed.

(** X3. With scope ['title'] a result holds exactly one match record, the title
    match of its chapter, and has relevance score 1; with scope ['content']
    no result holds a title match. *)
Theorem scope_selects_record_kind {casing : Casing} (BOOKS : list book)
    (query : list N) (book_filter : option (list N)) :
  Forall (λ r, r_matches r
               = [TitleMatch (ch_title (r_chapter r))
                    (highlight_text (ch_title (r_chapter r)) query)]
               ∧ relevance_score r = 1)
    (search_in_books BOOKS query (py "title") book_filter)
  ∧ Forall (λ r, Forall (λ m, ∀ content highlight,
                            m ≠ TitleMatch content highlight) (r_matches r))
      (search_in_books BOOKS query (py "content") book_filter).
Proof.
  split; apply results_Forall; intros b c ch Hm; simpl.
  - rewrite chapter_matches_spec in *.
    unfold content_records, title_records in *.
    change (scope_in (py "title") [py "all"; py "content"]) with false in *.
    change (scope_in (py "title") [py "all"; py "title"]) with true in *.
    rewrite app_nil_r in *. simpl in *. by destruct (str_in _ _).
  - rewrite chapter_matches_spec. unfold content_records, title_records.
    change (scope_in (py "content") [py "all"; py "title"]) with false.
    simpl. rewrite Forall_bind. apply Forall_forall. intros [i p] _.
    eapply Forall_impl; [apply (chapter_field_records query i p)|].
    by intros [] Hm'.
Qed.

(** ** Search: the corpus and the filter *)

Section CorpusProps.
Context {casing : Casing}.

Lemma traversal_app B1 B2 book_filter :
  traversal (B1 ++ B2) book_filter
  = traversal B1 book_filter ++ traversal B2 book_filter.
Proof. unfold traversal. apply bind_app. Qed.

Lemma visited_app B1 B2 query book_filter :
  visited (B1 ++ B2) query book_filter
  = visited B1 query book_filter ++ visited B2 query book_filter.
Proof.
  unfold visited. destruct (strip (lower query)); [done|]. apply traversal_app.
Qed.

Lemma traversal_filtered BOOKS (f : list N) :
  f ≠ [] →
  traversal BOOKS (Some f)
  = traversal (filter (λ b, book_id b = f) BOOKS) None.
Proof.
  intros Hf. unfold traversal. induction BOOKS as [|b BOOKS IH]; [done|].
  rewrite bind_cons, filter_cons, IH. unfold filtered_out at 1, str_eqb.
  destruct f as [|c f]; [done|]. case_decide as Hid.
  - rewrite bool_decide_eq_true_2 by done. by rewrite bind_cons.
  - rewrite bool_decide_eq_false_2 by done. done.
Qed.

End CorpusProps.

(** X4. Searching with a non-empty book filter is searching, without filter,
    the corpus cut down to the books with that id. *)
Theorem filter_is_restriction {casing : Casing} (BOOKS : list book)
    (query scope f : list N) :
  f ≠ [] →
  search_in_books BOOKS query scope (Some f)
  = search_in_books (filter (λ b, book_id b = f) BOOKS) query scope None.
Proof.
  intros Hf. rewrite !search_in_books_spec. unfold visited.
  by rewrite traversal_filtered.
Qed.

Lemma filter_is_restriction_witness :
  py "shiji" ≠ []
  ∧ search_in_books (casing := ascii_casing) demo_books (py "yu") (py "all")
      (Some (py "shiji"))
    = search_in_books (casing := ascii_casing)
        (filter (λ b, book_id b = py "shiji") demo_books) (py "yu") (py "all") None.
Proof.
  assert (Hf : py "shiji" ≠ []) by (vm_compute; discriminate).
  split; [exact Hf|].
  exact (filter_is_restriction demo_books (py "yu") (py "all") (py "shiji") Hf).
Defined.

Lemma sorted_by_filters {A} (key : A → nat) (l1 l2 : list A) :
  StronglySorted (descending key) l1 → StronglySorted (descending key) l2 →
  (∀ k, filter (λ x, key x = k) l1 = filter (λ x, key x = k) l2) →
  l1 = l2.
Proof.
  intros H1. revert l2. induction H1 as [|x l1 H1 IH Hx]; intros l2 H2 Hf.
  - destruct l2 as [|y l2]; [done|].
    specialize (Hf (key y)). rewrite filter_cons_True in Hf by done. done.
  - destruct H2 as [|y l2 H2 Hy].
    { specialize (Hf (key x)). rewrite filter_cons_True in Hf by done. done. }
    assert (Hxy : key x = key y).
    { assert (Hyin : y ∈ x :: l1).
      { pose proof (Hf (key y)) as Hk. rewrite (filter_cons_True _ y) in Hk by done.
        assert (Hin : y ∈ filter (λ z, key z = key y) (x :: l1))
          by (rewrite Hk; left).
        by apply list_elem_of_filter in Hin as [_ ?]. }
      assert (Hxin : x ∈ y :: l2).
      { pose proof (Hf (key x)) as Hk. rewrite (filter_cons_True _ x) in Hk by done.
        assert (Hin : x ∈ filter (λ z, key z = key x) (y :: l2))
          by (rewrite <-Hk; left).
        by apply list_elem_of_filter in Hin as [_ ?]. }
      apply Nat.le_antisymm.
      - apply elem_of_cons in Hxin as [->|Hxin]; [done|].
        rewrite Forall_forall in Hy. apply (Hy x Hxin).
      - apply elem_of_cons in Hyin as [->|Hyin]; [done|].
        rewrite Forall_forall in Hx. apply (Hx y Hyin). }
    pose proof (Hf (key x)) as Hhead.
    rewrite filter_cons_True, (filter_cons_True _ y) in Hhead by done.
    injection Hhead as -> Htail. f_equal. apply IH; [done|].
    intros k. specialize (Hf k). rewrite !filter_cons in Hf.
    case_decide; by simplify_eq.
Qed.

Lemma sort_reverse_app {A} (key : A → nat) (l1 l2 : list A) :
  sort_reverse key (l1 ++ l2)
  = sort_reverse key (sort_reverse key l1 ++ sort_reverse key l2).
Proof.
  apply (sorted_by_filters key); try apply sort_reverse_sorted.
  intros k. by rewrite !sort_reverse_stable, !filter_app, !sort_reverse_stable.
Qed.

(** X5. The results over two corpora put one after the other are the results
    over each, put together and ranked again: merging the result lists of
    two corpora loses nothing and keeps the order of each. *)
Theorem search_of_joined_corpora {casing : Casing} (B1 B2 : list book)
    (query scope : list N) (book_filter : option (list N)) :
  search_in_books (B1 ++ B2) query scope book_filter
  = sort_reverse relevance_score
      (search_in_books B1 query scope book_filter
       ++ search_in_books B2 query scope book_filter).
Proof.
  rewrite !search_in_books_spec, visited_app, bind_app.
  apply sort_reverse_app.
Qed.

(** ** Highlighting *)

Section HighlightProps.
Context {casing : Casing}.





End HighlightProps.


(** ** Statistics *)

Lemma add_paragraphs_fold (chs : list chapter) : ∀ bs,
  foldl (λ bs ch, add_paragraphs bs (length (default [] (ch_paragraphs ch)))) bs chs
  = add_paragraphs bs (sum_list_with (λ ch, length (paragraphs_of ch)) chs).
Proof.
  induction chs as [|ch chs IH]; intros [i t c n m]; simpl.
  - unfold add_paragraphs. simpl. f_equal. lia.
  - rewrite IH. unfold add_paragraphs, paragraphs_of. simpl. f_equal. lia.
Qed.

Lemma book_stats_fold (cats : list category) : ∀ bs,
  foldl (λ bs c,
    foldl (λ bs ch, add_paragraphs bs (length (default [] (ch_paragraphs ch))))
      (add_chapters bs (length (cat_chapters c))) (cat_chapters c)) bs cats
  = add_paragraphs
      (add_chapters bs (sum_list_with (λ c, length (cat_chapters c)) cats))
      (sum_list_with
         (λ c, sum_list_with (λ ch, length (paragraphs_of ch)) (cat_chapters c))
         cats).
Proof.
  induction cats as [|c cats IH]; intros [i t k n m]; simpl.
  - unfold add_paragraphs, add_chapters. simpl. f_equal; lia.
  - rewrite add_paragraphs_fold, IH.
    unfold add_paragraphs, add_chapters. simpl. f_equal; lia.
Qed.

Lemma statistics_counts (BOOKS : list book) :
  total_categories (get_statistics BOOKS)
  = sum_list_with (λ b, length (book_categories b)) BOOKS
  ∧ total_chapters (get_statistics BOOKS) = sum_list_with chapters_in BOOKS
  ∧ total_paragraphs (get_statistics BOOKS) = sum_list_with paragraphs_in BOOKS.
Proof.
  unfold get_statistics.
  set (step := λ (stats : statistics) (book : book), _).
  assert (Hfold : ∀ l st,
    let st' := foldl step st l in
    total_categories st'
    = total_categories st + sum_list_with (λ b, length (book_categories b)) l
    ∧ total_chapters st' = total_chapters st + sum_list_with chapters_in l
    ∧ total_paragraphs st' = total_paragraphs st + sum_list_with paragraphs_in l).
  { induction l as [|b l IH]; intros st; cbn zeta.
    - simpl. repeat split; lia.
    - cbn [foldl]. destruct (IH (step st b)) as (Hc & Hch & Hp).
      rewrite Hc, Hch, Hp. unfold step. cbn [
        total_categories total_chapters total_paragraphs].
      rewrite book_stats_fold. cbn [sum_list_with].
      unfold add_paragraphs, add_chapters, chapters_in, paragraphs_in.
      cbn [bs_categories bs_chapters bs_paragraphs].
      repeat split; lia. }
  destruct (Hfold BOOKS {| total_books := 0; total_categories := 0;
    total_chapters := 0; total_paragraphs := 0; books_detail := [] |})
    as (Hc & Hch & Hp).
  cbn [total_categories total_chapters total_paragraphs] in *. done.
Qed.

(** X7. The statistics hold one detail entry per book, in corpus order, with
    the number of its categories, chapters and paragraphs; the number of
    books is the number of entries and every other total is the sum of that
    count over the entries.  On the empty corpus everything is 0. *)
Theorem statistics_totals (BOOKS : list book) :
  books_detail (get_statistics BOOKS) = detail_of <$> BOOKS
  ∧ total_books (get_statistics BOOKS) = length (books_detail (get_statistics BOOKS))
  ∧ total_categories (get_statistics BOOKS)
    = sum_list_with bs_categories (books_detail (get_statistics BOOKS))
  ∧ total_chapters (get_statistics BOOKS)
    = sum_list_with bs_chapters (books_detail (get_statistics BOOKS))
  ∧ total_paragraphs (get_statistics BOOKS)
    = sum_list_with bs_paragraphs (books_detail (get_statistics BOOKS)).
Proof.
  unfold get_statistics.
  set (step := λ (stats : statistics) (book : book), _).
  assert (Hfold : ∀ l st,
    let st' := foldl step st l in
    books_detail st' = books_detail st ++ (detail_of <$> l)
    ∧ total_categories st'
      = total_categories st + sum_list_with bs_categories (detail_of <$> l)
    ∧ total_chapters st'
      = total_chapters st + sum_list_with bs_chapters (detail_of <$> l)
    ∧ total_paragraphs st'
      = total_paragraphs st + sum_list_with bs_paragraphs (detail_of <$> l)).
  { induction l as [|b l IH]; intros st; cbn zeta.
    - simpl. rewrite app_nil_r. repeat split; lia.
    - cbn [foldl]. destruct (IH (step st b)) as (Hd & Hc & Hch & Hp).
      rewrite Hd, Hc, Hch, Hp. unfold step. cbn [books_detail
        total_categories total_chapters total_paragraphs].
      rewrite book_stats_fold. cbn [fmap list_fmap sum_list_with].
      unfold add_paragraphs, add_chapters, detail_of, chapters_in, paragraphs_in.
      cbn [bs_categories bs_chapters bs_paragraphs bs_id bs_title].
      rewrite <-app_assoc. cbn [app]. repeat split; lia. }
  destruct (Hfold BOOKS {| total_books := 0; total_categories := 0;
    total_chapters := 0; total_paragraphs := 0; books_detail := [] |})
    as (Hd & Hc & Hch & Hp).
  cbn [books_detail total_books total_categories total_chapters total_paragraphs]
    in *.
  rewrite Hd, Hc, Hch, Hp. cbn [app]. rewrite length_fmap. done.
Qed.

Section StatisticsProps.
Context {casing : Casing}.

Lemma traversal_length (BOOKS : list book) (book_filter : option (list N)) :
  length (traversal BOOKS book_filter) ≤ sum_list_with chapters_in BOOKS.
Proof.
  unfold traversal. induction BOOKS as [|b BOOKS IH]; [done|].
  rewrite bind_cons, length_app. cbn [sum_list_with].
  assert (Hb : length (if filtered_out book_filter b then []
                       else c ← book_categories b; ch ← cat_chapters c; [(b, c, ch)])
               ≤ chapters_in b); [|lia].
  destruct (filtered_out book_filter b); [simpl; lia|].
  unfold chapters_in. clear. induction (book_categories b) as [|c cs IHc]; [done|].
  rewrite bind_cons, length_app. cbn [sum_list_with].
  assert (Hc : length (ch ← cat_chapters c; [(b, c, ch)]) = length (cat_chapters c)).
  { clear. induction (cat_chapters c) as [|ch chs IHch]; [done|].
    rewrite bind_cons, length_app, IHch. done. }
  lia.
Qed.

Lemma hits_length query scope (vs : list (book * category * chapter)) :
  length (vs ≫= hit query scope) ≤ length vs.
Proof.
  induction vs as [|v vs IH]; [done|].
  rewrite bind_cons, length_app. cbn [length].
  assert (length (hit query scope v) ≤ 1); [|lia].
  unfold hit. destruct (chapter_matches query scope v.2); simpl; lia.
Qed.

Lemma traversal_weight (BOOKS : list book) (book_filter : option (list N)) :
  sum_list_with (λ v, 1 + 3 * length (paragraphs_of v.2))
    (traversal BOOKS book_filter)
  ≤ sum_list_with chapters_in BOOKS + 3 * sum_list_with paragraphs_in BOOKS.
Proof.
  unfold traversal. induction BOOKS as [|b BOOKS IH]; [done|].
  rewrite bind_cons, sum_list_with_app. cbn [sum_list_with].
  assert (Hb : sum_list_with (λ v, 1 + 3 * length (paragraphs_of v.2))
                 (if filtered_out book_filter b then []
                  else c ← book_categories b; ch ← cat_chapters c; [(b, c, ch)])
               ≤ chapters_in b + 3 * paragraphs_in b); [|lia].
  destruct (filtered_out book_filter b); [simpl; lia|].
  unfold chapters_in, paragraphs_in. clear.
  induction (book_categories b) as [|c cs IHc]; [done|].
  rewrite bind_cons, sum_list_with_app. cbn [sum_list_with].
  assert (Hc : sum_list_with (λ v, 1 + 3 * length (paragraphs_of v.2))
                 (ch ← cat_chapters c; [(b, c, ch)])
               = length (cat_chapters c)
                 + 3 * sum_list_with (λ ch, length (paragraphs_of ch))
                         (cat_chapters c)).
  { clear. induction (cat_chapters c) as [|ch chs IHch]; [done|].
    rewrite bind_cons, sum_list_with_app, IHch. simpl. lia. }
  lia.
Qed.

Lemma hits_weight query scope (vs : list (book * category * chapter)) :
  sum_list_with relevance_score (vs ≫= hit query scope)
  ≤ sum_list_with (λ v, 1 + 3 * length (paragraphs_of v.2)) vs.
Proof.
  induction vs as [|v vs IH]; [done|].
  rewrite bind_cons, sum_list_with_app. cbn [sum_list_with].
  assert (sum_list_with relevance_score (hit query scope v)
          ≤ 1 + 3 * length (paragraphs_of v.2)); [|lia].
  unfold hit. destruct (chapter_matches query scope v.2) eqn:Hm; [simpl; lia|].
  cbn [sum_list_with relevance_score]. rewrite <-Hm.
  rewrite chapter_matches_spec, length_app.
  pose proof (title_records_length query scope v.2).
  pose proof (content_records_length query scope v.2). lia.
Qed.

End StatisticsProps.

(** X8. A search never returns more results than the statistics count
    chapters, and the relevance scores of its results add up to at most the
    number of chapters plus three times the number of paragraphs. *)
Theorem search_within_statistics {casing : Casing} (BOOKS : list book)
    (query scope : list N) (book_filter : option (list N)) :
  length (search_in_books BOOKS query scope book_filter)
  ≤ total_chapters (get_statistics BOOKS)
  ∧ sum_list_with relevance_score (search_in_books BOOKS query scope book_filter)
    ≤ total_chapters (get_statistics BOOKS)
      + 3 * total_paragraphs (get_statistics BOOKS).
Proof.
  destruct (statistics_counts BOOKS) as (_ & Hch & Hp). rewrite Hch, Hp.
  rewrite search_in_books_spec. unfold sort_reverse. rewrite !sort_by_perm.
  unfold visited. split.
  - etrans; [apply hits_length|].
    destruct (strip (lower query)); [simpl; lia|]. apply traversal_length.
  - etrans; [apply hits_weight|].
    destruct (strip (lower query)); [simpl; lia|]. apply traversal_weight.
Qed.

(** ** Routes *)

Lemma slice_to_take {A} (l : list A) (n : nat) :
  slice_to l (Z.of_nat n) = take n l.
Proof.
  unfold slice_to, slice, clamp, len. simpl.
  destruct (Z.ltb_spec (Z.of_nat n) 0); [lia|].
  replace (Z.to_nat (Z.min 0 (Z.of_nat (length l)))) with 0 by lia.
  rewrite drop_0.
  destruct (decide (n ≤ length l)).
  - f_equal. lia.
  - rewrite !take_ge by lia. done.
Qed.

Lemma api_full_results_sorted {casing : Casing} BOOKS q scope book :
  StronglySorted (descending relevance_score) (api_full_results BOOKS q scope book).
Proof.
  unfold api_full_results. destruct (strip (default [] q)); [constructor|].
  rewrite search_in_books_spec. apply sort_reverse_sorted.
Qed.

(** X9. [/api/search] answers with the first 20 results of the ranked list and
    with the length of the whole list as total; no result it leaves out has
    a higher relevance score than one it returns.  The query it searches
    and echoes is the trimmed one, and a query that is empty after trimming
    is not searched at all. *)
Theorem api_search_top_twenty {casing : Casing} (BOOKS : list book)
    (q scope book : option (list N)) :
  api_results (api_search BOOKS q scope book)
    = take 20 (api_full_results BOOKS q scope book)
  ∧ api_total (api_search BOOKS q scope book)
    = length (api_full_results BOOKS q scope book)
  ∧ length (api_results (api_search BOOKS q scope book))
    = 20 `min` api_total (api_search BOOKS q scope book)
  ∧ api_query (api_search BOOKS q scope book) = strip (default [] q)
  ∧ Forall (λ kept,
      Forall (λ left_out, relevance_score left_out ≤ relevance_score kept)
        (drop 20 (api_full_results BOOKS q scope book)))
      (api_results (api_search BOOKS q scope book)).
Proof.
  assert (Hres : api_results (api_search BOOKS q scope book)
                 = take 20 (api_full_results BOOKS q scope book)).
  { unfold api_search, api_full_results. cbn [api_results].
    change 20%Z with (Z.of_nat 20). rewrite slice_to_take.
    by destruct (strip (default [] q)). }
  assert (Htotal : api_total (api_search BOOKS q scope book)
                   = length (api_full_results BOOKS q scope book)).
  { unfold api_search, api_full_results. cbn [api_total].
    by destruct (strip (default [] q)). }
  split_and!; try done.
  - rewrite Hres, Htotal. apply length_take.
  - rewrite Hres.
    pose proof (api_full_results_sorted BOOKS q scope book) as Hsorted.
    rewrite <-(take_drop 20 (api_full_results BOOKS q scope book)) in Hsorted.
    apply Forall_forall. intros kept Hkept. apply Forall_forall.
    intros left_out Hout.
    apply (StronglySorted_app_1_elem_of _ _ _ kept left_out Hsorted Hkept Hout).
Qed.

(** ** The hierarchy builder: chapters and files *)

Lemma for_each_prefix_invariant {A S} (P : list A → S → Prop)
    (body : S → A → result S) :
  (∀ pre x s s', P pre s → body s x = Ok s' → P (pre ++ [x]) s') →
  ∀ l pre s s', P pre s → for_each body s l = Ok s' → P (pre ++ l) s'.
Proof.
  intros Hbody l. induction l as [|x l IH]; intros pre s s' Hs; simpl.
  - intros [= <-]. by rewrite app_nil_r.
  - destruct (body s x) as [s1|e] eqn:Hx; [|done]. simpl. intros Hrest.
    rewrite (assoc_L _ pre [x] l : pre ++ x :: l = (pre ++ [x]) ++ l).
    eapply IH; [|done]. by eapply Hbody.
Qed.

Lemma enumerate_from_snd {A} (l : list A) n : (enumerate_from n l).*2 = l.
Proof.
  revert n. induction l as [|x l IH]; intros n; [done|].
  cbn [enumerate_from]. rewrite fmap_cons. cbn [snd]. by rewrite IH.
Qed.

Lemma enumerate_from_fst {A} (l : list A) n :
  (enumerate_from n l).*1 = seq n (length l).
Proof.
  revert n. induction l as [|x l IH]; intros n; [done|].
  cbn [enumerate_from length seq]. rewrite fmap_cons. cbn [fst]. by rewrite IH.
Qed.

Lemma app_load_chapters_mirror fs cat_path chapters :
  App.load_chapters fs cat_path = Ok chapters →
  ∃ files, listdir fs cat_path = Ok files
    ∧ Forall2 (chapter_from fs cat_path) chapters (chapter_files files)
    ∧ ch_id <$> chapters = seq 1 (length (chapter_files files)).
Proof.
  unfold App.load_chapters.
  destruct (listdir fs cat_path) as [files|e]; [|done]. simpl. intros Hloop.
  exists files. split; [done|]. fold (chapter_files files) in Hloop.
  assert (Hinv : Forall2 (chapter_from fs cat_path) chapters
                   ([] ++ enumerate (chapter_files files)).*2
                 ∧ ch_id <$> chapters
                   = S <$> ([] ++ enumerate (chapter_files files)).*1).
  { revert Hloop.
    apply (for_each_prefix_invariant
      (λ pre chs, Forall2 (chapter_from fs cat_path) chs pre.*2
                  ∧ ch_id <$> chs = S <$> pre.*1)); [|by split; [constructor|]].
    intros pre [i filename] chs chs' [Hfrom Hids].
    destruct (title_of_filename filename) as [t|e] eqn:Ht; [|done]. simpl.
    destruct (App.parse_three_parallel_file fs (path_join cat_path filename))
      as [content|e] eqn:Hparse; [|done]. simpl.
    unfold parsed_paragraphs.
    destruct (p_paragraphs content) as [ps|] eqn:Hps; [|done]. simpl.
    intros [= <-]. rewrite !fmap_app. split.
    - apply Forall2_app; [done|]. constructor; [|constructor].
      split; [done|]. exists content. by rewrite Hps.
    - rewrite Hids. simpl. do 2 f_equal. lia. }
  destruct Hinv as [Hfrom Hids]. cbn [app] in *. unfold enumerate in *.
  rewrite enumerate_from_snd in Hfrom. rewrite enumerate_from_fst in Hids.
  split; [done|]. by rewrite Hids, fmap_S_seq.
Qed.

(** ** The hierarchy builder: books and categories *)

Lemma app_load_categories_loaded fs book_path cfg categories :
  App.load_categories fs book_path cfg = Ok categories →
  ∃ cat_dirs, listdir fs book_path = Ok cat_dirs
    ∧ (cat_id <$> categories) `sublist_of` sorted cat_dirs
    ∧ Forall (category_loaded fs book_path cfg) categories.
Proof.
  unfold App.load_categories.
  destruct (listdir fs book_path) as [cat_dirs|e]; [|done]. simpl. intros Hloop.
  exists cat_dirs. split; [done|].
  assert (Hinv : (cat_id <$> categories) `sublist_of` ([] ++ sorted cat_dirs)
                 ∧ Forall (category_loaded fs book_path cfg) categories);
    [|done].
  revert Hloop.
  apply (for_each_prefix_invariant
    (λ pre cats, (cat_id <$> cats) `sublist_of` pre
                 ∧ Forall (category_loaded fs book_path cfg) cats));
    [|by split].
  intros pre cat_dir cats cats' [Hsub Hcats].
  destruct (isdir fs (path_join book_path cat_dir)) eqn:Hdir; simpl.
  2:{ intros [= <-]. split; [by apply sublist_inserts_r|done]. }
  destruct (App.load_chapters fs (path_join book_path cat_dir))
    as [chapters|e] eqn:Hload; [|done]. simpl.
  destruct chapters as [|ch chapters]; intros [= <-].
  { split; [by apply sublist_inserts_r|done]. }
  rewrite fmap_app. split; [by apply sublist_app|].
  apply Forall_app. split; [done|]. by apply Forall_singleton.
Qed.

Lemma app_corpus_loaded fs books :
  App.load_books_from_raw fs = Ok books →
  Forall (book_loaded fs) books
  ∧ ∀ names, listdir fs RAW_DIR = Ok names →
      (book_id <$> books) `sublist_of` sorted names.
Proof.
  unfold App.load_books_from_raw.
  destruct (isdir fs RAW_DIR); simpl.
  2:{ intros [= <-]. split; [done|]. intros. apply sublist_nil_l. }
  destruct (listdir fs RAW_DIR) as [book_ids|e]; [|done]. simpl. intros Hloop.
  assert (Hinv : (book_id <$> books) `sublist_of` ([] ++ sorted book_ids)
                 ∧ Forall (book_loaded fs) books).
  { revert Hloop.
    apply (for_each_prefix_invariant
      (λ pre bs, (book_id <$> bs) `sublist_of` pre ∧ Forall (book_loaded fs) bs));
      [|by split].
    intros pre id bs bs' [Hsub Hbs].
    destruct (isdir fs (path_join RAW_DIR id)) eqn:Hdir; simpl.
    2:{ intros [= <-]. split; [by apply sublist_inserts_r|done]. }
    destruct (App.load_categories fs (path_join RAW_DIR id) (config_of id))
      as [categories|e] eqn:Hcats; [|done]. simpl.
    apply app_load_categories_loaded in Hcats as (cat_dirs & Hlist & Hsubc & Hloaded).
    destruct categories as [|c categories]; intros [= <-].
    { split; [by apply sublist_inserts_r|done]. }
    rewrite fmap_app. split; [by apply sublist_app|].
    apply Forall_app. split; [done|]. apply Forall_singleton.
    split; [done|]. split; [done|]. by exists cat_dirs. }
  destruct Hinv as [Hsub Hloaded]. split; [done|]. by intros names [= <-].
Qed.

Lemma chapters_mirror_files_all fs books :
  App.load_books_from_raw fs = Ok books →
  Forall (λ b, Forall (category_mirrors_files fs b) (book_categories b)) books.
Proof.
  intros Hload. apply app_corpus_loaded in Hload as [Hloaded _].
  eapply Forall_impl; [exact Hloaded|].
  intros b (_ & _ & cat_dirs & _ & _ & Hcats).
  eapply Forall_impl; [exact Hcats|]. intros c (_ & _ & Hchapters).
  by apply app_load_chapters_mirror.
Qed.

(** X10. In the corpus [app.py] builds, the chapters of every category mirror
    the [.txt] files of its directory, taken in code-point order of their
    names: one chapter per file, in that order, with the 1-based position as
    id, the title derived from the file name and the content parsed from
    that file. *)
Theorem chapters_mirror_files (fs : option node) (books : list book) :
  App.load_books_from_raw fs = Ok books →
  Forall (λ b, Forall (category_mirrors_files fs b) (book_categories b)) books.
Proof. apply chapters_mirror_files_all. Qed.

Lemma chapters_mirror_files_witness :
  App.load_books_from_raw demo_fs = Ok demo_books
  ∧ Forall (λ b, Forall (category_mirrors_files demo_fs b) (book_categories b))
      demo_books.
Proof.
  assert (Hload : App.load_books_from_raw demo_fs = Ok demo_books)
    by (vm_compute; reflexivity).
  split; [exact Hload|]. exact (chapters_mirror_files demo_fs demo_books Hload).
Defined.

(** ** Code-point order *)

Lemma str_leb_total (a b : list N) : str_leb a b = false → str_leb b a = true.
Proof.
  revert b. induction a as [|c a IH]; intros [|d b]; simpl; try done.
  intros [Hlt Heq]%orb_false_iff. apply N.ltb_ge in Hlt.
  destruct (N.eqb_spec c d) as [->|Hne].
  - simpl in Heq. rewrite N.eqb_refl, (IH b Heq). apply orb_true_r.
  - assert ((d <? c)%N = true) as -> by (apply N.ltb_lt; lia). done.
Qed.

Lemma str_leb_trans (a b c : list N) :
  str_leb a b = true → str_leb b c = true → str_leb a c = true.
Proof.
  revert b c. induction a as [|x a IH]; intros [|y b] [|z c]; simpl; try done.
  intros Hab Hbc.
  apply orb_true_iff in Hab as [Hxy|[Hxy Hab]%andb_true_iff];
    apply orb_true_iff in Hbc as [Hyz|[Hyz Hbc]%andb_true_iff];
    rewrite ?N.ltb_lt, ?N.eqb_eq in *.
  - assert ((x <? z)%N = true) as -> by (apply N.ltb_lt; lia). done.
  - subst. by assert ((x <? z)%N = true) as -> by (by apply N.ltb_lt).
  - subst. by assert ((y <? z)%N = true) as -> by (by apply N.ltb_lt).
  - subst. rewrite N.eqb_refl, (IH b c Hab Hbc). apply orb_true_r.
Qed.

Lemma insert_by_sorted (x : list N) (l : list (list N)) :
  StronglySorted str_le l → StronglySorted str_le (insert_by str_leb x l).
Proof.
  induction 1 as [|y l Hs IH Hy]; simpl.
  - repeat constructor.
  - destruct (str_leb x y) eqn:Hxy.
    + constructor; [by constructor|]. constructor; [done|].
      eapply Forall_impl; [exact Hy|]. intros z Hz. by eapply str_leb_trans.
    + constructor; [done|]. rewrite insert_by_perm.
      constructor; [by apply str_leb_total|done].
Qed.

Lemma sorted_sorted (names : list (list N)) : StronglySorted str_le (sorted names).
Proof.
  induction names as [|x names IH]; [constructor|]. by apply insert_by_sorted.
Qed.

Lemma StronglySorted_sublist {A} (R : relation A) (l k : list A) :
  l `sublist_of` k → StronglySorted R k → StronglySorted R l.
Proof.
  induction 1 as [|x l k Hsub IH|x l k Hsub IH]; intros Hk; [done|..].
  - apply StronglySorted_inv in Hk as [Hk Hx]. constructor; [by apply IH|].
    apply Forall_forall. intros y Hy. rewrite Forall_forall in Hx.
    apply Hx. by eapply sublist_subseteq.
  - apply StronglySorted_inv in Hk as [Hk _]. by apply IH.
Qed.

(** X11. The books of the corpus stand in code-point order of their ids, and so
    do the categories of every book; every book and category is a directory
    of the tree, and its title is the one of the table of the four histories
    when the table knows the id, else the id. *)
Theorem corpus_in_directory_order (fs : option node) (books : list book) :
  App.load_books_from_raw fs = Ok books →
  StronglySorted str_le (book_id <$> books)
  ∧ Forall (λ b,
      isdir fs [book_id b] = true
      ∧ book_title b = default (book_id b) (cfg_name <$> book_configs !! book_id b)
      ∧ StronglySorted str_le (cat_id <$> book_categories b)
      ∧ Forall (λ c,
          isdir fs [book_id b; cat_id c] = true
          ∧ cat_title c
            = default (cat_id c)
                (cfg ← book_configs !! book_id b; cfg_categories cfg !! cat_id c))
          (book_categories b)) books.
Proof.
  intros Hload. pose proof Hload as Hload'.
  apply app_corpus_loaded in Hload as [Hloaded Hsub]. split.
  - revert Hload'. unfold App.load_books_from_raw.
    destruct (isdir fs RAW_DIR); simpl; [|intros [= <-]; constructor].
    destruct (listdir fs RAW_DIR) as [names|e] eqn:Hnames; [|done]. intros _.
    eapply StronglySorted_sublist; [by apply Hsub|]. apply sorted_sorted.
  - eapply Forall_impl; [exact Hloaded|].
    intros b (Hdir & Htitle & cat_dirs & _ & Hsubc & Hcats). split_and!.
    + done.
    + rewrite Htitle. unfold config_of. by destruct (book_configs !! book_id b).
    + eapply StronglySorted_sublist; [exact Hsubc|]. apply sorted_sorted.
    + eapply Forall_impl; [exact Hcats|]. intros c (Hcdir & Hctitle & _).
      split; [done|]. rewrite Hctitle. unfold config_of.
      destruct (book_configs !! book_id b) as [cfg|]; simpl; [done|].
      by rewrite lookup_empty.
Qed.

Lemma corpus_in_directory_order_witness :
  App.load_books_from_raw demo_fs = Ok demo_books
  ∧ StronglySorted str_le (book_id <$> demo_books)
  ∧ Forall (λ b,
      isdir demo_fs [book_id b] = true
      ∧ book_title b = default (book_id b) (cfg_name <$> book_configs !! book_id b)
      ∧ StronglySorted str_le (cat_id <$> book_categories b)
      ∧ Forall (λ c,
          isdir demo_fs [book_id b; cat_id c] = true
          ∧ cat_title c
            = default (cat_id c)
                (cfg ← book_configs !! book_id b; cfg_categories cfg !! cat_id c))
          (book_categories b)) demo_books.
Proof.
  assert (Hload : App.load_books_from_raw demo_fs = Ok demo_books)
    by (vm_compute; reflexivity).
  split; [exact Hload|]. exact (corpus_in_directory_order demo_fs demo_books Hload).
Defined.

(** ** Chapter titles *)

Lemma split_no_budget (sep : list N) (s : list N) : ∀ cur,
  split_go sep (Some 0) 0 cur s = [reverse cur ++ s].
Proof.
  induction s as [|c s IH]; intros cur; simpl.
  - by rewrite app_nil_r.
  - rewrite IH, reverse_cons, <-app_assoc. done.
Qed.

Lemma split_first_underscore (pre post : list N) : ∀ cur,
  95%N ∉ pre →
  split_go [95%N] (Some 1) 0 cur (pre ++ 95%N :: post)
  = [reverse cur ++ pre; post].
Proof.
  induction pre as [|c pre IH]; intros cur Hpre.
  - simpl. rewrite split_no_budget, app_nil_r. done.
  - apply not_elem_of_cons in Hpre as [Hc Hpre]. cbn [app split_go startswith].
    assert ((95 =? c)%N = false) as -> by (apply N.eqb_neq; congruence).
    cbn [andb]. rewrite (IH _ Hpre), reverse_cons, <-app_assoc. done.
Qed.

Lemma char_in_first (c : N) (s : list N) :
  char_in c s = true → ∃ pre post, s = pre ++ c :: post ∧ c ∉ pre.
Proof.
  induction s as [|d s IH]; simpl; [done|].
  destruct (N.eqb_spec c d) as [->|Hne]; simpl.
  - intros _. exists [], s. split; [done|]. apply not_elem_of_nil.
  - intros Hin. destruct (IH Hin) as (pre & post & -> & Hpre).
    exists (d :: pre), post. split; [done|].
    apply not_elem_of_cons. by split.
Qed.

Lemma char_in_false (c : N) (s : list N) : c ∉ s → char_in c s = false.
Proof.
  induction s as [|d s IH]; simpl; [done|].
  intros [Hne Hs]%not_elem_of_cons.
  rewrite (IH Hs), orb_false_r. by apply N.eqb_neq.
Qed.

Lemma slice_to_extension (stem : list N) :
  slice_to (stem ++ py ".txt") (-4) = stem.
Proof.
  unfold slice_to, slice, clamp, len. rewrite length_app.
  change (length (py ".txt")) with 4.
  change (0 <? 0)%Z with false. change (-4 <? 0)%Z with true. cbn iota.
  replace (Z.to_nat (0 `min` Z.of_nat (length stem + 4))) with 0 by lia.
  replace (Z.to_nat (0 `max` (Z.of_nat (length stem + 4) + -4)
                     - 0 `min` Z.of_nat (length stem + 4)))
    with (length stem) by lia.
  by rewrite drop_0, take_app_length.
Qed.


(** X12. Deriving the chapter title never raises: whatever the file name, the
    title is the name without its last four characters or, when an
    underscore is left, what follows the first underscore. *)
Theorem title_never_raises (filename : list N) :
  ∃ title, title_of_filename filename = Ok title
    ∧ title `suffix_of` slice_to filename (-4)
    ∧ (95%N ∉ slice_to filename (-4) → title = slice_to filename (-4)).
Proof.
  unfold title_of_filename.
  destruct (char_in 95 (slice_to filename (-4))) eqn:Hin.
  - destruct (char_in_first _ _ Hin) as (pre & post & Hstem & Hpre).
    rewrite Hstem. unfold split_max. change (py "_") with [95%N].
    rewrite (split_first_underscore pre post [] Hpre). exists post. simpl.
    split; [done|]. split.
    + exists (pre ++ [95%N]). by rewrite <-app_assoc.
    + intros Hno. exfalso. apply Hno. set_solver.
  - eexists. split; [done|]. split; [done|]. done.
Qed.

Lemma title_prefix_dropped (pre title : list N) :
  95%N ∉ pre →
  title_of_filename (pre ++ py "_" ++ title ++ py ".txt") = Ok title
  ∧ title_of_filename (pre ++ py ".txt") = Ok pre.
Proof.
  intros Hpre. unfold title_of_filename. split.
  - assert (Hname : pre ++ py "_" ++ title ++ py ".txt"
                    = (pre ++ 95%N :: title) ++ py ".txt")
      by (by rewrite <-app_assoc).
    rewrite Hname, slice_to_extension.
    assert (char_in 95 (pre ++ 95%N :: title) = true) as ->.
    { clear. induction pre as [|c pre IH]; simpl; [done|].
      rewrite IH. apply orb_true_r. }
    unfold split_max. change (py "_") with [95%N].
    by rewrite (split_first_underscore pre title [] Hpre).
  - rewrite slice_to_extension. by rewrite char_in_false.
Qed.

(** X13. The numbering prefix comes off and the title comes back: a file named
    [prefix_title.txt], with no underscore in the prefix, gets the title
    [title]; a file [name.txt] without underscore gets [name]. *)
Theorem title_of_prefixed_name (pre title : list N) :
  95%N ∉ pre →
  title_of_filename (pre ++ py "_" ++ title ++ py ".txt") = Ok title
  ∧ title_of_filename (pre ++ py ".txt") = Ok pre.
Proof. exact (title_prefix_dropped pre title). Qed.

Lemma title_of_prefixed_name_witness :
  (95%N ∉ py "01")
  ∧ title_of_filename (py "01" ++ py "_" ++ py "Five_Emperors" ++ py ".txt")
    = Ok (py "Five_Emperors")
  ∧ title_of_filename (py "01" ++ py ".txt") = Ok (py "01").
Proof.
  assert (Hpre : 95%N ∉ py "01").
  { vm_compute. intros Hin. apply elem_of_cons in Hin as [Hin|Hin]; [discriminate|].
    apply elem_of_cons in Hin as [Hin|Hin]; [discriminate|].
    by apply not_elem_of_nil in Hin. }
  split; [exact Hpre|].
  exact (title_of_prefixed_name (py "01") (py "Five_Emperors") Hpre).
Defined.

(** ** The chapter page *)

Lemma first_return_None {A B} (body : A → option B) (l : list A) :
  first_return body l = None ↔ ∀ x, x ∈ l → body x = None.
Proof.
  induction l as [|x l IH]; simpl.
  - split; [|done]. intros _ x Hx. by apply not_elem_of_nil in Hx.
  - destruct (body x) as [y|] eqn:Hx.
    + split; [done|]. intros Hall. specialize (Hall x ltac:(left)). congruence.
    + rewrite IH. split.
      * intros Hall z [->|Hz]%elem_of_cons; [done|by apply Hall].
      * intros Hall z Hz. apply Hall. by right.
Qed.

Lemma first_return_Some {A B} (body : A → option B) (l : list A) (y : B) :
  first_return body l = Some y → ∃ x, x ∈ l ∧ body x = Some y.
Proof.
  induction l as [|x l IH]; simpl; [done|].
  destruct (body x) as [y'|] eqn:Hx.
  - intros [= ->]. exists x. split; [left|done].
  - intros Hy. destruct (IH Hy) as (z & Hz & Hbody). exists z. split; [by right|done].
Qed.

(** The page of one chapter inside its category: what the innermost loop
    returns when it meets a chapter with the id asked for. *)
Lemma chapter_page_body (b : book) (c : category) (ch : chapter)
    (bid cid : list N) (k : nat) :
  ch ∈ cat_chapters c → ch_id ch = k →
  ∃ idx first,
    list_find (λ x, ch_id x = k) (cat_chapters c) = Some (idx, first)
    ∧ match list_find (λ x, ch_id x = k) (cat_chapters c) with
      | None => Some (Failed "StopIteration")
      | Some (chapter_idx, _) =>
        match
          (if 0 <? chapter_idx then
             match cat_chapters c !! (chapter_idx - 1) with
             | Some prev_ch => Ok (Some (chapter_url bid cid (ch_id prev_ch)))
             | None => Raise IndexError
             end
           else Ok None),
          (if chapter_idx <? length (cat_chapters c) - 1 then
             match cat_chapters c !! (chapter_idx + 1) with
             | Some next_ch => Ok (Some (chapter_url bid cid (ch_id next_ch)))
             | None => Raise IndexError
             end
           else Ok None)
        with
        | Ok prev_url, Ok next_url =>
          Some (Rendered
            {| v_book := b; v_category := c;
               v_chapter :=
                 {| d_id := ch_id ch; d_title := ch_title ch;
                    d_wenyan := ch_wenyan ch; d_z := ch_zh ch; d_en := ch_en ch;
                    d_paragraphs := default [] (ch_paragraphs ch) |};
               prev_url := prev_url; next_url := next_url |})
        | _, _ => Some (Failed "IndexError")
        end
      end
      = Some (Rendered (page_view b c ch bid cid idx)).
Proof.
  intros Hch Hk.
  destruct (list_find (λ x, ch_id x = k) (cat_chapters c)) as [[idx first]|] eqn:Hfind.
  2:{ apply list_find_None in Hfind. rewrite Forall_forall in Hfind.
      by destruct (Hfind ch Hch). }
  apply list_find_Some in Hfind as (Hidx & _ & _).
  pose proof (lookup_lt_Some _ _ _ Hidx) as Hlt.
  exists idx, first. split; [done|]. unfold page_view, link_to, display.
  destruct (0 <? idx) eqn:Hpos.
  - apply Nat.ltb_lt in Hpos.
    destruct (lookup_lt_is_Some_2 (cat_chapters c) (idx - 1)) as [p Hp]; [lia|].
    rewrite Hp. destruct (idx <? length (cat_chapters c) - 1) eqn:Hlast.
    + apply Nat.ltb_lt in Hlast.
      destruct (lookup_lt_is_Some_2 (cat_chapters c) (idx + 1)) as [n Hn]; [lia|].
      by rewrite Hn.
    + done.
  - destruct (idx <? length (cat_chapters c) - 1) eqn:Hlast; [|done].
    apply Nat.ltb_lt in Hlast.
    destruct (lookup_lt_is_Some_2 (cat_chapters c) (idx + 1)) as [n Hn]; [lia|].
    by rewrite Hn.
Qed.

Lemma chapter_page_cases (BOOKS : list book) (bid cid : list N) (k : nat) :
  (chapter_page BOOKS bid cid k = Aborted 404
   ∧ ∀ b c ch, ¬ chapter_at BOOKS bid cid k b c ch)
  ∨ ∃ b c ch idx first,
      chapter_at BOOKS bid cid k b c ch
      ∧ list_find (λ x, ch_id x = k) (cat_chapters c) = Some (idx, first)
      ∧ chapter_page BOOKS bid cid k = Rendered (page_view b c ch bid cid idx).
Proof.
  unfold chapter_page.
  match goal with |- context [first_return ?f BOOKS] => set (per_book := f) end.
  destruct (first_return per_book BOOKS) as [r|] eqn:Hfound.
  - right. apply first_return_Some in Hfound as (b & Hb & Hbody).
    unfold per_book in Hbody. unfold str_eqb in Hbody.
    case_bool_decide as Hbid; [|done].
    apply first_return_Some in Hbody as (c & Hc & Hbody).
    case_bool_decide as Hcid; [|done].
    apply first_return_Some in Hbody as (ch & Hch & Hbody).
    destruct (ch_id ch =? k) eqn:Hk; [|done]. apply Nat.eqb_eq in Hk.
    destruct (chapter_page_body b c ch bid cid k Hch Hk)
      as (idx & first & Hfind & Hpage).
    rewrite Hpage in Hbody. injection Hbody as <-.
    exists b, c, ch, idx, first. by repeat split.
  - left. split; [done|]. intros b c ch (Hb & Hbid & Hc & Hcid & Hch & Hk).
    rewrite first_return_None in Hfound. specialize (Hfound b Hb).
    unfold per_book, str_eqb in Hfound.
    rewrite bool_decide_eq_true_2 in Hfound by done.
    rewrite first_return_None in Hfound. specialize (Hfound c Hc).
    rewrite bool_decide_eq_true_2 in Hfound by done.
    rewrite first_return_None in Hfound. specialize (Hfound ch Hch).
    apply Nat.eqb_eq in Hk as Hk'. rewrite Hk' in Hfound.
    destruct (chapter_page_body b c ch bid cid k Hch Hk)
      as (idx & first & Hfind & Hpage).
    by rewrite Hpage in Hfound.
Qed.

(** X14. The chapter page never fails: it is a 404 exactly when no chapter of
    the corpus has the three ids asked for, and otherwise the page of such a
    chapter, in its own book and category. *)
Theorem chapter_page_outcome (BOOKS : list book) (bid cid : list N) (k : nat) :
  (chapter_page BOOKS bid cid k = Aborted 404
   ↔ ∀ b c ch, ¬ chapter_at BOOKS bid cid k b c ch)
  ∧ (∀ e, chapter_page BOOKS bid cid k ≠ Failed e)
  ∧ (∀ v, chapter_page BOOKS bid cid k = Rendered v →
       ∃ b c ch idx first,
         chapter_at BOOKS bid cid k b c ch
         ∧ list_find (λ x, ch_id x = k) (cat_chapters c) = Some (idx, first)
         ∧ v = page_view b c ch bid cid idx).
Proof.
  destruct (chapter_page_cases BOOKS bid cid k)
    as [[H404 Hnone]|(b & c & ch & idx & first & Hat & Hfind & Hpage)].
  - rewrite H404. split_and!; done.
  - rewrite Hpage. split_and!.
    + split; [done|]. intros Hnone. by destruct (Hnone b c ch).
    + done.
    + intros v [= <-]. by exists b, c, ch, idx, first.
Qed.

Lemma corpus_ids_contiguous fs books b c :
  App.load_books_from_raw fs = Ok books →
  b ∈ books → c ∈ book_categories b →
  ch_id <$> cat_chapters c = seq 1 (length (cat_chapters c)).
Proof.
  intros Hload Hb Hc. apply chapters_mirror_files_all in Hload.
  rewrite Forall_forall in Hload. specialize (Hload b Hb).
  rewrite Forall_forall in Hload.
  destruct (Hload c Hc) as (files & _ & Hfrom & Hids).
  by rewrite (Forall2_length _ _ _ Hfrom).
Qed.

(** X15. In the corpus [app.py] builds, the page of chapter [k] of a category of
    [n] chapters links back to chapter [k - 1], or nowhere when [k] is 1, and
    on to chapter [k + 1], or nowhere when [k] is [n]; a page exists only
    for [k] from 1 to [n]. *)
Theorem chapter_navigation (fs : option node) (BOOKS : list book)
    (bid cid : list N) (k : nat) (v : chapter_view) :
  App.load_books_from_raw fs = Ok BOOKS →
  chapter_page BOOKS bid cid k = Rendered v →
  1 ≤ k ≤ length (cat_chapters (v_category v))
  ∧ d_id (v_chapter v) = k
  ∧ prev_url v
    = (if decide (k = 1) then None else Some (chapter_url bid cid (k - 1)))
  ∧ next_url v
    = (if decide (k = length (cat_chapters (v_category v))) then None
       else Some (chapter_url bid cid (k + 1))).
Proof.
  intros Hload Hpage.
  destruct (chapter_page_cases BOOKS bid cid k)
    as [[H404 _]|(b & c & ch & idx & first & Hat & Hfind & Hview)];
    [congruence|].
  rewrite Hview in Hpage. injection Hpage as <-.
  destruct Hat as (Hb & _ & Hc & _ & Hch & Hk).
  pose proof (corpus_ids_contiguous fs BOOKS b c Hload Hb Hc) as Hids.
  apply list_find_Some in Hfind as (Hidx & Hfirst & _).
  assert (Hat_idx : ∀ i x, cat_chapters c !! i = Some x → ch_id x = S i).
  { intros i x Hx.
    assert (Hi : (ch_id <$> cat_chapters c) !! i = Some (ch_id x))
      by (by rewrite list_lookup_fmap, Hx).
    rewrite Hids in Hi. apply lookup_seq in Hi as [-> _]. done. }
  pose proof (Hat_idx idx first Hidx) as Hk'.
  pose proof (lookup_lt_Some _ _ _ Hidx) as Hlt.
  cbn [page_view v_category v_chapter prev_url next_url display d_id].
  split; [lia|]. split; [done|]. unfold link_to. split.
  - destruct (0 <? idx) eqn:Hpos.
    + apply Nat.ltb_lt in Hpos.
      destruct (lookup_lt_is_Some_2 (cat_chapters c) (idx - 1)) as [p Hp]; [lia|].
      rewrite Hp. simpl. rewrite (Hat_idx _ _ Hp).
      case_decide; [lia|]. do 2 f_equal. lia.
    + apply Nat.ltb_ge in Hpos. case_decide; [done|lia].
  - destruct (idx <? length (cat_chapters c) - 1) eqn:Hlast.
    + apply Nat.ltb_lt in Hlast.
      destruct (lookup_lt_is_Some_2 (cat_chapters c) (idx + 1)) as [n Hn]; [lia|].
      rewrite Hn. simpl. rewrite (Hat_idx _ _ Hn).
      case_decide; [lia|]. do 2 f_equal. lia.
    + apply Nat.ltb_ge in Hlast. case_decide; [done|lia].
Qed.

Lemma chapter_navigation_witness :
  App.load_books_from_raw demo_fs = Ok demo_books
  ∧ chapter_page demo_books (py "shiji") (py "benji") 1
    = Rendered (page_view demo_shiji demo_benji demo_five_emperors
                  (py "shiji") (py "benji") 0)
  ∧ 1 ≤ 1 ≤ 2
  ∧ 1 = 1
  ∧ None = (if decide (1 = 1) then None
            else Some (chapter_url (py "shiji") (py "benji") (1 - 1)))
  ∧ Some (chapter_url (py "shiji") (py "benji") 2)
    = (if decide (1 = 2) then None
       else Some (chapter_url (py "shiji") (py "benji") (1 + 1))).
Proof.
  assert (Hload : App.load_books_from_raw demo_fs = Ok demo_books)
    by (vm_compute; reflexivity).
  assert (Hpage : chapter_page demo_books (py "shiji") (py "benji") 1
                  = Rendered (page_view demo_shiji demo_benji demo_five_emperors
                                (py "shiji") (py "benji") 0))
    by (vm_compute; reflexivity).
  split; [exact Hload|]. split; [exact Hpage|].
  exact (chapter_navigation demo_fs demo_books (py "shiji") (py "benji") 1 _
           Hload Hpage).
Defined.

(** ** When the scan returns *)










(** ** Trimming *)

Lemma lstrip_suffix (s : list N) : lstrip s `suffix_of` s.
Proof.
  induction s as [|c s IH]; simpl; [done|].
  destruct (is_space c); [|done]. by apply suffix_cons_r.
Qed.

Lemma lstrip_head (s : list N) (c : N) (t : list N) :
  lstrip s = c :: t → is_space c = false.
Proof.
  induction s as [|d s IH]; simpl; [done|].
  destruct (is_space d) eqn:Hd; [done|]. by intros [= <- _].
Qed.

Lemma lstrip_id (s : list N) :
  match s with [] => True | c :: _ => is_space c = false end → lstrip s = s.
Proof. destruct s as [|c s]; simpl; [done|]. by intros ->. Qed.

Lemma lstrip_nil (s : list N) : lstrip s = [] ↔ Forall (λ c, is_space c = true) s.
Proof.
  induction s as [|c s IH]; simpl; [done|].
  destruct (is_space c) eqn:Hc.
  - rewrite IH. split; [by constructor|]. by intros [_ ?]%Forall_cons.
  - split; [done|]. intros [? _]%Forall_cons. congruence.
Qed.

Lemma rstrip_prefix (s : list N) : rstrip s `prefix_of` s.
Proof.
  unfold rstrip. destruct (lstrip_suffix (reverse s)) as [k Hk].
  exists (reverse k). apply (f_equal reverse) in Hk.
  by rewrite reverse_involutive, reverse_app in Hk.
Qed.

Lemma strip_nil (s : list N) : strip s = [] ↔ Forall (λ c, is_space c = true) s.
Proof.
  unfold strip, rstrip. split.
  - intros Hs. apply (f_equal reverse) in Hs.
    rewrite reverse_involutive in Hs. change (reverse []) with (@nil N) in Hs.
    apply lstrip_nil in Hs. rewrite Forall_reverse in Hs.
    destruct (lstrip_suffix s) as [k Hk].
    destruct (lstrip s) as [|c t] eqn:Hl.
    + by apply lstrip_nil.
    + apply lstrip_head in Hl. apply Forall_cons in Hs as [? _]. congruence.
  - intros Hs. apply lstrip_nil in Hs as ->. done.
Qed.

Lemma strip_infix (s : list N) : ∃ before after, s = before ++ strip s ++ after.
Proof.
  unfold strip. destruct (lstrip_suffix s) as [before Hb].
  destruct (rstrip_prefix (lstrip s)) as [after Ha].
  exists before, after. by rewrite <-Ha.
Qed.

Lemma strip_trimmed (s : list N) : trimmed (strip s).
Proof.
  unfold strip, rstrip, trimmed. rewrite reverse_involutive. split.
  - destruct (lstrip s) as [|c t] eqn:Hl; [done|].
    pose proof (lstrip_head _ _ _ Hl) as Hc.
    destruct (lstrip_suffix (reverse (c :: t))) as [k Hk].
    apply (f_equal reverse) in Hk.
    rewrite reverse_involutive, reverse_app in Hk.
    destruct (reverse (lstrip (reverse (c :: t)))) as [|d r]; [done|].
    simpl in Hk. by injection Hk as <- _.
  - destruct (lstrip (reverse (lstrip s))) as [|c t] eqn:Hl; [done|].
    by apply lstrip_head in Hl.
Qed.

Lemma trimmed_strip (s : list N) : trimmed s → strip s = s.
Proof.
  intros [Hhead Hlast]. unfold strip, rstrip.
  rewrite (lstrip_id s Hhead), (lstrip_id (reverse s) Hlast).
  apply reverse_involutive.
Qed.

Lemma strip_idempotent (s : list N) : strip (strip s) = strip s.
Proof. apply trimmed_strip, strip_trimmed. Qed.

(** ** Splitting *)

Lemma split_newline_lines (s : list N) : ∀ cur,
  NL ∉ cur → Forall (λ line, NL ∉ line) (split_go newline None 0 cur s).
Proof.
  induction s as [|c s IH]; intros cur Hcur.
  - simpl. apply Forall_singleton. by rewrite elem_of_reverse.
  - cbn [split_go startswith newline]. destruct (N.eqb_spec NL c) as [<-|Hne].
    + cbn [andb fmap option_fmap option_map length Nat.sub].
      constructor; [by rewrite elem_of_reverse|]. apply IH, not_elem_of_nil.
    + cbn [andb]. apply IH. apply not_elem_of_cons. split; [congruence|done].
Qed.

Lemma no_newline_no_blank_line (s : list N) : NL ∉ s → no_blank_line s = true.
Proof.
  induction s as [|c s IH]; [done|]. intros [Hc Hs]%not_elem_of_cons. simpl.
  rewrite (IH Hs). destruct (N.eqb_spec c NL); [congruence|done].
Qed.

Lemma split_blank_part (part rest : list N) : ∀ cur,
  no_blank_line part = true →
  split_go blank_line None 0 cur (part ++ NL :: NL :: rest)
  = (reverse cur ++ part) :: split_go blank_line None 0 [] rest.
Proof.
  induction part as [|c part IH]; intros cur Hpart.
  - cbn [app split_go startswith blank_line]. rewrite N.eqb_refl.
    cbn [andb fmap option_fmap option_map length Nat.sub]. by rewrite app_nil_r.
  - cbn [no_blank_line] in Hpart. apply andb_true_iff in Hpart as [Hc Hpart].
    cbn [app split_go startswith blank_line].
    assert (Hno : ((NL =? c)%N && match part ++ NL :: NL :: rest with
                                  | [] => false
                                  | d :: s' => (NL =? d)%N && true
                                  end) = false).
    { destruct (N.eqb_spec NL c) as [<-|Hne]; [|done].
      change ((NL =? NL)%N) with true in Hc. cbn iota in Hc.
      destruct part as [|d part]; [done|]. cbn [app andb].
      rewrite andb_true_r, N.eqb_sym. by apply negb_true_iff. }
    rewrite Hno, (IH _ Hpart), reverse_cons, <-app_assoc. done.
Qed.

Lemma split_blank_last (part : list N) : ∀ cur,
  no_blank_line part = true →
  split_go blank_line None 0 cur part = [reverse cur ++ part].
Proof.
  induction part as [|c part IH]; intros cur Hpart.
  - simpl. by rewrite app_nil_r.
  - cbn [no_blank_line] in Hpart. apply andb_true_iff in Hpart as [Hc Hpart].
    cbn [split_go startswith blank_line].
    assert (Hno : ((NL =? c)%N && match part with
                                  | [] => false
                                  | d :: s' => (NL =? d)%N && true
                                  end) = false).
    { destruct (N.eqb_spec NL c) as [<-|Hne]; [|done].
      change ((NL =? NL)%N) with true in Hc. cbn iota in Hc.
      destruct part as [|d part]; [done|]. cbn [app andb].
      rewrite andb_true_r, N.eqb_sym. by apply negb_true_iff. }
    rewrite Hno, (IH _ Hpart), reverse_cons, <-app_assoc. done.
Qed.

Lemma split_join_blank (parts : list (list N)) :
  parts ≠ [] → Forall (λ part, no_blank_line part = true) parts →
  split blank_line (join blank_line parts) = parts.
Proof.
  intros Hne Hparts. unfold split.
  induction Hparts as [|part parts Hpart Hparts IH]; [done|].
  destruct parts as [|part' parts].
  - simpl. by rewrite split_blank_last.
  - change (join blank_line (part :: part' :: parts))
      with (part ++ NL :: NL :: join blank_line (part' :: parts)).
    rewrite split_blank_part by done. by rewrite IH.
Qed.

(** ** The shape of parsed paragraphs *)

Lemma one_line_nil : one_line [].
Proof. split; [done|apply not_elem_of_nil]. Qed.

Lemma group_lines_shape (group : list N) :
  Forall (λ line, line ≠ [] ∧ one_line line) (group_lines group).
Proof.
  unfold group_lines. apply Forall_fmap, Forall_forall. intros x Hx.
  apply list_elem_of_filter in Hx as [Hne Hx]. simpl. split; [done|]. split.
  - apply strip_idempotent.
  - pose proof (split_newline_lines group [] (not_elem_of_nil _)) as Hlines.
    rewrite Forall_forall in Hlines. specialize (Hlines x Hx).
    destruct (strip_infix x) as (before & after & Hxs). intros Hin.
    apply Hlines. rewrite Hxs. set_solver.
Qed.

Lemma group_paragraph_shaped (lines : list (list N)) :
  Forall (λ line, line ≠ [] ∧ one_line line) lines →
  Forall paragraph_shaped (group_paragraph lines).
Proof.
  intros Hlines.
  destruct lines as [|l1 [|l2 [|l3 rest]]]; simpl; [constructor|..];
    repeat match goal with
    | H : Forall _ (_ :: _) |- _ => apply Forall_cons in H as [[? ?] H]
    end;
    apply Forall_singleton; unfold paragraph_shaped;
    change (field wenyan _) with l1;
    first [change (field baihua _) with l2 | change (field baihua _) with (@nil N)];
    first [change (field english _) with l3 | change (field english _) with (@nil N)];
    split_and!; try done; apply one_line_nil.
Qed.

Lemma app_parse_paragraphs fs file_path res :
  App.parse_three_parallel_file fs file_path = Ok res →
  ∃ groups, p_paragraphs res
            = Some (groups ≫= λ g, group_paragraph (group_lines g)).
Proof.
  destruct (read_text fs file_path) as [raw|e] eqn:Hread.
  - rewrite (app_parse_read _ _ _ Hread). cbn zeta. intros [= <-].
    exists (paragraph_groups raw). cbn [p_paragraphs].
    by rewrite app_paragraphs_foldl.
  - unfold App.parse_three_parallel_file. rewrite Hread.
    destruct e; try done. intros [= <-]. by exists [].
Qed.

Lemma app_parse_shaped fs file_path res :
  App.parse_three_parallel_file fs file_path = Ok res →
  Forall paragraph_shaped (default [] (p_paragraphs res)).
Proof.
  intros Hparse. destruct (app_parse_paragraphs _ _ _ Hparse) as [groups ->].
  simpl. apply Forall_bind, Forall_forall. intros g _.
  apply group_paragraph_shaped, group_lines_shape.
Qed.

(** X17. Every paragraph the parser returns has an original text; it has an
    English text only if it has a vernacular one; and each of its three
    fields is trimmed and holds no newline. *)
Theorem paragraphs_are_shaped (fs : option node) (file_path : list (list N))
    (res : parsed) :
  App.parse_three_parallel_file fs file_path = Ok res →
  Forall paragraph_shaped (default [] (p_paragraphs res)).
Proof. apply app_parse_shaped. Qed.

Lemma paragraphs_are_shaped_witness :
  Forall paragraph_shaped
    [mk_paragraph (py "Yu the Great") (py "Yu tamed the flood") (py "Xia annals");
     mk_paragraph (py "Qi") (py "the son of Yu") []].
Proof.
  apply (paragraphs_are_shaped demo_fs demo_xia_path
    {| p_wenyan := py "Yu the Great" ++ blank_line ++ py "Qi";
       p_zh := py "Yu tamed the flood" ++ blank_line ++ py "the son of Yu";
       p_en := py "Xia annals" ++ blank_line;
       p_paragraphs :=
         Some [mk_paragraph (py "Yu the Great") (py "Yu tamed the flood")
                 (py "Xia annals");
               mk_paragraph (py "Qi") (py "the son of Yu") []] |}).
  vm_compute. reflexivity.
Defined.

(** X18. The paragraphs can be read back from a full text: when the parser
    returns at least one paragraph, splitting each of the three full-text
    strings at the blank-line separator gives back that field of the
    paragraphs, one piece per paragraph, empty fields included. *)
Theorem full_text_splits_back (fs : option node) (file_path : list (list N))
    (res : parsed) (ps : list (gmap string (list N))) :
  App.parse_three_parallel_file fs file_path = Ok res →
  p_paragraphs res = Some ps → ps ≠ [] →
  split blank_line (p_wenyan res) = field wenyan <$> ps
  ∧ split blank_line (p_zh res) = field baihua <$> ps
  ∧ split blank_line (p_en res) = field english <$> ps.
Proof.
  intros Hparse Hps Hne.
  destruct (full_text_chapter _ _ _ Hparse) as (ps' & Hps' & -> & -> & ->).
  assert (ps' = ps) as -> by congruence.
  pose proof (app_parse_shaped _ _ _ Hparse) as Hshape.
  rewrite Hps in Hshape. simpl in Hshape.
  assert (Hfield : ∀ lang,
    split blank_line (join blank_line (field lang <$> ps)) = field lang <$> ps).
  { intros lang. apply split_join_blank.
    - by destruct ps.
    - apply Forall_fmap. eapply Forall_impl; [exact Hshape|].
      intros p (_ & _ & [_ Hw] & [_ Hz] & [_ He]). simpl.
      apply no_newline_no_blank_line. by destruct lang. }
  by rewrite !Hfield.
Qed.

Lemma full_text_splits_back_witness :
  split blank_line (py "Yu the Great" ++ blank_line ++ py "Qi")
  = field wenyan <$> [mk_paragraph (py "Yu the Great") (py "Yu tamed the flood")
                        (py "Xia annals");
                      mk_paragraph (py "Qi") (py "the son of Yu") []]
  ∧ split blank_line (py "Yu tamed the flood" ++ blank_line ++ py "the son of Yu")
    = field baihua <$> [mk_paragraph (py "Yu the Great") (py "Yu tamed the flood")
                          (py "Xia annals");
                        mk_paragraph (py "Qi") (py "the son of Yu") []]
  ∧ split blank_line (py "Xia annals" ++ blank_line)
    = field english <$> [mk_paragraph (py "Yu the Great") (py "Yu tamed the flood")
                           (py "Xia annals");
                         mk_paragraph (py "Qi") (py "the son of Yu") []].
Proof.
  apply (full_text_splits_back demo_fs demo_xia_path
    {| p_wenyan := py "Yu the Great" ++ blank_line ++ py "Qi";
       p_zh := py "Yu tamed the flood" ++ blank_line ++ py "the son of Yu";
       p_en := py "Xia annals" ++ blank_line;
       p_paragraphs :=
         Some [mk_paragraph (py "Yu the Great") (py "Yu tamed the flood")
                 (py "Xia annals");
               mk_paragraph (py "Qi") (py "the son of Yu") []] |}).
  - vm_compute. reflexivity.
  - reflexivity.
  - discriminate.
Defined.

(** ** Nothing but white space is dropped whole *)

Lemma split_go_nonempty sep budget skip cur (s : list N) :
  split_go sep budget skip cur s ≠ [].
Proof.
  revert budget skip cur. induction s as [|c s IH]; intros budget skip cur; [done|].
  simpl. destruct skip; [|apply IH].
  destruct budget as [[|n]|]; [apply IH|..]; by destruct (startswith sep (c :: s)).
Qed.

Lemma join_cons (sep p : list N) (ps : list (list N)) :
  ps ≠ [] → join sep (p :: ps) = p ++ sep ++ join sep ps.
Proof. by destruct ps. Qed.

Lemma join_split_newline (s : list N) : ∀ cur,
  join newline (split_go newline None 0 cur s) = reverse cur ++ s.
Proof.
  induction s as [|c s IH]; intros cur.
  - simpl. by rewrite app_nil_r.
  - cbn [split_go startswith newline]. destruct (N.eqb_spec NL c) as [<-|Hne].
    + cbn [andb fmap option_fmap option_map length Nat.sub].
      rewrite join_cons by apply split_go_nonempty. by rewrite IH.
    + cbn [andb]. rewrite IH, reverse_cons, <-app_assoc. done.
Qed.

Lemma split_blank_step (c : N) (s cur : list N) :
  split_go blank_line None 0 cur (c :: s)
  = match s with
    | d :: s' =>
      if ((c =? NL)%N && (d =? NL)%N)
      then reverse cur :: split_go blank_line None 0 [] s'
      else split_go blank_line None 0 (c :: cur) s
    | [] => split_go blank_line None 0 (c :: cur) s
    end.
Proof.
  cbn [split_go]. unfold blank_line at 1. cbn [startswith].
  rewrite (N.eqb_sym NL c). destruct s as [|d s].
  - by rewrite andb_false_r.
  - rewrite (N.eqb_sym NL d), andb_true_r.
    by destruct (c =? NL)%N, (d =? NL)%N.
Qed.

Lemma join_split_blank (n : nat) : ∀ (s cur : list N), length s ≤ n →
  join blank_line (split_go blank_line None 0 cur s) = reverse cur ++ s.
Proof.
  induction n as [|n IH]; intros [|c s] cur Hn; simpl in Hn; try lia.
  - simpl. by rewrite app_nil_r.
  - simpl. by rewrite app_nil_r.
  - rewrite split_blank_step. destruct s as [|d s].
    + rewrite IH by (simpl; lia). by rewrite reverse_cons, <-app_assoc.
    + destruct (N.eqb_spec c NL) as [->|Hc]; cbn [andb];
        [destruct (N.eqb_spec d NL) as [->|Hd]|].
      * rewrite join_cons by apply split_go_nonempty.
        rewrite IH by (simpl in Hn; lia). done.
      * rewrite IH by (simpl in *; lia). by rewrite reverse_cons, <-app_assoc.
      * rewrite IH by (simpl in *; lia). by rewrite reverse_cons, <-app_assoc.
Qed.

Lemma join_spaces (sep : list N) (parts : list (list N)) :
  Forall (λ c, is_space c = true) sep →
  Forall (Forall (λ c, is_space c = true)) parts →
  Forall (λ c, is_space c = true) (join sep parts).
Proof.
  intros Hsep Hparts. induction Hparts as [|p ps Hp Hps IH]; [constructor|].
  destruct ps as [|q ps]; [done|].
  change (join sep (p :: q :: ps)) with (p ++ sep ++ join sep (q :: ps)).
  by rewrite !Forall_app.
Qed.

Lemma blank_group_spaces (group : list N) :
  group_lines group = [] → Forall (λ c, is_space c = true) group.
Proof.
  unfold group_lines. intros Hlines. apply fmap_nil_inv in Hlines.
  pose proof (join_split_newline group []) as Hjoin. simpl in Hjoin.
  rewrite <-Hjoin. apply join_spaces; [by repeat constructor|].
  apply Forall_forall. intros line Hline. apply strip_nil.
  destruct (decide (strip line = [])) as [|Hne]; [done|].
  assert (Hin : line ∈ filter (λ l, strip l ≠ []) (split newline group))
    by (by apply list_elem_of_filter).
  rewrite Hlines in Hin. by apply not_elem_of_nil in Hin.
Qed.

Lemma blank_groups_spaces (content : list N) :
  (split blank_line content ≫= λ g, group_paragraph (group_lines g)) = [] →
  Forall (λ c, is_space c = true) content.
Proof.
  intros Hnone.
  pose proof (join_split_blank (length content) content [] (le_n _)) as Hjoin.
  simpl in Hjoin. rewrite <-Hjoin. apply join_spaces; [by repeat constructor|].
  apply Forall_forall. intros g Hg. apply blank_group_spaces.
  destruct (group_lines g) as [|l1 rest] eqn:Hlines; [done|].
  assert (Hin : group_paragraph (l1 :: rest) ⊆ []).
  { rewrite <-Hnone. intros p Hp. apply list_elem_of_bind. exists g.
    by rewrite Hlines. }
  destruct rest as [|l2 [|l3 rest]]; simpl in Hin;
    by destruct (not_elem_of_nil _ (Hin _ ltac:(left))).
Qed.

(** X19. The parser returns no paragraph exactly when the file is missing or
    holds nothing but white space: a file with any other character gives at
    least one paragraph. *)
Theorem no_paragraphs_iff_blank (fs : option node) (file_path : list (list N))
    (res : parsed) :
  App.parse_three_parallel_file fs file_path = Ok res →
  default [] (p_paragraphs res) = []
  ↔ read_text fs file_path = Raise FileNotFoundError
    ∨ ∃ raw, read_text fs file_path = Ok raw
             ∧ Forall (λ c, is_space c = true) raw.
Proof.
  destruct (read_text fs file_path) as [raw|e] eqn:Hread.
  - intros Hparse. split.
    + intros Hnone. right. exists raw. split; [done|]. apply strip_nil.
      rewrite (app_parse_read _ _ _ Hread) in Hparse. cbn zeta in Hparse.
      injection Hparse as <-. cbn [p_paragraphs default] in Hnone.
      rewrite app_paragraphs_foldl in Hnone. cbn [App.paragraphs app] in Hnone.
      unfold paragraph_groups in Hnone. apply blank_groups_spaces in Hnone.
      apply strip_nil in Hnone. by rewrite strip_idempotent in Hnone.
    + intros [?|(raw' & [= <-] & Hblank)]; [done|]. apply strip_nil in Hblank.
      unfold App.parse_three_parallel_file in Hparse.
      rewrite Hread, Hblank in Hparse. by injection Hparse as <-.
  - unfold App.parse_three_parallel_file. rewrite Hread.
    destruct e; try done. intros [= <-]. split; [by left|done].
Qed.

Lemma no_paragraphs_iff_blank_witness :
  default [] (Some [mk_paragraph (py "Yu the Great") (py "Yu tamed the flood")
                      (py "Xia annals");
                    mk_paragraph (py "Qi") (py "the son of Yu") []]) = []
  ↔ read_text demo_fs demo_xia_path = Raise FileNotFoundError
    ∨ ∃ raw, read_text demo_fs demo_xia_path = Ok raw
             ∧ Forall (λ c, is_space c = true) raw.
Proof.
  apply (no_paragraphs_iff_blank demo_fs demo_xia_path
    {| p_wenyan := py "Yu the Great" ++ blank_line ++ py "Qi";
       p_zh := py "Yu tamed the flood" ++ blank_line ++ py "the son of Yu";
       p_en := py "Xia annals" ++ blank_line;
       p_paragraphs :=
         Some [mk_paragraph (py "Yu the Great") (py "Yu tamed the flood")
                 (py "Xia annals");
               mk_paragraph (py "Qi") (py "the son of Yu") []] |}).
  vm_compute. reflexivity.
Defined.

(** ** batch_import.py: file names *)

Section SafeNames.
Context {words : WordChars}.

Lemma safe_filename_take (text : list N) (n : nat) :
  BatchImport.safe_filename text (Z.of_nat n)
  = (λ c, if is_word c || BatchImport.cjk c then c else 95%N) <$> take n text.
Proof. unfold BatchImport.safe_filename. by rewrite slice_to_take, fmap_take. Qed.

(** X20. A safe file name is the text cut at [max_length] characters, each
    character kept or replaced by an underscore: what is kept is a word
    character or a CJK ideograph, what is replaced is neither. *)
Theorem safe_filename_shape (text : list N) (max_length : Z) :
  (0 ≤ max_length)%Z →
  length (BatchImport.safe_filename text max_length)
  = length text `min` Z.to_nat max_length
  ∧ Forall2 (λ c d, (d = c ∧ (is_word c = true ∨ BatchImport.cjk c = true))
                    ∨ (d = 95%N ∧ is_word c = false ∧ BatchImport.cjk c = false))
      (take (Z.to_nat max_length) text)
      (BatchImport.safe_filename text max_length).
Proof.
  intros Hmax. rewrite <-(Z2Nat.id max_length Hmax).
  generalize (Z.to_nat max_length). intros n.
  rewrite Nat2Z.id, safe_filename_take. split.
  - rewrite length_fmap, length_take. lia.
  - apply Forall2_fmap_r, Forall_Forall2_diag, Forall_forall. intros c _.
    unfold compose.
    destruct (is_word c) eqn:Hw, (BatchImport.cjk c) eqn:Hc; simpl; auto.
Qed.

(** X21. The file name of an imported chapter is read back by the loader as the
    safe form of its title: the chapter number, padded to two digits, is the
    prefix the loader drops.  Without a number the same holds when the safe
    title has no underscore. *)
Theorem imported_title_read_back (chapter_num title : list N) :
  95%N ∉ chapter_num →
  (chapter_num = [] → 95%N ∉ BatchImport.safe_filename title 50) →
  title_of_filename (BatchImport.chapter_filename chapter_num title)
  = Ok (BatchImport.safe_filename title 50).
Proof.
  intros Hnum Htitle. unfold BatchImport.chapter_filename.
  destruct chapter_num as [|c num].
  - by apply title_prefix_dropped, Htitle.
  - apply title_prefix_dropped. unfold BatchImport.zero_padded.
    intros [Hin|Hin]%elem_of_app; [|done].
    apply elem_of_replicate in Hin as [? _]. done.
Qed.

End SafeNames.

Lemma safe_filename_shape_witness :
  (0 ≤ 4)%Z
  ∧ length (BatchImport.safe_filename (words := ascii_words) (py "a b/c.d") 4)
    = length (py "a b/c.d") `min` Z.to_nat 4
  ∧ Forall2 (λ c d, (d = c ∧ (ascii_word c = true ∨ BatchImport.cjk c = true))
                    ∨ (d = 95%N ∧ ascii_word c = false
                       ∧ BatchImport.cjk c = false))
      (take (Z.to_nat 4) (py "a b/c.d"))
      (BatchImport.safe_filename (words := ascii_words) (py "a b/c.d") 4).
Proof.
  split; [lia|].
  apply (safe_filename_shape (words := ascii_words) (py "a b/c.d") 4). lia.
Defined.

Lemma imported_title_read_back_witness :
  title_of_filename
    (BatchImport.chapter_filename (words := ascii_words) (py "2") (py "Xia annals"))
  = Ok (BatchImport.safe_filename (words := ascii_words) (py "Xia annals") 50).
Proof.
  apply (imported_title_read_back (words := ascii_words) (py "2") (py "Xia annals")).
  - vm_compute. intros Hin. apply elem_of_cons in Hin as [Hin|Hin]; [discriminate|].
    by apply not_elem_of_nil in Hin.
  - discriminate.
Defined.

(** ** batch_import.py: the content of a chapter file *)

Lemma split_newline_part (part rest : list N) : ∀ cur,
  NL ∉ part →
  split_go newline None 0 cur (part ++ NL :: rest)
  = (reverse cur ++ part) :: split_go newline None 0 [] rest.
Proof.
  induction part as [|c part IH]; intros cur Hpart.
  - cbn [app split_go startswith newline]. rewrite N.eqb_refl.
    cbn [andb fmap option_fmap option_map length Nat.sub]. by rewrite app_nil_r.
  - apply not_elem_of_cons in Hpart as [Hc Hpart].
    cbn [app split_go startswith newline].
    destruct (N.eqb_spec NL c) as [|_]; [congruence|]. cbn [andb].
    rewrite IH by done. by rewrite reverse_cons, <-app_assoc.
Qed.

Lemma split_newline_last (part : list N) : ∀ cur,
  NL ∉ part → split_go newline None 0 cur part = [reverse cur ++ part].
Proof.
  induction part as [|c part IH]; intros cur Hpart.
  - simpl. by rewrite app_nil_r.
  - apply not_elem_of_cons in Hpart as [Hc Hpart].
    cbn [split_go startswith newline].
    destruct (N.eqb_spec NL c) as [|_]; [congruence|]. cbn [andb].
    rewrite IH by done. by rewrite reverse_cons, <-app_assoc.
Qed.

Lemma split_join_newline (lines : list (list N)) :
  lines ≠ [] → Forall (λ line, NL ∉ line) lines →
  split newline (join newline lines) = lines.
Proof.
  intros Hne Hlines. unfold split.
  induction Hlines as [|line lines Hline Hlines IH]; [done|].
  destruct lines as [|line' lines].
  - simpl. by rewrite split_newline_last.
  - change (join newline (line :: line' :: lines))
      with (line ++ NL :: join newline (line' :: lines)).
    rewrite split_newline_part by done. by rewrite IH.
Qed.

Lemma join_trimmed (sep : list N) (parts : list (list N)) :
  parts ≠ [] → Forall (λ part, part ≠ [] ∧ trimmed part) parts →
  join sep parts ≠ [] ∧ trimmed (join sep parts).
Proof.
  intros Hne Hparts.
  induction Hparts as [|part parts [Hpart Htrim] Hparts IH]; [done|].
  destruct parts as [|part' parts]; [done|].
  destruct (IH ltac:(done)) as [Hjoin [_ Hlast]].
  change (join sep (part :: part' :: parts))
    with (part ++ sep ++ join sep (part' :: parts)).
  destruct part as [|c part]; [done|]. split; [done|]. split.
  - apply Htrim.
  - rewrite app_assoc, reverse_app.
    destruct (reverse (join sep (part' :: parts))) as [|d r] eqn:Hrev; [|done].
    apply (f_equal reverse) in Hrev. by rewrite reverse_involutive in Hrev.
Qed.

Lemma no_blank_line_line (line rest : list N) :
  NL ∉ line → no_blank_line rest = true → rest ≠ [] → trimmed rest →
  no_blank_line (line ++ NL :: rest) = true.
Proof.
  intros Hline Hrest Hne [Hhead _]. induction line as [|c line IH].
  - destruct rest as [|d rest]; [done|]. cbn [app].
    change (no_blank_line (NL :: d :: rest))
      with (negb (d =? NL)%N && no_blank_line (d :: rest)).
    rewrite Hrest. by destruct (N.eqb_spec d NL) as [->|_].
  - apply not_elem_of_cons in Hline as [Hc Hline].
    cbn [app no_blank_line]. rewrite (IH Hline).
    by destruct (N.eqb_spec c NL); [congruence|].
Qed.

Lemma join_newline_no_blank_line (lines : list (list N)) :
  lines ≠ [] →
  Forall (λ line, (line ≠ [] ∧ trimmed line) ∧ NL ∉ line) lines →
  no_blank_line (join newline lines) = true.
Proof.
  intros Hne Hlines.
  induction Hlines as [|line lines [Hshape Hline] Hlines IH]; [done|].
  destruct lines as [|line' lines].
  - by apply no_newline_no_blank_line.
  - change (join newline (line :: line' :: lines))
      with (line ++ NL :: join newline (line' :: lines)).
    destruct (join_trimmed newline (line' :: lines) ltac:(done)) as [Hj Ht].
    { eapply Forall_impl; [exact Hlines|]. by intros ? [? _]. }
    apply no_blank_line_line; [done|by apply IH|done|done].
Qed.

Lemma lines_kept (lines : list (list N)) :
  Forall (λ line, line ≠ [] ∧ trimmed line) lines →
  strip <$> filter (λ line, strip line ≠ []) lines = lines.
Proof.
  induction 1 as [|line lines [Hne Htrim] _ IH]; [done|].
  rewrite filter_cons_True by (by rewrite trimmed_strip).
  cbn [fmap list_fmap]. by rewrite trimmed_strip, IH.
Qed.

Lemma group_lines_join (lines : list (list N)) :
  lines ≠ [] →
  Forall (λ line, (line ≠ [] ∧ trimmed line) ∧ NL ∉ line) lines →
  group_lines (join newline lines) = lines.
Proof.
  intros Hne Hlines. unfold group_lines.
  rewrite split_join_newline; [|done|].
  - apply lines_kept. eapply Forall_impl; [exact Hlines|]. by intros ? [? _].
  - eapply Forall_impl; [exact Hlines|]. by intros ? [_ ?].
Qed.

Lemma text_paragraphs_shape (text : option (list N)) :
  Forall (λ p, p ≠ [] ∧ trimmed p) (BatchImport.text_paragraphs text).
Proof.
  unfold BatchImport.text_paragraphs. apply Forall_fmap, Forall_forall.
  intros p [Hp _]%list_elem_of_filter. simpl. split; [done|apply strip_trimmed].
Qed.

Lemma text_paragraphs_truthy (text : option (list N)) :
  BatchImport.text_paragraphs text ≠ [] → BatchImport.truthy text = true.
Proof. by destruct text as [[|c text]|]. Qed.

Lemma foldl_add_group (ws zs es : list (list N)) (l : list nat) : ∀ acc,
  foldl (BatchImport.add_group ws zs es) acc l
  = acc ++ (l ≫= λ i, match BatchImport.lines_at ws zs es i with
                      | [] => []
                      | lines => [join newline lines]
                      end).
Proof.
  induction l as [|i l IH]; intros acc; cbn [foldl].
  - by rewrite app_nil_r.
  - rewrite IH, bind_cons, app_assoc. f_equal. unfold BatchImport.add_group.
    destruct (BatchImport.lines_at ws zs es i); by rewrite ?app_nil_r.
Qed.

Lemma present_item (P : list N → Prop) (l : list (list N)) (i : nat) :
  Forall P l → Forall P (BatchImport.present (BatchImport.item_or_empty l i)).
Proof.
  intros Hl. unfold BatchImport.item_or_empty.
  destruct (l !! i) as [[|c x]|] eqn:Hi; simpl; [done| |done].
  apply Forall_singleton. by apply (Forall_lookup_1 _ _ _ _ Hl Hi).
Qed.

Lemma lines_at_shape (P : list N → Prop) (ws zs es : list (list N)) (i : nat) :
  Forall P ws → Forall P zs → Forall P es →
  Forall P (BatchImport.lines_at ws zs es i).
Proof.
  intros Hw Hz He. unfold BatchImport.lines_at.
  rewrite !Forall_app. split_and!; by apply present_item.
Qed.

Section ImportedContent.
Variables ws zs es : list (list N).
Hypothesis Hws : Forall (λ p, (p ≠ [] ∧ trimmed p) ∧ NL ∉ p) ws.
Hypothesis Hzs : Forall (λ p, (p ≠ [] ∧ trimmed p) ∧ NL ∉ p) zs.
Hypothesis Hes : Forall (λ p, (p ≠ [] ∧ trimmed p) ∧ NL ∉ p) es.
Hypothesis Hez : length es ≤ length zs.
Hypothesis Hzw : length zs ≤ length ws.

Lemma item_nonempty (l : list (list N)) (i : nat) :
  Forall (λ p, (p ≠ [] ∧ trimmed p) ∧ NL ∉ p) l → i < length l →
  ∃ c x, BatchImport.item_or_empty l i = c :: x.
Proof.
  intros Hl Hi. destruct (lookup_lt_is_Some_2 l i Hi) as [x Hx].
  unfold BatchImport.item_or_empty. rewrite Hx.
  destruct (Forall_lookup_1 _ _ _ _ Hl Hx) as [[Hne _] _].
  destruct x as [|c x]; [done|]. by exists c, x.
Qed.

Lemma item_past_end (l : list (list N)) (i : nat) :
  length l ≤ i → BatchImport.item_or_empty l i = [].
Proof.
  intros Hi. unfold BatchImport.item_or_empty. by rewrite lookup_ge_None_2.
Qed.

Lemma lines_at_paragraph (i : nat) :
  i < length ws →
  BatchImport.lines_at ws zs es i ≠ []
  ∧ group_paragraph (BatchImport.lines_at ws zs es i)
    = [imported_paragraph ws zs es i].
Proof.
  intros Hi. unfold BatchImport.lines_at, imported_paragraph, mk_paragraph.
  destruct (item_nonempty ws i Hws Hi) as (c & w & ->).
  destruct (decide (i < length zs)) as [Hiz|Hiz].
  - destruct (item_nonempty zs i Hzs Hiz) as (d & z & ->).
    destruct (decide (i < length es)) as [Hie|Hie].
    + by destruct (item_nonempty es i Hes Hie) as (e & x & ->).
    + by rewrite (item_past_end es i) by lia.
  - by rewrite (item_past_end zs i), (item_past_end es i) by lia.
Qed.

Lemma imported_groups (l : list nat) :
  Forall (λ i, i < length ws) l →
  (l ≫= λ i, match BatchImport.lines_at ws zs es i with
             | [] => []
             | lines => [join newline lines]
             end)
  = (λ i, join newline (BatchImport.lines_at ws zs es i)) <$> l.
Proof.
  induction 1 as [|i l Hi _ IH]; [done|].
  rewrite bind_cons, IH. cbn [fmap list_fmap].
  destruct (lines_at_paragraph i Hi) as [Hne _].
  by destruct (BatchImport.lines_at ws zs es i).
Qed.

Lemma imported_groups_parsed (l : list nat) :
  Forall (λ i, i < length ws) l →
  (((λ i, join newline (BatchImport.lines_at ws zs es i)) <$> l)
     ≫= λ g, group_paragraph (group_lines g))
  = imported_paragraph ws zs es <$> l.
Proof.
  induction 1 as [|i l Hi _ IH]; [done|].
  cbn [fmap list_fmap]. rewrite bind_cons, IH.
  destruct (lines_at_paragraph i Hi) as [Hne Hpar].
  rewrite group_lines_join, Hpar; [done|done|]. by apply lines_at_shape.
Qed.

Lemma imported_groups_shape (l : list nat) :
  Forall (λ i, i < length ws) l →
  Forall (λ g, (g ≠ [] ∧ trimmed g) ∧ no_blank_line g = true)
    ((λ i, join newline (BatchImport.lines_at ws zs es i)) <$> l).
Proof.
  intros Hl. apply Forall_fmap. eapply Forall_impl; [exact Hl|].
  intros i Hi. simpl. destruct (lines_at_paragraph i Hi) as [Hne _].
  pose proof (lines_at_shape _ ws zs es i Hws Hzs Hes) as Hshape. split.
  - apply join_trimmed; [done|].
    eapply Forall_impl; [exact Hshape|]. by intros ? [? _].
  - by apply join_newline_no_blank_line.
Qed.

Lemma imported_content_paragraphs :
  (paragraph_groups
     (join blank_line
        (foldl (BatchImport.add_group ws zs es) []
           (seq 0 (length ws `max` (length zs `max` length es)))))
     ≫= λ g, group_paragraph (group_lines g))
  = imported_paragraph ws zs es <$> seq 0 (length ws).
Proof.
  replace (length ws `max` (length zs `max` length es)) with (length ws) by lia.
  assert (Hseq : Forall (λ i, i < length ws) (seq 0 (length ws))).
  { apply Forall_forall. intros i Hi%elem_of_seq. lia. }
  rewrite foldl_add_group, app_nil_l, imported_groups by done.
  destruct (decide (length ws = 0)) as [Hnone|Hsome]; [by rewrite Hnone|].
  pose proof (imported_groups_shape _ Hseq) as Hshape.
  set (groups := (λ i, join newline (BatchImport.lines_at ws zs es i))
                 <$> seq 0 (length ws)) in *.
  assert (Hne : groups ≠ []).
  { intros Hg. apply (f_equal length) in Hg. unfold groups in Hg.
    by rewrite length_fmap, length_seq in Hg. }
  destruct (join_trimmed blank_line groups Hne) as [_ Htrim].
  { eapply Forall_impl; [exact Hshape|]. by intros ? [? _]. }
  unfold paragraph_groups. rewrite (trimmed_strip _ Htrim).
  rewrite split_join_blank; [|done|].
  - by apply imported_groups_parsed.
  - eapply Forall_impl; [exact Hshape|]. by intros ? [_ ?].
Qed.

End ImportedContent.

Lemma items_of_list (l : list (list N)) :
  BatchImport.item_or_empty l <$> seq 0 (length l) = l.
Proof.
  apply list_eq. intros i. rewrite list_lookup_fmap.
  destruct (decide (i < length l)) as [Hi|Hi].
  - rewrite lookup_seq_lt by done. simpl. unfold BatchImport.item_or_empty.
    by destruct (lookup_lt_is_Some_2 l i Hi) as [x ->].
  - rewrite lookup_seq_ge, lookup_ge_None_2 by lia. done.
Qed.

(** X22. What the import writes, the parser reads back.  If no paragraph of the
    three texts holds a line break and no text has more paragraphs than the
    one before it (original, then translation, then English), then the
    parser, on a file holding the created content, returns one paragraph per
    original paragraph, each with the translations of the same rank or the
    empty string where a translation has run out; and the chapter's original
    text is the original paragraphs joined by blank lines. *)
Theorem import_then_parse (wenyan zh en : option (list N)) (fs : option node)
    (file_path : list (list N)) :
  Forall (λ p, NL ∉ p)
    (BatchImport.text_paragraphs wenyan ++ BatchImport.text_paragraphs zh
     ++ BatchImport.text_paragraphs en) →
  length (BatchImport.text_paragraphs en)
    ≤ length (BatchImport.text_paragraphs zh) →
  length (BatchImport.text_paragraphs zh)
    ≤ length (BatchImport.text_paragraphs wenyan) →
  read_text fs file_path
    = Ok (BatchImport.create_three_parallel_content wenyan zh en) →
  ∃ res, App.parse_three_parallel_file fs file_path = Ok res
    ∧ p_paragraphs res
      = Some (imported_paragraph (BatchImport.text_paragraphs wenyan)
                (BatchImport.text_paragraphs zh)
                (BatchImport.text_paragraphs en)
              <$> seq 0 (length (BatchImport.text_paragraphs wenyan)))
    ∧ p_wenyan res = join blank_line (BatchImport.text_paragraphs wenyan).
Proof.
  set (ws := BatchImport.text_paragraphs wenyan).
  set (zs := BatchImport.text_paragraphs zh).
  set (es := BatchImport.text_paragraphs en).
  intros Hlines Hez Hzw Hread.
  apply Forall_app in Hlines as [Hw Hlines].
  apply Forall_app in Hlines as [Hz He].
  assert (Hshape : ∀ text, Forall (λ p, NL ∉ p) (BatchImport.text_paragraphs text) →
            Forall (λ p, (p ≠ [] ∧ trimmed p) ∧ NL ∉ p)
              (BatchImport.text_paragraphs text)).
  { intros text Hno. pose proof (text_paragraphs_shape text) as Hs.
    rewrite Forall_forall in Hs, Hno. apply Forall_forall. intros p Hp.
    split; [by apply Hs|by apply Hno]. }
  assert (Hps : (paragraph_groups
                   (BatchImport.create_three_parallel_content wenyan zh en)
                   ≫= λ g, group_paragraph (group_lines g))
                = imported_paragraph ws zs es <$> seq 0 (length ws)).
  { unfold BatchImport.create_three_parallel_content.
    destruct (negb _) eqn:Hany.
    - destruct (decide (ws = [])) as [->|Hsome]; [done|].
      apply text_paragraphs_truthy in Hsome. rewrite Hsome in Hany.
      discriminate Hany.
    - cbn zeta. by apply imported_content_paragraphs; try apply Hshape. }
  destruct (App.parse_three_parallel_file fs file_path) as [res|e] eqn:Hparse.
  - exists res. split; [done|].
    destruct (full_text_chapter _ _ _ Hparse) as (ps & Hpar & Hwen & _).
    rewrite (app_parse_read _ _ _ Hread) in Hparse. cbn zeta in Hparse.
    injection Hparse as <-. cbn [p_paragraphs p_wenyan] in *.
    rewrite app_paragraphs_foldl in Hpar. cbn [App.paragraphs app] in Hpar.
    rewrite Hps in Hpar. injection Hpar as <-. split.
    { rewrite app_paragraphs_foldl. cbn [App.paragraphs app]. by rewrite Hps. }
    rewrite Hwen, <-list_fmap_compose. f_equal.
    transitivity (BatchImport.item_or_empty ws <$> seq 0 (length ws));
      [|apply items_of_list].
    apply list_fmap_ext. by intros.
  - by rewrite (app_parse_read _ _ _ Hread) in Hparse.
Qed.

Lemma import_then_parse_witness :
  ∃ res, App.parse_three_parallel_file imported_fs demo_xia_path = Ok res
    ∧ p_paragraphs res
      = Some (imported_paragraph (BatchImport.text_paragraphs demo_row_wenyan)
                (BatchImport.text_paragraphs demo_row_zh)
                (BatchImport.text_paragraphs demo_row_en)
              <$> seq 0 (length (BatchImport.text_paragraphs demo_row_wenyan)))
    ∧ p_wenyan res = join blank_line (BatchImport.text_paragraphs demo_row_wenyan).
Proof.
  apply (import_then_parse demo_row_wenyan demo_row_zh demo_row_en imported_fs
           demo_xia_path).
  - apply (bool_decide_unpack _). vm_compute. exact I.
  - vm_compute. lia.
  - vm_compute. lia.
  - vm_compute. reflexivity.
Defined.

Lemma join_nonempty (sep p : list N) (ps : list (list N)) :
  p ≠ [] → join sep (p :: ps) ≠ [].
Proof. by destruct p, ps. Qed.

Lemma first_group_nonempty (ws zs es : list (list N)) :
  Forall (λ p, p ≠ []) ws → Forall (λ p, p ≠ []) zs → Forall (λ p, p ≠ []) es →
  ¬ (ws = [] ∧ zs = [] ∧ es = []) →
  ∃ line lines, BatchImport.lines_at ws zs es 0 = line :: lines ∧ line ≠ [].
Proof.
  intros Hw Hz He Hsome.
  pose proof (lines_at_shape _ ws zs es 0 Hw Hz He) as Hshape.
  destruct (BatchImport.lines_at ws zs es 0) as [|line lines] eqn:Hlines.
  - exfalso. apply Hsome. unfold BatchImport.lines_at in Hlines.
    apply app_eq_nil in Hlines as [H1 Hlines].
    apply app_eq_nil in Hlines as [H2 H3].
    assert (Hnone : ∀ l, Forall (λ p, p ≠ []) l →
              BatchImport.present (BatchImport.item_or_empty l 0) = [] → l = []).
    { intros [|[|c x] l] Hl; [done|by apply Forall_cons in Hl as [? _]|done]. }
    split_and!; by apply Hnone.
  - exists line, lines. split; [done|]. by apply Forall_cons in Hshape as [? _].
Qed.

(** X23. The import writes an empty file exactly when none of the three texts
    has a paragraph: [None], the empty string and a text of white space
    alone all count for nothing, and any other text leaves content. *)
Theorem content_empty_iff (wenyan zh en : option (list N)) :
  BatchImport.create_three_parallel_content wenyan zh en = []
  ↔ BatchImport.text_paragraphs wenyan = []
    ∧ BatchImport.text_paragraphs zh = []
    ∧ BatchImport.text_paragraphs en = [].
Proof.
  unfold BatchImport.create_three_parallel_content. split.
  - intros Hempty.
    destruct (decide (BatchImport.text_paragraphs wenyan = []
                      ∧ BatchImport.text_paragraphs zh = []
                      ∧ BatchImport.text_paragraphs en = [])) as [|Hsome]; [done|].
    exfalso. destruct (negb _) eqn:Hany.
    + apply Hsome. apply negb_true_iff in Hany.
      apply orb_false_iff in Hany as [Hany He].
      apply orb_false_iff in Hany as [Hw Hz].
      assert (Hnone : ∀ text, BatchImport.truthy text = false →
                BatchImport.text_paragraphs text = []).
      { by intros [[|c text]|]. }
      split_and!; by apply Hnone.
    + cbn zeta in Hempty.
      assert (Hshape : ∀ text, Forall (λ p, p ≠ []) (BatchImport.text_paragraphs text)).
      { intros text. eapply Forall_impl; [apply text_paragraphs_shape|].
        by intros ? [? _]. }
      destruct (first_group_nonempty _ _ _ (Hshape wenyan) (Hshape zh) (Hshape en)
                  Hsome) as (line & lines & Hlines & Hline).
      assert (Hmax : ∃ m,
        length (BatchImport.text_paragraphs wenyan)
          `max` (length (BatchImport.text_paragraphs zh)
                   `max` length (BatchImport.text_paragraphs en)) = S m).
      { destruct (BatchImport.text_paragraphs wenyan),
          (BatchImport.text_paragraphs zh), (BatchImport.text_paragraphs en);
          simpl; by eauto. }
      destruct Hmax as [m Hmax]. rewrite Hmax in Hempty.
      cbn [seq] in Hempty. rewrite foldl_add_group, app_nil_l, bind_cons in Hempty.
      rewrite Hlines in Hempty. cbn [app] in Hempty.
      revert Hempty. apply join_nonempty. by apply join_nonempty.
  - intros (-> & -> & ->). by destruct (negb _).
Qed.

Lemma text_paragraphs_falsy (text : option (list N)) :
  BatchImport.truthy text = false → BatchImport.text_paragraphs text = [].
Proof. by destruct text as [[|c text]|]. Qed.

(** X24. A translation that is missing is not kept apart: when a row has an
    original paragraph and an English one but no translation, the English
    line is written second, and the parser reads it as the translation. *)
Theorem english_read_as_translation (w e : list N) (fs : option node)
    (file_path : list (list N)) :
  w ≠ [] → e ≠ [] → one_line w → one_line e →
  read_text fs file_path
    = Ok (BatchImport.create_three_parallel_content (Some w) None (Some e)) →
  ∃ res, App.parse_three_parallel_file fs file_path = Ok res
    ∧ p_paragraphs res = Some [mk_paragraph w e []].
Proof.
  intros Hw He [Hws Hwl] [Hes Hel] Hread.
  assert (Hone : ∀ p, p ≠ [] → strip p = p → NL ∉ p →
            BatchImport.text_paragraphs (Some p) = [p]).
  { intros p Hp Hps Hpl. unfold BatchImport.text_paragraphs, split.
    cbn [default]. rewrite split_blank_last by (by apply no_newline_no_blank_line).
    change (reverse [] ++ id p) with p.
    rewrite filter_cons_True by (cbn beta; congruence).
    cbn [filter list_filter fmap list_fmap]. by rewrite Hps. }
  assert (Hcontent : BatchImport.create_three_parallel_content (Some w) None (Some e)
                     = join newline [w; e]).
  { unfold BatchImport.create_three_parallel_content.
    rewrite (Hone w), (Hone e), (text_paragraphs_falsy None) by done.
    destruct w as [|c w]; [by destruct Hw|].
    destruct e as [|d e]; [by destruct He|]. reflexivity. }
  assert (Hshape : Forall (λ line, (line ≠ [] ∧ trimmed line) ∧ NL ∉ line) [w; e]).
  { apply Forall_cons_2; [|apply Forall_singleton].
    - split; [split; [done|]|done]. rewrite <-Hws. apply strip_trimmed.
    - split; [split; [done|]|done]. rewrite <-Hes. apply strip_trimmed. }
  assert (Htrim : trimmed (join newline [w; e])).
  { apply join_trimmed; [done|].
    eapply Forall_impl; [exact Hshape|]. by intros ? [? _]. }
  rewrite Hcontent in Hread. rewrite (app_parse_read _ _ _ Hread). cbn zeta.
  eexists. split; [done|]. cbn [p_paragraphs].
  rewrite app_paragraphs_foldl. cbn [App.paragraphs app].
  unfold paragraph_groups. rewrite (trimmed_strip _ Htrim). unfold split.
  rewrite split_blank_last by (by apply join_newline_no_blank_line).
  change (reverse [] ++ join newline [w; e]) with (join newline [w; e]).
  rewrite bind_cons, group_lines_join by done. done.
Qed.

Lemma english_read_as_translation_witness :
  ∃ res,
    App.parse_three_parallel_file
      (Some (Dir true [(py "a.txt", File (py "Qi" ++ [NL] ++ py "son of Yu"))]))
      [py "a.txt"] = Ok res
    ∧ p_paragraphs res = Some [mk_paragraph (py "Qi") (py "son of Yu") []].
Proof.
  apply (english_read_as_translation (py "Qi") (py "son of Yu")
           (Some (Dir true [(py "a.txt", File (py "Qi" ++ [NL] ++ py "son of Yu"))]))
           [py "a.txt"]).
  - discriminate.
  - discriminate.
  - split; [reflexivity|]. apply (bool_decide_unpack _). vm_compute. exact I.
  - split; [reflexivity|]. apply (bool_decide_unpack _). vm_compute. exact I.
  - vm_compute. reflexivity.
Defined.

(** ** build_static.py: the old layout *)

Lemma parse_unfold (text : list N) :
  BuildStatic.parse text
  = match BuildStatic.flush
            (foldl parse_step
               {| BuildStatic.chapters := []; BuildStatic.cur_title := [];
                  BuildStatic.cur_lines := [] |} (splitlines text)) with
    | [] => [{| BuildStatic.title := []; BuildStatic.content := strip text |}]
    | chapters => chapters
    end.
Proof. reflexivity. Qed.

Lemma flush_length (st : BuildStatic.cursor) :
  length (BuildStatic.flush st) ≤ length (BuildStatic.chapters st) + 1.
Proof.
  unfold BuildStatic.flush. destruct (BuildStatic.pending st).
  - rewrite length_app. simpl. lia.
  - lia.
Qed.

Lemma flush_trimmed (st : BuildStatic.cursor) :
  Forall (λ s, trimmed (BuildStatic.title s) ∧ trimmed (BuildStatic.content s))
    (BuildStatic.chapters st) →
  Forall (λ s, trimmed (BuildStatic.title s) ∧ trimmed (BuildStatic.content s))
    (BuildStatic.flush st).
Proof.
  intros Hst. unfold BuildStatic.flush. destruct (BuildStatic.pending st); [|done].
  apply Forall_app. split; [done|]. apply Forall_singleton.
  split; apply strip_trimmed.
Qed.

Lemma parse_loop_length (lines : list (list N)) : ∀ st,
  length (BuildStatic.chapters (foldl parse_step st lines))
  ≤ length (BuildStatic.chapters st)
    + length (filter (λ line, startswith (py "## ") line = true) lines).
Proof.
  induction lines as [|line lines IH]; intros st; cbn [foldl]; [simpl; lia|].
  etransitivity; [apply IH|]. unfold parse_step.
  destruct (startswith (py "## ") line) eqn:Hline.
  - rewrite filter_cons_True by done. cbn [BuildStatic.chapters length].
    pose proof (flush_length st). lia.
  - rewrite filter_cons_False by (by rewrite Hline). done.
Qed.

Lemma parse_loop_trimmed (lines : list (list N)) : ∀ st,
  Forall (λ s, trimmed (BuildStatic.title s) ∧ trimmed (BuildStatic.content s))
    (BuildStatic.chapters st) →
  Forall (λ s, trimmed (BuildStatic.title s) ∧ trimmed (BuildStatic.content s))
    (BuildStatic.chapters (foldl parse_step st lines)).
Proof.
  induction lines as [|line lines IH]; intros st Hst; cbn [foldl]; [done|].
  apply IH. unfold parse_step. destruct (startswith (py "## ") line); [|done].
  by apply flush_trimmed.
Qed.

Lemma parse_nonempty (text : list N) : BuildStatic.parse text ≠ [].
Proof. rewrite parse_unfold. by destruct (BuildStatic.flush _). Qed.

(** X25. Splitting an old-layout text into sections always gives at least one
    section and at most one more than the text has marker lines; every
    title and every content is stripped of surrounding white space. *)
Theorem sections_of_text (text : list N) :
  1 ≤ length (BuildStatic.parse text)
  ∧ length (BuildStatic.parse text) ≤ 1 + length (marker_lines text)
  ∧ Forall (λ s, trimmed (BuildStatic.title s) ∧ trimmed (BuildStatic.content s))
      (BuildStatic.parse text).
Proof.
  split_and!.
  - pose proof (parse_nonempty text). destruct (BuildStatic.parse text); simpl; [done|lia].
  - rewrite parse_unfold. unfold marker_lines.
    set (st := foldl parse_step _ _).
    pose proof (flush_length st) as Hflush.
    pose proof (parse_loop_length (splitlines text)
      {| BuildStatic.chapters := []; BuildStatic.cur_title := [];
         BuildStatic.cur_lines := [] |}) as Hloop.
    fold st in Hloop. cbn [BuildStatic.chapters length] in Hloop.
    destruct (BuildStatic.flush st) as [|s l]; [simpl; lia|lia].
  - rewrite parse_unfold.
    set (st := foldl parse_step _ _).
    assert (Hst : Forall (λ s, trimmed (BuildStatic.title s)
                               ∧ trimmed (BuildStatic.content s))
                    (BuildStatic.flush st)).
    { apply flush_trimmed, parse_loop_trimmed. constructor. }
    destruct (BuildStatic.flush st) as [|s l]; [|done].
    apply Forall_singleton. split; [done|apply strip_trimmed].
Qed.

Lemma foldl_snoc_fmap {A B} (f : A → B) (l : list A) : ∀ acc,
  foldl (λ acc x, acc ++ [f x]) acc l = acc ++ (f <$> l).
Proof.
  induction l as [|x l IH]; intros acc; cbn [foldl].
  - by rewrite app_nil_r.
  - rewrite IH. cbn [fmap list_fmap]. by rewrite <-app_assoc.
Qed.

Lemma str_or_nonempty (a b : list N) : b ≠ [] → str_or a b ≠ [].
Proof. by destruct a. Qed.

(** X26. A book in the old layout gets as many chapters as the shortest of its
    three texts has sections, a missing text counting for one section: the
    count is never zero, the chapters are numbered from 1 without gap, none
    has an empty title, and none has paragraphs. *)
Theorem old_format_chapters (fs : option node) (book_path : list (list N))
    (chapters : list chapter) :
  BuildStatic.load_old_format fs book_path = Ok chapters →
  ∃ w z e,
    BuildStatic.read_or_empty fs (path_join book_path (py "wenyan.txt")) = Ok w
    ∧ BuildStatic.read_or_empty fs (path_join book_path (py "zh.txt")) = Ok z
    ∧ BuildStatic.read_or_empty fs (path_join book_path (py "en.txt")) = Ok e
    ∧ length chapters
      = length (BuildStatic.parse w)
          `min` (length (BuildStatic.parse z) `min` length (BuildStatic.parse e))
    ∧ chapters ≠ []
    ∧ ch_id <$> chapters = seq 1 (length chapters)
    ∧ Forall (λ c, ch_title c ≠ [] ∧ ch_paragraphs c = None) chapters.
Proof.
  unfold BuildStatic.load_old_format.
  destruct (BuildStatic.read_or_empty fs (path_join book_path (py "wenyan.txt")))
    as [w|?]; [|done].
  destruct (BuildStatic.read_or_empty fs (path_join book_path (py "zh.txt")))
    as [z|?]; [|done].
  destruct (BuildStatic.read_or_empty fs (path_join book_path (py "en.txt")))
    as [e|?]; [|done].
  cbn [mbind result_bind]. cbn zeta.
  pose proof (parse_nonempty w) as Hw. pose proof (parse_nonempty z) as Hz.
  pose proof (parse_nonempty e) as He.
  set (ch_w := BuildStatic.parse w) in *. set (ch_z := BuildStatic.parse z) in *.
  set (ch_e := BuildStatic.parse e) in *.
  assert (Hn : match ch_w, ch_z, ch_e with
               | _ :: _, _ :: _, _ :: _ =>
                   length ch_w `min` (length ch_z `min` length ch_e)
               | _, _, _ => length ch_w `max` (length ch_z `max` length ch_e)
               end = length ch_w `min` (length ch_z `min` length ch_e)).
  { by destruct ch_w, ch_z, ch_e. }
  rewrite Hn. set (n := length ch_w `min` (length ch_z `min` length ch_e)).
  rewrite foldl_snoc_fmap, app_nil_l. intros [= <-].
  exists w, z, e. split_and!; try done.
  - by rewrite length_fmap, length_seq.
  - assert (0 < n).
    { unfold n. destruct ch_w, ch_z, ch_e; simpl in *; try done; lia. }
    intros Hnone. apply (f_equal length) in Hnone.
    rewrite length_fmap, length_seq in Hnone. simpl in Hnone. lia.
  - rewrite length_fmap, length_seq, <-list_fmap_compose, <-fmap_S_seq.
    apply list_fmap_ext. intros i x _. simpl. lia.
  - apply Forall_fmap, Forall_forall. intros i _. simpl. split; [|done].
    by do 3 apply str_or_nonempty.
Qed.

Lemma old_format_chapters_witness :
  ∃ w z e,
    BuildStatic.read_or_empty old_format_fs
      (path_join [py "shiji"] (py "wenyan.txt")) = Ok w
    ∧ BuildStatic.read_or_empty old_format_fs
        (path_join [py "shiji"] (py "zh.txt")) = Ok z
    ∧ BuildStatic.read_or_empty old_format_fs
        (path_join [py "shiji"] (py "en.txt")) = Ok e
    ∧ length [old_format_chapter]
      = length (BuildStatic.parse w)
          `min` (length (BuildStatic.parse z) `min` length (BuildStatic.parse e))
    ∧ [old_format_chapter] ≠ []
    ∧ ch_id <$> [old_format_chapter] = seq 1 (length [old_format_chapter])
    ∧ Forall (λ c, ch_title c ≠ [] ∧ ch_paragraphs c = None) [old_format_chapter].
Proof.
  apply (old_format_chapters old_format_fs [py "shiji"] [old_format_chapter]).
  vm_compute. reflexivity.
Defined.

(** ** build_static.py: the loaded corpus *)



(** X28. Whenever the static builder returns a corpus, no book of it is without
    category and no category without chapter. *)
Theorem static_corpus_nonempty (fs : option node) (books : list book) :
  BuildStatic.load_books_from_raw fs = Ok books →
  Forall (λ b, book_categories b ≠ []
               ∧ Forall (λ c, cat_chapters c ≠ []) (book_categories b)) books.
Proof. apply static_no_empty_category_or_book. Qed.

Lemma static_corpus_nonempty_witness :
  Forall (λ b, book_categories b ≠ []
               ∧ Forall (λ c, cat_chapters c ≠ []) (book_categories b))
    old_format_books.
Proof.
  apply (static_corpus_nonempty old_format_fs old_format_books).
  vm_compute. reflexivity.
Defined.

(** ** app.py: the chapters of the corpus *)

(** X29. In the corpus [app.py] loads, every chapter carries its paragraphs, and
    each of its three full texts is the join of that field of the
    paragraphs. *)
Theorem corpus_texts_joined (fs : option node) (books : list book) :
  App.load_books_from_raw fs = Ok books →
  Forall (λ b, Forall (λ c, Forall chapter_joined (cat_chapters c))
                 (book_categories b)) books.
Proof. apply corpus_chapters_joined. Qed.

Lemma corpus_texts_joined_witness :
  Forall (λ b, Forall (λ c, Forall chapter_joined (cat_chapters c))
                 (book_categories b)) demo_books.
Proof.
  apply (corpus_texts_joined demo_fs demo_books). vm_compute. reflexivity.
Defined.

(** ** app.py: the pages of books and categories *)

Lemma book_page_cases (BOOKS : list book) (bid : list N) :
  (book_page BOOKS bid = Aborted 404 ∧ ∀ b, b ∈ BOOKS → book_id b ≠ bid)
  ∨ ∃ b, b ∈ BOOKS ∧ book_id b = bid ∧ book_page BOOKS bid = Rendered b.
Proof.
  unfold book_page.
  match goal with |- context [first_return ?f BOOKS] => set (body := f) end.
  destruct (first_return body BOOKS) as [r|] eqn:Hfound.
  - right. apply first_return_Some in Hfound as (b & Hb & Hbody).
    unfold body, str_eqb in Hbody. case_bool_decide as Hid; [|done].
    injection Hbody as <-. by exists b.
  - left. split; [done|]. intros b Hb Hid.
    apply first_return_None with (x := b) in Hfound; [|done].
    unfold body, str_eqb in Hfound. by rewrite bool_decide_eq_true_2 in Hfound.
Qed.

Lemma category_page_cases (BOOKS : list book) (bid cid : list N) :
  (category_page BOOKS bid cid = Aborted 404
   ∧ ∀ b c, b ∈ BOOKS → book_id b = bid → c ∈ book_categories b → cat_id c ≠ cid)
  ∨ ∃ b c, b ∈ BOOKS ∧ book_id b = bid ∧ c ∈ book_categories b ∧ cat_id c = cid
           ∧ category_page BOOKS bid cid = Rendered (b, c).
Proof.
  unfold category_page.
  match goal with |- context [first_return ?f BOOKS] => set (body := f) end.
  destruct (first_return body BOOKS) as [r|] eqn:Hfound.
  - right. apply first_return_Some in Hfound as (b & Hb & Hbody).
    unfold body, str_eqb in Hbody. case_bool_decide as Hid; [|done].
    apply first_return_Some in Hbody as (c & Hc & Hbody).
    case_bool_decide as Hcid; [|done]. injection Hbody as <-. by exists b, c.
  - left. split; [done|]. intros b c Hb Hid Hc Hcid.
    apply first_return_None with (x := b) in Hfound; [|done].
    unfold body, str_eqb in Hfound. rewrite bool_decide_eq_true_2 in Hfound by done.
    apply first_return_None with (x := c) in Hfound; [|done].
    by rewrite bool_decide_eq_true_2 in Hfound.
Qed.

(** X30. The pages nest.  The book page is a 404 exactly when no book has the
    id, and the category page exactly when no book with the book id has a
    category with the category id; where the book page is a 404 so is every
    category page under it, and where the category page is a 404 so is every
    chapter page under it.  A page that is rendered shows a book, or a
    category of a book, with the ids asked for. *)
Theorem pages_nest (BOOKS : list book) (bid cid : list N) (k : nat) :
  (book_page BOOKS bid = Aborted 404 ↔ ∀ b, b ∈ BOOKS → book_id b ≠ bid)
  ∧ (category_page BOOKS bid cid = Aborted 404
     ↔ ∀ b c, b ∈ BOOKS → book_id b = bid → c ∈ book_categories b →
              cat_id c ≠ cid)
  ∧ (book_page BOOKS bid = Aborted 404 → category_page BOOKS bid cid = Aborted 404)
  ∧ (category_page BOOKS bid cid = Aborted 404 →
     chapter_page BOOKS bid cid k = Aborted 404)
  ∧ (∀ b, book_page BOOKS bid = Rendered b → b ∈ BOOKS ∧ book_id b = bid)
  ∧ (∀ b c, category_page BOOKS bid cid = Rendered (b, c) →
       b ∈ BOOKS ∧ book_id b = bid ∧ c ∈ book_categories b ∧ cat_id c = cid).
Proof.
  assert (Hbook : book_page BOOKS bid = Aborted 404
                  ↔ ∀ b, b ∈ BOOKS → book_id b ≠ bid).
  { destruct (book_page_cases BOOKS bid) as [[Hpage Hno]|(b & Hb & Hid & Hpage)].
    - by split.
    - rewrite Hpage. split; [done|]. intros Hno. by destruct (Hno b Hb). }
  assert (Hcat : category_page BOOKS bid cid = Aborted 404
                 ↔ ∀ b c, b ∈ BOOKS → book_id b = bid → c ∈ book_categories b →
                          cat_id c ≠ cid).
  { destruct (category_page_cases BOOKS bid cid)
      as [[Hpage Hno]|(b & c & Hb & Hid & Hc & Hcid & Hpage)].
    - by split.
    - rewrite Hpage. split; [done|]. intros Hno. by destruct (Hno b c Hb Hid Hc). }
  split_and!; try done.
  - rewrite Hbook, Hcat. intros Hno b c Hb Hid. by destruct (Hno b Hb).
  - rewrite Hcat. intros Hno.
    destruct (chapter_page_cases BOOKS bid cid k)
      as [[Hpage _]|(b & c & ch & idx & first & Hat & _)]; [done|].
    destruct Hat as (Hb & Hid & Hc & Hcid & _). by destruct (Hno b c Hb Hid Hc).
  - intros b Hpage.
    destruct (book_page_cases BOOKS bid) as [[H404 _]|(b' & Hb & Hid & Hpage')];
      [congruence|]. rewrite Hpage in Hpage'. by injection Hpage' as ->.
  - intros b c Hpage.
    destruct (category_page_cases BOOKS bid cid)
      as [[H404 _]|(b' & c' & Hb & Hid & Hc & Hcid & Hpage')]; [congruence|].
    rewrite Hpage in Hpage'. by injection Hpage' as -> ->.
Qed.
